(** * PunktGrader: the page-labelling and regrouping pipeline

    A shallow embedding of the backend session store
    ([backend/src/server.ts]) and of the label handlers of the sorting page
    ([SortingPage.tsx]), with the properties of the pipeline proved over it.

    JavaScript objects used as dictionaries are finite maps ([gmap]); the
    numbers of the program (student ids, page numbers, problem numbers) are
    integers ([Z]); a handler that can throw runs in a small state-and-error
    monad in which the writes made before the throw are kept, as they are in
    the program.

    A handler or a background task is run from its start to its end on the
    store it finds. The server is single-threaded, and another handler can
    only run at an [await] of the task; the properties below are about what
    one run reads, appends and records.

    A text is a [string], the UTF-8 bytes of the JavaScript string. Two
    tests on texts belong to the platform and not to this program: which
    texts the standard Helvetica font of the PDF library can encode, and
    which header values the HTTP module accepts. Both are taken as given
    ([Pdf.StandardFonts], [Node.Http]); the properties hold for every such
    font and every such test. *)

From Stdlib Require Import ZArith Lia.
From stdpp Require Import gmap strings list fin_maps sorting pretty.

Local Open Scope string_scope.
Local Open Scope Z_scope.
Local Open Scope list_scope.
Local Open Scope stdpp_scope.

(** ** The PDF library, as far as the server uses it

    A document is the list of its pages. A page is its original content and
    the text drawn on top of it. The geometry of [drawText] (position, size,
    rotation, opacity) and the info dictionary that [save] writes are not
    part of the content modelled here. *)
Module Pdf.

Record PDFPage : Type := mkPage {
  content : string;
  drawn : list string
}.

Abbreviation PDFDocument := (list PDFPage).

(** The bytes of a file: the serialisation of a document, or bytes that
    do not parse as one. *)
Inductive Buffer : Type :=
| PdfBytes (pages : PDFDocument)
| RawBytes (raw : string).

Definition create : PDFDocument := [].

(** [PDFDocument.load]: throws on bytes that are not a document. *)
Definition load (b : Buffer) : string + PDFDocument :=
  match b with
  | PdfBytes pages => inr pages
  | RawBytes _ => inl "Failed to parse PDF document"
  end.

Definition getPages (d : PDFDocument) : list PDFPage := d.

(** [dst.copyPages(src, [index])] reads [src.getPages()[index]] and
    dereferences it: an index outside the array throws a [TypeError]. *)
Definition copyPages (src : PDFDocument) (index : Z) : string + PDFPage :=
  if index <? 0 then inl "Cannot read properties of undefined (reading 'node')"
  else match getPages src !! Z.to_nat index with
       | Some p => inr p
       | None => inl "Cannot read properties of undefined (reading 'node')"
       end.

Definition addPage (d : PDFDocument) (p : PDFPage) : PDFDocument := d ++ [p].

(** A font embedded in a document. Its encoding table is the library's; the
    font is given by the texts that [widthOfTextAtSize] measures and the
    texts that [drawText] draws. On any other text they throw. *)
Record PDFFont : Type := mkFont {
  measures : string → bool;
  draws : string → bool
}.

(** [StandardFonts.Helvetica] *)
Class StandardFonts : Type := {
  Helvetica : PDFFont
}.

Definition embedFont (font : PDFFont) : PDFFont := font.

(** [font.widthOfTextAtSize(text, size)]; the width itself only places the
    text. The message of the throw names the character that has no code. *)
Definition widthOfTextAtSize (font : PDFFont) (text : string) (size : Z)
    : string + unit :=
  if measures font text then inr tt
  else inl "WinAnsi cannot encode the text".

(** The page with [text] drawn on it. *)
Definition textDrawn (text : string) (p : PDFPage) : PDFPage :=
  {| content := content p; drawn := drawn p ++ [text] |}.

(** [page.drawText(text, { font, ... })] *)
Definition drawText (font : PDFFont) (text : string) (p : PDFPage)
    : string + PDFPage :=
  if draws font text then inr (textDrawn text p)
  else inl "WinAnsi cannot encode the text".

Definition save (d : PDFDocument) : Buffer := PdfBytes d.

#[global] Instance PDFPage_eq_dec : EqDecision PDFPage.
Proof. solve_decision. Defined.

#[global] Instance Buffer_eq_dec : EqDecision Buffer.
Proof. solve_decision. Defined.

End Pdf.

Import Pdf.

(** ** The HTTP module of the platform, as far as the server uses it *)
Module Node.

(** [checkInvalidHeaderChar]: [true] for a header value that [setHeader]
    refuses, with a throw. *)
Class Http : Type := {
  checkInvalidHeaderChar : string → bool
}.

End Node.

(** ** The session store (server.ts, [sessionData]) *)

Inductive ProcessingStatus : Type :=
| pending
| processing
| completed
| error.

#[global] Instance ProcessingStatus_eq_dec : EqDecision ProcessingStatus.
Proof. solve_decision. Defined.

(** A label assignment as the server walks it: the result of
    [Object.entries(pageLabels)] with every key passed through [parseInt].
    Two keys of the submitted object may parse to the same page number, and
    the order is the object's own, so this is a list of entries. *)
Abbreviation PageLabels := (list (Z * list Z)).

Record StudentData : Type := mkStudent {
  id : Z;
  name : string;
  originalPdfPath : string;
  pageLabels : PageLabels;
  processingStatus : ProcessingStatus;
  processingError : option string
}.

Record ProblemPage : Type := mkProblemPage {
  studentId : Z;
  studentName : string;
  pageNumber : Z;
  pdfData : Buffer
}.

Record SessionData : Type := mkSession {
  students : list StudentData;
  problemPages : gmap Z (list ProblemPage);
  finalPdfs : gmap Z Buffer
}.

(** The temporary directory the uploads are stored in, read by [fs.readFile]. *)
Abbreviation FileSystem := (gmap string Buffer).

Definition emptySession : SessionData :=
  {| students := []; problemPages := ∅; finalPdfs := ∅ |}.

(** ** State and exceptions

    A computation reads and writes the session store and either returns or
    throws a message. The store reached at the throw is the store the
    [catch] block sees: nothing is rolled back. *)
Definition M (A : Type) : Type := SessionData → (string + A) * SessionData.

Definition ret {A} (a : A) : M A := λ s, (inr a, s).

Definition throw {A} (msg : string) : M A := λ s, (inl msg, s).

Definition bind {A B} (m : M A) (k : A → M B) : M B :=
  λ s, match m s with
       | (inr a, s') => k a s'
       | (inl e, s') => (inl e, s')
       end.

Definition lift {A} (r : string + A) : M A :=
  match r with
  | inr a => ret a
  | inl e => throw e
  end.

Definition modify (f : SessionData → SessionData) : M unit := λ s, (inr tt, f s).

Notation "'let*' x := m 'in' k" := (bind m (λ x, k))
  (at level 10, x name, m at level 100, k at level 200).
Notation "'exec' m 'in' k" := (bind m (λ _, k))
  (at level 10, m at level 100, k at level 200).

(** [for (const x of xs) body(x)] *)
Fixpoint forEach {A} (xs : list A) (body : A → M unit) : M unit :=
  match xs with
  | [] => ret tt
  | x :: rest => exec body x in forEach rest body
  end.

(** ** Students *)

(** [sessionData.students.find(s => s.id === studentId)] *)
Definition findStudent (sid : Z) (l : list StudentData) : option StudentData :=
  List.find (λ st, bool_decide (id st = sid)) l.

(** A write through the reference returned by [find]: the first student with
    that id is changed, in place. *)
Fixpoint updateStudent (sid : Z) (f : StudentData → StudentData)
    (l : list StudentData) : list StudentData :=
  match l with
  | [] => []
  | st :: rest =>
      if bool_decide (id st = sid) then f st :: rest
      else st :: updateStudent sid f rest
  end.

Definition withStudents (f : list StudentData → list StudentData)
    (s : SessionData) : SessionData :=
  {| students := f (students s);
     problemPages := problemPages s;
     finalPdfs := finalPdfs s |}.

Definition setStatus (st : ProcessingStatus) (x : StudentData) : StudentData :=
  {| id := id x; name := name x; originalPdfPath := originalPdfPath x;
     pageLabels := pageLabels x;
     processingStatus := st; processingError := processingError x |}.

Definition setError (msg : string) (x : StudentData) : StudentData :=
  {| id := id x; name := name x; originalPdfPath := originalPdfPath x;
     pageLabels := pageLabels x;
     processingStatus := error; processingError := Some msg |}.

Definition setNameAndLabels (n : string) (pl : PageLabels) (x : StudentData)
    : StudentData :=
  {| id := id x; name := n; originalPdfPath := originalPdfPath x;
     pageLabels := pl;
     processingStatus := processingStatus x;
     processingError := processingError x |}.

(** ** Problem collections *)

(** The pages filed under a problem number; a missing key reads as no pages. *)
Definition collection (m : gmap Z (list ProblemPage)) (p : Z) : list ProblemPage :=
  default [] (m !! p).

(** [if (!problemPages[p]) problemPages[p] = []; problemPages[p].push(pg)] *)
Definition pushPage (p : Z) (pg : ProblemPage) (m : gmap Z (list ProblemPage))
    : gmap Z (list ProblemPage) :=
  <[p := collection m p ++ [pg]]> m.

Definition withProblemPages
    (f : gmap Z (list ProblemPage) → gmap Z (list ProblemPage))
    (s : SessionData) : SessionData :=
  {| students := students s;
     problemPages := f (problemPages s);
     finalPdfs := finalPdfs s |}.

(** ** The background processor (server.ts, [processStudentInBackground]) *)

Definition readFile (fs : FileSystem) (path : string) : string + Buffer :=
  match fs !! path with
  | Some b => inr b
  | None => inl ("ENOENT: no such file or directory, open '" +:+ path +:+ "'")
  end.

Definition labelText (problemNumber : Z) (studentName : string) (studentId : Z)
    : string :=
  "Problem " +:+ pretty problemNumber +:+ " - " +:+ studentName
    +:+ " - Student nr: " +:+ pretty studentId.

(** The body of the inner loop for one problem number of one page: copy the
    page into a fresh document, draw the watermark, save, file. *)
Definition stampAndFile `{!StandardFonts} (originalPdfDoc : PDFDocument)
    (studentId : Z) (studentName : string) (pageNum problemNumber : Z) : M unit :=
  if 0 <? problemNumber then
    let problemPdf := create in
    let helveticaFont := embedFont Helvetica in
    let* copiedPage := lift (copyPages originalPdfDoc (pageNum - 1)) in
    let problemPdf := addPage problemPdf copiedPage in
    match getPages problemPdf !! 0%nat with
    | None => throw "Cannot read properties of undefined (reading 'getSize')"
    | Some problemPage =>
        let labelText := labelText problemNumber studentName studentId in
        let fontSize := 20 in
        exec lift (widthOfTextAtSize helveticaFont labelText fontSize) in
        let* problemPage := lift (drawText helveticaFont labelText problemPage) in
        let problemPdf := <[0%nat := problemPage]> problemPdf in
        let singlePagePdfBytes := save problemPdf in
        modify (withProblemPages (pushPage problemNumber
          {| studentId := studentId; studentName := studentName;
             pageNumber := pageNum; pdfData := singlePagePdfBytes |}))
    end
  else ret tt.

(** The body of the outer loop for one entry of the label assignment. *)
Definition processEntry `{!StandardFonts} (originalPdfDoc : PDFDocument)
    (studentId : Z) (studentName : string) (entry : Z * list Z) : M unit :=
  let pageNum := entry.1 in
  let problemNums := entry.2 in
  if (pageNum <=? Z.of_nat (length (getPages originalPdfDoc)))
     && (0 <? Z.of_nat (length problemNums)) then
    forEach problemNums (stampAndFile originalPdfDoc studentId studentName pageNum)
  else ret tt.

(** The [try] block. *)
Definition processBody `{!StandardFonts} (fs : FileSystem) (path : string)
    (studentId : Z) (studentName : string) (pageLabels : PageLabels) : M unit :=
  exec modify (withStudents (updateStudent studentId (setStatus processing))) in
  let* pdfBuffer := lift (readFile fs path) in
  let* originalPdfDoc := lift (load pdfBuffer) in
  exec forEach pageLabels (processEntry originalPdfDoc studentId studentName) in
  modify (withStudents (updateStudent studentId (setStatus completed))).

Definition processStudentInBackground `{!StandardFonts} (fs : FileSystem)
    (studentId : Z) (studentName : string) (pageLabels : PageLabels)
    (s : SessionData) : SessionData :=
  match findStudent studentId (students s) with
  | None => s
  | Some student =>
      match processBody fs (originalPdfPath student)
              studentId studentName pageLabels s with
      | (inr _, s') => s'
      | (inl msg, s') =>
          withStudents (updateStudent studentId (setError msg)) s'
      end
  end.

(** A background task that the label handler has started and that has not
    run yet: the arguments of the call, a snapshot taken at submit time. *)
Record Task : Type := mkTask {
  taskStudentId : Z;
  taskStudentName : string;
  taskPageLabels : PageLabels
}.

Definition runTask `{!StandardFonts} (fs : FileSystem) (t : Task) (s : SessionData)
    : SessionData :=
  processStudentInBackground fs
    (taskStudentId t) (taskStudentName t) (taskPageLabels t) s.

(** ** The request handlers (server.ts) *)

Inductive Response (A : Type) : Type :=
| Ok (body : A)
| HttpError (status : Z) (message : string).
Arguments Ok {A} body.
Arguments HttpError {A} status message.

(** *** [POST /api/upload] *)

Record UploadedFile : Type := mkFile {
  originalname : string;
  path : string
}.

Record UploadOk : Type := mkUploadOk {
  totalStudents : nat;
  uploadMessage : string
}.

(** The loop over [req.files]: student [i] (from 0) gets id [i + 1]. *)
Definition newStudents (files : list UploadedFile) : list StudentData :=
  imap (λ i file,
    {| id := Z.of_nat i + 1; name := ""; originalPdfPath := path file;
       pageLabels := []; processingStatus := pending;
       processingError := None |}) files.

(** [req.files] is [None] when the request carried no multipart form at all
    ([undefined]), and [Some files] when the upload middleware parsed the
    form, with [files] the array it collected (empty when the form has no
    file part). *)
Definition upload (reqFiles : option (list UploadedFile)) (s : SessionData)
    : Response UploadOk * SessionData :=
  match reqFiles with
  | None => (HttpError 400 "No files uploaded", s)
  | Some files =>
      let students := newStudents files in
      (Ok {| totalStudents := length students;
             uploadMessage := "Successfully uploaded " +:+ pretty (length students)
                                +:+ " PDF files" |},
       {| students := students; problemPages := ∅; finalPdfs := ∅ |})
  end.

(** *** [POST /api/label] *)

Record LabelRequest : Type := mkLabelRequest {
  reqStudentId : Z;
  reqStudentName : string;
  reqPageLabels : PageLabels
}.

Record LabelOk : Type := mkLabelOk {
  labelMessage : string;
  labelProcessingStatus : ProcessingStatus
}.

(** The handler answers at once; the third component is the background task
    it has started, if any. The call of [processStudentInBackground] runs
    up to its first [await] before the handler returns: by then the task has
    found the student and set the status to processing. What is left of the
    task runs later; run from its start on the store the handler leaves, it
    finds the same student and writes the same status again. *)
Definition label (req : LabelRequest) (s : SessionData)
    : Response LabelOk * SessionData * option Task :=
  match findStudent (reqStudentId req) (students s) with
  | None => (HttpError 404 "Student not found", s, None)
  | Some _ =>
      let s :=
        withStudents
          (updateStudent (reqStudentId req)
             (setNameAndLabels (reqStudentName req) (reqPageLabels req))) s in
      (* processStudentInBackground(...), up to [await fs.readFile] *)
      let s :=
        withStudents
          (updateStudent (reqStudentId req) (setStatus processing)) s in
      (Ok {| labelMessage := "Student labeled successfully - processing in background";
             labelProcessingStatus := processing |},
       s,
       Some {| taskStudentId := reqStudentId req;
               taskStudentName := reqStudentName req;
               taskPageLabels := reqPageLabels req |})
  end.

(** *** [POST /api/finalize] *)

(** [Object.keys(o).map(Number)] for an object whose keys are array
    indices, the integers from 0 to 4294967294: ascending, whatever the
    order of the insertions. Keys beyond that range come after them, in the
    order of their insertion, which a finite map does not keep; a property
    that reads the order of the keys assumes [arrayIndexKeys]. *)
Definition Object_keys {A} (m : gmap Z A) : list Z :=
  merge_sort Z.le (elements (dom m)).


(** The loop that fills one final document: load each stamped page and copy
    its first page. *)
Fixpoint addAllPages (finalPdf : PDFDocument) (pages : list ProblemPage)
    : string + PDFDocument :=
  match pages with
  | [] => inr finalPdf
  | page :: rest =>
      match load (pdfData page) with
      | inl e => inl e
      | inr pagePdf =>
          match copyPages pagePdf 0 with
          | inl e => inl e
          | inr copiedPage => addAllPages (addPage finalPdf copiedPage) rest
          end
      end
  end.

Definition buildFinalPdf (pages : list ProblemPage) : string + Buffer :=
  match addAllPages create pages with
  | inl e => inl e
  | inr finalPdf => inr (save finalPdf)
  end.

Definition withFinalPdfs (f : gmap Z Buffer → gmap Z Buffer)
    (s : SessionData) : SessionData :=
  {| students := students s;
     problemPages := problemPages s;
     finalPdfs := f (finalPdfs s) |}.

(** The body of the loop over the problem numbers. *)
Definition finalizeProblem (problemNumber : Z) : M unit :=
  λ s,
    (let* finalPdfBytes :=
       lift (buildFinalPdf (collection (problemPages s) problemNumber)) in
     modify (withFinalPdfs <[problemNumber := finalPdfBytes]>)) s.

Definition finalizeBody : M (list Z) :=
  λ s,
    let problemNumbers := Object_keys (problemPages s) in
    (exec forEach problemNumbers finalizeProblem in ret problemNumbers) s.

Record FinalizeOk : Type := mkFinalizeOk {
  problems : list Z;
  finalizeMessage : string
}.

Definition finalize (s : SessionData) : Response FinalizeOk * SessionData :=
  match finalizeBody s with
  | (inr problemNumbers, s') =>
      (Ok {| problems := problemNumbers;
             finalizeMessage := "Created " +:+ pretty (length problemNumbers)
                                  +:+ " problem PDFs" |}, s')
  | (inl _, s') => (HttpError 500 "Failed to create final PDFs", s')
  end.

(** *** [GET /api/status]: [processedPagesCount] *)

Definition processedPagesCount (m : gmap Z (list ProblemPage)) : nat :=
  map_fold (λ _ pages sum, (sum + length pages)%nat) 0%nat m.

(** The pages of one student among all those filed, over every collection. *)
Definition studentPagesCount (sid : Z) (m : gmap Z (list ProblemPage)) : nat :=
  map_fold (λ _ pages sum,
    (sum + length (filter (λ pg, studentId pg = sid) pages))%nat) 0%nat m.

Module Status.

(** The body of the answer of [GET /api/status]; the memory figures of the
    process are left out. *)
Record Body : Type := mkBody {
  totalStudents : nat;
  labeledStudents : nat;
  processingStudents : nat;
  completedStudents : nat;
  errorStudents : nat;
  problems : list Z;
  isFinalized : bool;
  allProcessingComplete : bool;
  tempFilesCount : nat;
  processedPagesCount : nat
}.

End Status.

(** [students.filter(s => s.processingStatus === st).length] *)
Definition countStatus (st : ProcessingStatus) (l : list StudentData) : nat :=
  length (filter (λ student, processingStatus student = st) l).

(** [students.filter(s => s.name && Object.keys(s.pageLabels).length > 0).length] *)
Definition countLabeled (l : list StudentData) : nat :=
  length (filter (λ student, name student ≠ ""
                             ∧ (0 < length (pageLabels student))%nat) l).

Definition status (s : SessionData) : Status.Body :=
  let totalStudents := length (students s) in
  let labeledStudents := countLabeled (students s) in
  let processingStudents := countStatus processing (students s) in
  let completedStudents := countStatus completed (students s) in
  let errorStudents := countStatus error (students s) in
  let problems := Object_keys (problemPages s) in
  {| Status.totalStudents := totalStudents;
     Status.labeledStudents := labeledStudents;
     Status.processingStudents := processingStudents;
     Status.completedStudents := completedStudents;
     Status.errorStudents := errorStudents;
     Status.problems := problems;
     Status.isFinalized := bool_decide (0 < length (Object_keys (finalPdfs s)))%nat;
     Status.allProcessingComplete :=
       bool_decide (0 < labeledStudents)%nat
       && bool_decide (processingStudents = 0%nat)
       && bool_decide (errorStudents = 0%nat);
     Status.tempFilesCount := length (students s);
     Status.processedPagesCount := processedPagesCount (problemPages s) |}.

(** *** [GET /api/student/:id/status] *)

Record StudentStatus : Type := mkStudentStatus {
  ssStudentId : Z;
  ssStudentName : string;
  ssProcessingStatus : ProcessingStatus;
  ssProcessingError : option string;
  hasLabels : bool
}.

Definition studentStatus (studentId : Z) (s : SessionData)
    : Response StudentStatus :=
  match findStudent studentId (students s) with
  | None => HttpError 404 "Student not found"
  | Some student =>
      Ok {| ssStudentId := id student;
            ssStudentName := name student;
            ssProcessingStatus := processingStatus student;
            ssProcessingError := processingError student;
            hasLabels := bool_decide (0 < length (pageLabels student))%nat |}
  end.

(** *** [POST /api/reset] *)

(** The loop of [fs.unlink] over the roster; an unlink that fails is caught
    and only logged. *)
Definition unlinkAll (l : list StudentData) (fs : FileSystem) : FileSystem :=
  foldl (λ disk student, delete (originalPdfPath student) disk) fs l.

Definition reset (fs : FileSystem) (s : SessionData)
    : Response unit * FileSystem * SessionData :=
  (Ok tt, unlinkAll (students s) fs, emptySession).

(** *** [GET /api/student/:id] *)

(** The binary answer: the bytes of the file and the three headers
    [X-Student-Id], [X-Student-Name] and [X-Page-Labels]. *)
Record StudentFile : Type := mkStudentFile {
  xStudentId : Z;
  xStudentName : string;
  xPageLabels : PageLabels;
  fileBuffer : Buffer
}.

(** [res.setHeader(name, value)]: throws on a value the HTTP module
    refuses. *)
Definition setHeader `{!Node.Http} (value : string) : string + unit :=
  if Node.checkInvalidHeaderChar value
  then inl "Invalid character in header content"
  else inr tt.

(** The headers [X-Student-Id] and [X-Page-Labels] are written from
    integers, with digits, brackets, commas, colons and quotes. *)
Definition getStudent `{!Node.Http} (fs : FileSystem) (studentId : Z)
    (s : SessionData) : Response StudentFile :=
  match findStudent studentId (students s) with
  | None => HttpError 404 "Student not found"
  | Some student =>
      (* fs.access *)
      match fs !! originalPdfPath student with
      | None => HttpError 404 "PDF file not found on disk"
      | Some _ =>
          match setHeader (name student) with
          | inl _ => HttpError 500 "Failed to get student PDF"
          | inr _ =>
              match readFile fs (originalPdfPath student) with
              | inl _ => HttpError 500 "Failed to get student PDF"
              | inr fileBuffer =>
                  Ok {| xStudentId := id student;
                        xStudentName := name student;
                        xPageLabels := pageLabels student;
                        fileBuffer := fileBuffer |}
              end
          end
      end
  end.

(** *** [GET /api/download/:problemId] *)

Record Download : Type := mkDownload {
  filename : string;
  downloadData : Buffer
}.

Definition download (problemId : Z) (s : SessionData) : Response Download :=
  match finalPdfs s !! problemId with
  | None => HttpError 404 "Problem PDF not found"
  | Some pdfData =>
      Ok {| filename := "Problem_" +:+ pretty problemId +:+ ".pdf";
            downloadData := pdfData |}
  end.

(** ** The requests a session goes through

    The handlers that change the store, and the run of a background task.
    A task runs with the disk as it is at that time, on whatever store it
    then finds. *)
Inductive Step : Type :=
| StepUpload (files : list UploadedFile)
| StepLabel (req : LabelRequest)
| StepTask (fs : FileSystem) (task : Task)
| StepFinalize
| StepReset (fs : FileSystem).

Definition step `{!StandardFonts} (s : SessionData) (st : Step) : SessionData :=
  match st with
  | StepUpload files => (upload (Some files) s).2
  | StepLabel req => (label req s).1.2
  | StepTask fs task => runTask fs task s
  | StepFinalize => (finalize s).2
  | StepReset fs => (reset fs s).2
  end.

Definition steps `{!StandardFonts} (l : list Step) (s : SessionData)
    : SessionData :=
  foldl step s l.

(** A store a session can be in: reached from the empty store. *)
Definition reachable `{!StandardFonts} (s : SessionData) : Prop :=
  ∃ l, s = steps l emptySession.

(** [st] is not a finalize request. *)
Definition notFinalize (st : Step) : Prop :=
  match st with
  | StepFinalize => False
  | _ => True
  end.

(** ** The label handlers of the sorting page (SortingPage.tsx)

    The state [pageLabels] is an object from page number to the array of
    problem numbers; each handler is the function it passes to
    [setPageLabels]. The prefetch of the next student that the two add
    handlers may start does not touch the labels and is left out. *)
Module SortingPage.

Definition sentinel : Z := -1.

(** [newLabels[pageNumber] || []] *)
Definition currentProblemsOf (m : gmap Z (list Z)) (pageNumber : Z) : list Z :=
  default [] (m !! pageNumber).

(** [xs.includes(x)] *)
Definition includes (x : Z) (xs : list Z) : bool := bool_decide (x ∈ xs).

Definition handlePageLabel (pageNumber problemNumber : Z)
    (prev : gmap Z (list Z)) : gmap Z (list Z) :=
  let currentProblems := currentProblemsOf prev pageNumber in
  if bool_decide (problemNumber = -1) then <[pageNumber := [-1]]> prev
  else if 0 <? problemNumber then
    if negb (includes (-1) currentProblems)
       && negb (includes problemNumber currentProblems)
    then <[pageNumber := currentProblems ++ [problemNumber]]> prev
    else prev
  else prev.

Definition handleKeyboardPageLabel (pageNumber problemNumber : Z)
    (prev : gmap Z (list Z)) : gmap Z (list Z) :=
  let currentProblems := currentProblemsOf prev pageNumber in
  if bool_decide (problemNumber = -1) then <[pageNumber := [-1]]> prev
  else if 0 <? problemNumber then
    if negb (includes (-1) currentProblems)
    then <[pageNumber := currentProblems ++ [problemNumber]]> prev
    else prev
  else prev.

(** The tail shared by the three remove handlers: an emptied page loses
    its entry. *)
Definition store (pageNumber : Z) (updated : list Z) (m : gmap Z (list Z))
    : gmap Z (list Z) :=
  if bool_decide (length updated = 0%nat) then delete pageNumber m
  else <[pageNumber := updated]> m.

Definition handleRemovePageLabel (pageNumber problemNumber : Z)
    (prev : gmap Z (list Z)) : gmap Z (list Z) :=
  let currentProblems := currentProblemsOf prev pageNumber in
  let filteredProblems := filter (λ p, p ≠ problemNumber) currentProblems in
  store pageNumber filteredProblems prev.

(** [xs.lastIndexOf(x)], [None] for -1. *)
Fixpoint lastIndexOf (x : Z) (xs : list Z) : option nat :=
  match xs with
  | [] => None
  | y :: rest =>
      match lastIndexOf x rest with
      | Some i => Some (S i)
      | None => if bool_decide (y = x) then Some 0%nat else None
      end
  end.

Definition handleRemoveLastInstancePageLabel (pageNumber problemNumber : Z)
    (prev : gmap Z (list Z)) : gmap Z (list Z) :=
  let currentProblems := currentProblemsOf prev pageNumber in
  match lastIndexOf problemNumber currentProblems with
  | Some lastIndex => store pageNumber (delete lastIndex currentProblems) prev
  | None => prev
  end.

Definition handleRemoveLastLabel (pageNumber : Z)
    (prev : gmap Z (list Z)) : gmap Z (list Z) :=
  let currentProblems := currentProblemsOf prev pageNumber in
  if bool_decide (0 < length currentProblems)%nat
  then store pageNumber (removelast currentProblems) prev
  else prev.

(** The label events the page can raise. *)
Inductive LabelOp : Type :=
| Add (pageNumber problemNumber : Z)
| KeyboardAdd (pageNumber problemNumber : Z)
| Remove (pageNumber problemNumber : Z)
| RemoveLastInstance (pageNumber problemNumber : Z)
| RemoveLast (pageNumber : Z).

Definition applyOp (m : gmap Z (list Z)) (op : LabelOp) : gmap Z (list Z) :=
  match op with
  | Add pg p => handlePageLabel pg p m
  | KeyboardAdd pg p => handleKeyboardPageLabel pg p m
  | Remove pg p => handleRemovePageLabel pg p m
  | RemoveLastInstance pg p => handleRemoveLastInstancePageLabel pg p m
  | RemoveLast pg => handleRemoveLastLabel pg m
  end.

Definition applyOps (ops : list LabelOp) (m : gmap Z (list Z)) : gmap Z (list Z) :=
  foldl applyOp m ops.

Definition keyLe (a b : Z * list Z) : Prop := a.1 ≤ b.1.

#[global] Instance keyLe_dec : RelDecision keyLe.
Proof. intros a b. unfold keyLe. apply _. Defined.

(** The body of the submit request. The keys of [pageLabels] are the page
    numbers of the viewer, positive integers; [JSON.stringify] writes such
    keys in ascending order, and that is the order the server's
    [Object.entries] walks. *)
Definition Object_entries (m : gmap Z (list Z)) : PageLabels :=
  merge_sort keyLe (map_to_list m).

(** No page carries the sentinel together with a positive number. *)
Definition exclusive (m : gmap Z (list Z)) : Prop :=
  ∀ pageNumber l, m !! pageNumber = Some l →
    ¬ (sentinel ∈ l ∧ ∃ p, 0 < p ∧ p ∈ l).

End SortingPage.

Import SortingPage.

(** ** The buttons of the page labeler (PageLabeler.tsx)

    [onPageLabel] is [handlePageLabel] and [onRemovePageLabel] is
    [handleRemovePageLabel]; each handler is given as the change it makes
    to the labels of the sorting page. *)
Module PageLabeler.

Definition quickProblems : list Z :=
  [1; 2; 3; 4; 5; 6; 7; 8; 9; 10; 11; 12; 13; 14; 15].

Definition NOT_A_PROBLEM : Z := -1.

Definition handleQuickLabel (currentPage problemNumber : Z)
    (labels : gmap Z (list Z)) : gmap Z (list Z) :=
  let currentProblems := currentProblemsOf labels currentPage in
  if includes problemNumber currentProblems
  then handleRemovePageLabel currentPage problemNumber labels
  else handlePageLabel currentPage problemNumber labels.

Definition handleNotAProblem (currentPage : Z) (labels : gmap Z (list Z))
    : gmap Z (list Z) :=
  let currentProblems := currentProblemsOf labels currentPage in
  if includes NOT_A_PROBLEM currentProblems
  then handleRemovePageLabel currentPage NOT_A_PROBLEM labels
  else handlePageLabel currentPage NOT_A_PROBLEM labels.

(** [customProblem] is the text field after [parseInt]: [None] for [NaN]. *)
Definition handleCustomLabel (currentPage : Z) (customProblem : option Z)
    (labels : gmap Z (list Z)) : gmap Z (list Z) :=
  match customProblem with
  | Some problemNumber =>
      if 0 <? problemNumber then handlePageLabel currentPage problemNumber labels
      else labels
  | None => labels
  end.

(** [currentProblems.forEach(p => onRemovePageLabel(currentPage, p))] *)
Definition handleClearLabel (currentPage : Z) (labels : gmap Z (list Z))
    : gmap Z (list Z) :=
  foldl (λ acc problemNum, handleRemovePageLabel currentPage problemNum acc)
    labels (currentProblemsOf labels currentPage).

End PageLabeler.

(** ** The keyboard shortcuts of the sorting page (SortingPage.tsx,
    [handleKeyDown])

    The handler of a key press is the one of the latest render: it reads
    the labels and the two-digit state as the previous events left them.
    [Date.now()] is an input of the press, and the 500 ms timer that clears
    the two-digit state is an event of its own. *)
Module Keys.

Inductive Digit : Type :=
| D0 | D1 | D2 | D3 | D4 | D5 | D6 | D7 | D8 | D9.

(** [parseInt(key)] *)
Definition digitValue (d : Digit) : Z :=
  match d with
  | D0 => 0 | D1 => 1 | D2 => 2 | D3 => 3 | D4 => 4
  | D5 => 5 | D6 => 6 | D7 => 7 | D8 => 8 | D9 => 9
  end.

Inductive Key : Type :=
| KeyDigit (d : Digit)
| ArrowLeft
| ArrowRight
| Backspace
| Space
| OtherKey.

(** The state of the two-digit input; [lastAddedTimeout] tells whether a
    timer is pending. *)
Record KeyState : Type := mkKeyState {
  lastAddedProblem : option Z;
  lastAddedTimestamp : Z;
  lastAddedTimeout : bool;
  lastAddedWasNew : bool
}.

Record View : Type := mkView {
  currentPage : Z;
  totalPages : Z;
  labels : gmap Z (list Z);
  keyState : KeyState
}.

(** The state after the four setters have cleared it. *)
Definition cleared : KeyState :=
  {| lastAddedProblem := None; lastAddedTimestamp := 0;
     lastAddedTimeout := false; lastAddedWasNew := false |}.

(** [lastAddedProblem !== null && lastAddedTimestamp > 0
     && (now - lastAddedTimestamp) > 500] *)
Definition expired (now : Z) (k : KeyState) : bool :=
  match lastAddedProblem k with
  | Some _ => (0 <? lastAddedTimestamp k) && (500 <? now - lastAddedTimestamp k)
  | None => false
  end.

(** [lastAddedProblem !== null && lastAddedTimestamp > 0
     && (now - lastAddedTimestamp) <= 500], with the problem. *)
Definition withinWindow (now : Z) (k : KeyState) : option Z :=
  match lastAddedProblem k with
  | Some last =>
      if (0 <? lastAddedTimestamp k) && (now - lastAddedTimestamp k <=? 500)
      then Some last else None
  | None => None
  end.

(** [parseInt(lastAddedProblem.toString() + key)]; [lastAddedProblem] is
    only ever set to the value of a key from 1 to 9. *)
Definition combine (last : Z) (d : Digit) : Z := 10 * last + digitValue d.

(** The two-digit branch: the combined number replaces the first digit when
    that digit was added by its press. *)
Definition addCombination (page last : Z) (d : Digit) (wasNew : bool)
    (pageLabels : gmap Z (list Z)) : gmap Z (list Z) :=
  let currentProblems := currentProblemsOf pageLabels page in
  let combinedNumber := combine last d in
  if negb (includes combinedNumber currentProblems) then
    let afterRemove :=
      if wasNew then handleRemoveLastInstancePageLabel page last pageLabels
      else pageLabels in
    handleKeyboardPageLabel page combinedNumber afterRemove
  else pageLabels.

Definition handleDigit (d : Digit) (now : Z) (v : View) : View :=
  let currentProblems := currentProblemsOf (labels v) (currentPage v) in
  let afterExpiry :=
    if expired now (keyState v) then cleared else keyState v in
  match withinWindow now (keyState v) with
  | Some last =>
      {| currentPage := currentPage v; totalPages := totalPages v;
         labels := addCombination (currentPage v) last d
                     (lastAddedWasNew (keyState v)) (labels v);
         keyState := cleared |}
  | None =>
      match d with
      | D0 =>
          {| currentPage := currentPage v; totalPages := totalPages v;
             labels := labels v; keyState := afterExpiry |}
      | _ =>
          let newProblemNumber := digitValue d in
          let alreadyExists := includes newProblemNumber currentProblems in
          {| currentPage := currentPage v; totalPages := totalPages v;
             labels := if alreadyExists then labels v
                       else handleKeyboardPageLabel (currentPage v)
                              newProblemNumber (labels v);
             keyState := {| lastAddedProblem := Some newProblemNumber;
                            lastAddedTimestamp := now;
                            lastAddedTimeout := true;
                            lastAddedWasNew := negb alreadyExists |} |}
      end
  end.

(** [setCurrentPage(page)], and the effect that clears the two-digit state
    when the page has changed. *)
Definition goToPage (page : Z) (v : View) : View :=
  if bool_decide (page = currentPage v) then v
  else {| currentPage := page; totalPages := totalPages v;
          labels := labels v; keyState := cleared |}.

Definition withLabels (f : gmap Z (list Z) → gmap Z (list Z)) (v : View) : View :=
  {| currentPage := currentPage v; totalPages := totalPages v;
     labels := f (labels v); keyState := keyState v |}.

Definition handleKeyDown (key : Key) (now : Z) (v : View) : View :=
  match key with
  | KeyDigit d => handleDigit d now v
  | ArrowLeft =>
      if 1 <? currentPage v then goToPage (currentPage v - 1) v else v
  | ArrowRight =>
      if currentPage v <? totalPages v then goToPage (currentPage v + 1) v else v
  | Backspace => withLabels (handleRemoveLastLabel (currentPage v)) v
  | Space => withLabels (handleKeyboardPageLabel (currentPage v) (-1)) v
  | OtherKey => v
  end.

(** The timer set by a first digit fires. *)
Definition timerFired (v : View) : View :=
  if lastAddedTimeout (keyState v)
  then {| currentPage := currentPage v; totalPages := totalPages v;
          labels := labels v; keyState := cleared |}
  else v.

(** What the operator can do on the sorting page. *)
Inductive Event : Type :=
| Press (key : Key) (now : Z)
| TimerFired
| ClickQuick (problemNumber : Z)
| ClickNotAProblem
| ApplyCustom (customProblem : option Z)
| ClickClear
| DeleteChip (problemNumber : Z)
| GoToPage (page : Z).

Definition handleEvent (v : View) (e : Event) : View :=
  match e with
  | Press key now => handleKeyDown key now v
  | TimerFired => timerFired v
  | ClickQuick p => withLabels (PageLabeler.handleQuickLabel (currentPage v) p) v
  | ClickNotAProblem => withLabels (PageLabeler.handleNotAProblem (currentPage v)) v
  | ApplyCustom c => withLabels (PageLabeler.handleCustomLabel (currentPage v) c) v
  | ClickClear => withLabels (PageLabeler.handleClearLabel (currentPage v)) v
  | DeleteChip p => withLabels (handleRemovePageLabel (currentPage v) p) v
  | GoToPage page => goToPage page v
  end.

Definition handleEvents (es : list Event) (v : View) : View :=
  foldl handleEvent v es.

(** The view of a student that has just been loaded with no labels. *)
Definition initialView (totalPages : Z) : View :=
  {| currentPage := 1; totalPages := totalPages; labels := ∅;
     keyState := cleared |}.

End Keys.

(** ** The application shell (App.tsx)

    The state of the shell while the students are walked through. The
    second component of [handleStudentComplete] tells whether it calls
    [finalizeAndShowDownload]. *)
Module App.

Inductive AppPhase : Type :=
| PhaseUpload
| PhaseSorting
| PhaseDownload.

(** The data of a student as the client holds it; [pdfData] is the base64
    text of the file. *)
Record StudentData : Type := mkStudentData {
  studentId : Z;
  studentName : string;
  pdfData : string;
  pageLabels : gmap Z (list Z)
}.

Record AppState : Type := mkAppState {
  phase : AppPhase;
  totalStudents : Z;
  currentStudentId : Z;
  problems : list Z;
  processingStudents : Z;
  prefetchedStudentData : option StudentData
}.

Definition handleUploadComplete (totalStudents : Z) : AppState :=
  {| phase := PhaseSorting;
     totalStudents := totalStudents;
     currentStudentId := 1;
     problems := [];
     processingStudents := 0;
     prefetchedStudentData := None |}.

Definition handleStudentComplete (appState : AppState) : AppState * bool :=
  if currentStudentId appState <? totalStudents appState then
    let nextStudentId := currentStudentId appState + 1 in
    let newPrefetchedData :=
      match prefetchedStudentData appState with
      | Some data =>
          if bool_decide (studentId data = nextStudentId) then Some data else None
      | None => None
      end in
    ({| phase := phase appState;
        totalStudents := totalStudents appState;
        currentStudentId := nextStudentId;
        problems := problems appState;
        processingStudents := processingStudents appState;
        prefetchedStudentData := newPrefetchedData |}, false)
  else (appState, true).

Definition handlePrefetchComplete (studentId : Z) (data : StudentData)
    (appState : AppState) : AppState :=
  {| phase := phase appState;
     totalStudents := totalStudents appState;
     currentStudentId := currentStudentId appState;
     problems := problems appState;
     processingStudents := processingStudents appState;
     prefetchedStudentData := Some data |}.

(** The update made by a poll of the status during the sorting phase. *)
Definition pollStatus (count : Z) (appState : AppState) : AppState :=
  {| phase := phase appState;
     totalStudents := totalStudents appState;
     currentStudentId := currentStudentId appState;
     problems := problems appState;
     processingStudents := count;
     prefetchedStudentData := prefetchedStudentData appState |}.

(** What reaches the shell during the sorting phase. *)
Inductive Event : Type :=
| StudentComplete
| PrefetchComplete (studentId : Z) (data : StudentData)
| PollStatus (count : Z).

(** The state, and whether [finalizeAndShowDownload] has been called. *)
Definition handleEvent (st : AppState * bool) (e : Event) : AppState * bool :=
  match e with
  | StudentComplete =>
      let (appState, finalizing) := handleStudentComplete st.1 in
      (appState, st.2 || finalizing)
  | PrefetchComplete studentId data =>
      (handlePrefetchComplete studentId data st.1, st.2)
  | PollStatus count => (pollStatus count st.1, st.2)
  end.

Definition handleEvents (es : list Event) (st : AppState * bool)
    : AppState * bool :=
  foldl handleEvent st es.

(** The number of students completed among the events. *)
Definition isStudentComplete (e : Event) : bool :=
  match e with
  | StudentComplete => true
  | _ => false
  end.

Definition completions (es : list Event) : nat :=
  length (filter (λ e, isStudentComplete e = true) es).

End App.

(** * What the properties are stated with *)

(** ** Sums over the problem collections *)

(** The sum over all collections of a weight of their pages;
    [processedPagesCount] is the sum of the lengths. *)
Definition weight (w : list ProblemPage → nat) (m : gmap Z (list ProblemPage))
    : nat :=
  map_fold (λ _ pages sum, (sum + w pages)%nat) 0%nat m.

(** Filing a list of pages, each under its problem number, in order. *)
Definition fileAll (filed : list (Z * ProblemPage))
    (m : gmap Z (list ProblemPage)) : gmap Z (list ProblemPage) :=
  foldl (λ acc x, pushPage x.1 x.2 acc) m filed.

(** The number of (page, positive problem number) pairs of a label
    assignment, with multiplicity. *)
Definition positivePairs (pageLabels : PageLabels) : nat :=
  sum_list_with (λ entry, length (filter (λ p, 0 < p) entry.2)) pageLabels.

(** A label assignment is valid for a document when every labelled page
    number is one of its pages. *)
Definition validLabels (doc : PDFDocument) (pageLabels : PageLabels) : Prop :=
  Forall (λ entry, 1 ≤ entry.1 ≤ Z.of_nat (length doc)) pageLabels.

(** What the status endpoints report for a student. *)
Definition statusOf (sid : Z) (s : SessionData) : option ProcessingStatus :=
  processingStatus <$> findStudent sid (students s).

Definition errorOf (sid : Z) (s : SessionData) : option string :=
  findStudent sid (students s) ≫= processingError.

(** ** What a task files when no copy and no stamp throws *)

(** A text that the font of the stamp can measure and draw. *)
Definition stampable `{!StandardFonts} (text : string) : Prop :=
  measures Helvetica text = true ∧ draws Helvetica text = true.

(** The font can stamp every watermark that the label assignment asks for
    on the document: the one of each positive problem number of each entry
    whose page number is not above the page count. *)
Definition canStamp `{!StandardFonts} (doc : PDFDocument) (sid : Z)
    (sname : string) (pageLabels : PageLabels) : Prop :=
  Forall (λ entry : Z * list Z,
            entry.1 ≤ Z.of_nat (length doc) →
            Forall (λ p, 0 < p → stampable (labelText p sname sid)) entry.2)
    pageLabels.

(** The stamped page filed for problem [p] from page [pageNum], whose
    copy is [pg]. *)
Definition stamped (sid : Z) (sname : string) (pageNum p : Z) (pg : PDFPage)
    : ProblemPage :=
  {| studentId := sid; studentName := sname; pageNumber := pageNum;
     pdfData := PdfBytes [textDrawn (labelText p sname sid) pg] |}.

(** What one entry files, with the problem number it is filed under. *)
Definition filedByEntry (doc : PDFDocument) (sid : Z) (sname : string)
    (entry : Z * list Z) : list (Z * ProblemPage) :=
  if bool_decide (entry.1 ≤ Z.of_nat (length doc)) then
    match copyPages doc (entry.1 - 1) with
    | inr pg =>
        (λ p, (p, stamped sid sname entry.1 p pg)) <$> filter (λ p, 0 < p) entry.2
    | inl _ => []
    end
  else [].

Definition filedBy (doc : PDFDocument) (sid : Z) (sname : string)
    (pageLabels : PageLabels) : list (Z * ProblemPage) :=
  pageLabels ≫= filedByEntry doc sid sname.

(** An entry on which no copy can throw: its page number is at least 1,
    or it carries no positive problem number. *)
Definition entryOk (entry : Z * list Z) : Prop :=
  1 ≤ entry.1 ∨ Forall (λ p, p ≤ 0) entry.2.

(** A page filed under [p] for student [sid] from page [pageNum]. *)
Definition sameCombination (sid pageNum p : Z) (x : Z * ProblemPage) : Prop :=
  x.1 = p ∧ studentId x.2 = sid ∧ pageNumber x.2 = pageNum.

#[global] Instance sameCombination_dec sid pageNum p x :
  Decision (sameCombination sid pageNum p x).
Proof. unfold sameCombination. apply _. Defined.

(** ** The finalizer's loop *)

(** The page of a stamped document that the finalizer copies. *)
Definition firstPage (page : ProblemPage) : option PDFPage :=
  match pdfData page with
  | PdfBytes (pg :: _) => Some pg
  | _ => None
  end.

(** Every filed page is a document with at least one page. *)
Definition wellFormedPages (pp : gmap Z (list ProblemPage)) : Prop :=
  ∀ p pages, pp !! p = Some pages →
    Forall (λ page, is_Some (firstPage page)) pages.

(** The loop over the problem numbers, as a function of the collections
    and of the final documents it starts from. *)
Fixpoint finalRun (pp : gmap Z (list ProblemPage)) (keys : list Z)
    (fp : gmap Z Buffer) : (string + unit) * gmap Z Buffer :=
  match keys with
  | [] => (inr tt, fp)
  | p :: rest =>
      match buildFinalPdf (collection pp p) with
      | inl e => (inl e, fp)
      | inr bytes => finalRun pp rest (<[p := bytes]> fp)
      end
  end.

(** A submission followed by its background task, run to its end. *)
Definition submit `{!StandardFonts} (fs : FileSystem) (req : LabelRequest)
    (s : SessionData) : SessionData :=
  match label req s with
  | (_, s', Some task) => runTask fs task s'
  | (_, s', None) => s'
  end.

(** ** Label lists *)

(** A page's list that does not mix the sentinel with a positive number. *)
Definition unmixed (l : list Z) : Prop :=
  ¬ (sentinel ∈ l ∧ ∃ p, 0 < p ∧ p ∈ l).

(** ** A session used for the concrete checks

    Student 1 has a three-page document, student 2 a file that is not a
    PDF. The font and the header test of the concrete checks are the
    platform's on the texts used there: the printable ASCII characters are
    encoded and accepted, and a text with a character beyond U+00FF, such
    as the Ł of Łukasz, is neither. *)
Definition printable (text : string) : bool :=
  forallb (λ c, (32 <=? Ascii.nat_of_ascii c)%nat
                && (Ascii.nat_of_ascii c <=? 126)%nat)
    (String.list_ascii_of_string text).

#[global] Instance exampleFonts : StandardFonts | 100 :=
  {| Helvetica := {| measures := printable; draws := printable |} |}.

#[global] Instance exampleHttp : Node.Http | 100 :=
  {| Node.checkInvalidHeaderChar := λ value, negb (printable value) |}.

Definition exampleDoc : PDFDocument :=
  [mkPage "page one" []; mkPage "page two" []; mkPage "page three" []].

Definition exampleFiles : FileSystem :=
  {[ "/tmp/exam-grader-uploads/pdfs-1.pdf" := PdfBytes exampleDoc;
     "/tmp/exam-grader-uploads/pdfs-2.pdf" := RawBytes "not a pdf" ]}.

Definition exampleStudent1 : StudentData :=
  {| id := 1; name := ""; originalPdfPath := "/tmp/exam-grader-uploads/pdfs-1.pdf";
     pageLabels := []; processingStatus := pending; processingError := None |}.

Definition exampleStudent2 : StudentData :=
  {| id := 2; name := ""; originalPdfPath := "/tmp/exam-grader-uploads/pdfs-2.pdf";
     pageLabels := []; processingStatus := pending; processingError := None |}.

Definition exampleSession : SessionData :=
  {| students := [exampleStudent1; exampleStudent2];
     problemPages := ∅; finalPdfs := ∅ |}.

(** The scenario of two students with three pages each. *)
Definition scenarioFiles : FileSystem :=
  {[ "/tmp/exam-grader-uploads/pdfs-1.pdf" :=
       PdfBytes [mkPage "S1 p1" []; mkPage "S1 p2" []; mkPage "S1 p3" []];
     "/tmp/exam-grader-uploads/pdfs-2.pdf" :=
       PdfBytes [mkPage "S2 p1" []; mkPage "S2 p2" []; mkPage "S2 p3" []] ]}.

Definition scenarioEnd : SessionData :=
  let s1 := submit scenarioFiles
              {| reqStudentId := 1; reqStudentName := "Ann";
                 reqPageLabels := [(1, [1]); (2, [2]); (3, [-1])] |}
              exampleSession in
  let s2 := submit scenarioFiles
              {| reqStudentId := 2; reqStudentName := "Bob";
                 reqPageLabels := [(1, [1; 2]); (2, [2]); (3, [1])] |} s1 in
  (finalize s2).2.

(** ** What a session keeps *)

(** [m'] has every collection of [m], with the same pages first. *)
Definition extends (m m' : gmap Z (list ProblemPage)) : Prop :=
  ∀ p, collection m p `prefix_of` collection m' p
       ∧ (is_Some (m !! p) → is_Some (m' !! p)).

(** Every collection is filed under a positive number, holds at least one
    page, and each of its pages is a document with a page to copy. *)
Definition goodPages (m : gmap Z (list ProblemPage)) : Prop :=
  ∀ p pages, m !! p = Some pages →
    0 < p ∧ pages ≠ [] ∧ Forall (λ page, is_Some (firstPage page)) pages.

(** What the loops keep of the store [s] they started from. *)
Definition framed (s s0 : SessionData) : Prop :=
  students s0 = students s
  ∧ finalPdfs s0 = finalPdfs s
  ∧ extends (problemPages s) (problemPages s0)
  ∧ (goodPages (problemPages s) → goodPages (problemPages s0)).

(** Student ids are the upload order, from 1. *)
Definition idsInOrder (l : list StudentData) : Prop :=
  ∀ i student, l !! i = Some student → id student = Z.of_nat i + 1.

Definition sessionInvariant (s : SessionData) : Prop :=
  idsInOrder (students s)
  ∧ goodPages (problemPages s)
  ∧ ∀ p, is_Some (finalPdfs s !! p) → is_Some (problemPages s !! p).

(** The number of students still [pending]. *)
Definition pendingStudents (s : SessionData) : nat :=
  countStatus pending (students s).

(** ** Label assignments *)

(** No page with an empty list, a number twice, or the sentinel beside a
    positive number. *)
Definition tidy (m : gmap Z (list Z)) : Prop :=
  ∀ page l, m !! page = Some l → l ≠ [] ∧ NoDup l ∧ unmixed l.

(** No page is stored with an empty list. *)
Definition noEmptyEntry (m : gmap Z (list Z)) : Prop :=
  ∀ page l, m !! page = Some l → l ≠ [].

(** * Properties *)

(** ** Sums over the problem collections *)
Section Weights.
Variable w : list ProblemPage → nat.

Lemma weight_comm (j1 j2 : Z) (z1 z2 : list ProblemPage) (y : nat) :
  (y + w z2 + w z1 = y + w z1 + w z2)%nat.
Proof. lia. Qed.

Lemma weight_insert_fresh (m : gmap Z (list ProblemPage)) p pages :
  m !! p = None → weight w (<[p := pages]> m) = (weight w m + w pages)%nat.
Proof.
  intros Hp. unfold weight.
  rewrite map_fold_insert_L; [done | | done].
  intros; apply weight_comm; done.
Qed.

Lemma weight_delete (m : gmap Z (list ProblemPage)) p pages :
  m !! p = Some pages → weight w m = (weight w (delete p m) + w pages)%nat.
Proof.
  intros Hp. unfold weight.
  rewrite (map_fold_delete_L _ _ p pages m); [done | | done].
  intros; apply weight_comm; done.
Qed.

(** Filing one page adds what that page weighs. *)
Lemma weight_pushPage (m : gmap Z (list ProblemPage)) p pg (d : nat) :
  w [] = 0%nat →
  (∀ pages, w (pages ++ [pg]) = w pages + d)%nat →
  weight w (pushPage p pg m) = (weight w m + d)%nat.
Proof.
  intros H0 Hd. unfold pushPage, collection.
  destruct (m !! p) as [old|] eqn:Hp; simpl.
  - rewrite <- (insert_delete_eq m p (old ++ [pg])).
    rewrite weight_insert_fresh by apply lookup_delete_eq.
    rewrite (weight_delete m p old Hp), Hd. lia.
  - rewrite weight_insert_fresh by done.
    specialize (Hd []). simpl in Hd. lia.
Qed.
End Weights.

Section Collections.
Implicit Types (m : gmap Z (list ProblemPage)) (p q : Z) (pg : ProblemPage).
Implicit Types (filed : list (Z * ProblemPage)).

Lemma collection_pushPage p q pg m :
  collection (pushPage p pg m) q
  = if decide (p = q) then collection m q ++ [pg] else collection m q.
Proof.
  unfold pushPage. case_decide as Hpq.
  - subst q. unfold collection at 1. by rewrite lookup_insert_eq.
  - unfold collection at 1. by rewrite lookup_insert_ne.
Qed.

Lemma fileAll_app filed1 filed2 m :
  fileAll (filed1 ++ filed2) m = fileAll filed2 (fileAll filed1 m).
Proof. apply foldl_app. Qed.

(** Every collection keeps what it had and gains, at its end and in order,
    the pages filed under its number. *)
Lemma collection_fileAll filed m q :
  collection (fileAll filed m) q
  = collection m q ++ (filter (λ x, x.1 = q) filed).*2.
Proof.
  revert m. induction filed as [|[p pg] filed IH]; intros m; simpl.
  - by rewrite app_nil_r.
  - unfold fileAll in *. simpl. rewrite IH, collection_pushPage.
    rewrite filter_cons. simpl. case_decide; simpl.
    + by rewrite <- app_assoc.
    + done.
Qed.

Lemma processedPagesCount_weight m : processedPagesCount m = weight length m.
Proof. done. Qed.

Lemma studentPagesCount_weight sid m :
  studentPagesCount sid m
  = weight (λ pages, length (filter (λ pg, studentId pg = sid) pages)) m.
Proof. done. Qed.

Lemma processedPagesCount_fileAll filed m :
  processedPagesCount (fileAll filed m)
  = (processedPagesCount m + length filed)%nat.
Proof.
  revert m. induction filed as [|[p pg] filed IH]; intros m; simpl.
  - lia.
  - unfold fileAll in *. simpl. rewrite IH. simpl.
    rewrite (processedPagesCount_weight (pushPage p pg m)).
    rewrite (processedPagesCount_weight m).
    rewrite (weight_pushPage length m p pg 1); [lia | done |].
    intros pages. rewrite length_app. simpl. lia.
Qed.

Lemma studentPagesCount_fileAll sid filed m :
  studentPagesCount sid (fileAll filed m)
  = (studentPagesCount sid m
     + length (filter (λ x, studentId x.2 = sid) filed))%nat.
Proof.
  revert m. induction filed as [|[p pg] filed IH]; intros m; simpl.
  - lia.
  - unfold fileAll in *. simpl. rewrite IH. simpl.
    rewrite (studentPagesCount_weight sid (pushPage p pg m)).
    rewrite (studentPagesCount_weight sid m).
    rewrite filter_cons. simpl.
    rewrite (weight_pushPage _ m p pg
               (if decide (studentId pg = sid) then 1 else 0)%nat).
    + case_decide; simpl; lia.
    + done.
    + intros pages. rewrite filter_app, length_app, filter_cons, filter_nil.
      case_decide; simpl; lia.
Qed.
End Collections.

(** ** Running a computation *)

Lemma bind_run {A B} (m : M A) (k : A → M B) (s : SessionData) :
  bind m k s = match m s with
               | (inr a, s') => k a s'
               | (inl e, s') => (inl e, s')
               end.
Proof. done. Qed.

Lemma bind_ret {A B} (a : A) (k : A → M B) (s : SessionData) :
  bind (ret a) k s = k a s.
Proof. done. Qed.

Lemma bind_throw {A B} (e : string) (k : A → M B) (s : SessionData) :
  bind (throw e) k s = (inl e, s).
Proof. done. Qed.

Lemma bind_modify {B} (f : SessionData → SessionData) (k : unit → M B)
    (s : SessionData) :
  bind (modify f) k s = k tt (f s).
Proof. done. Qed.

(** ** Students *)
Section Students.
Implicit Types (l : list StudentData) (f : StudentData → StudentData).

Lemma findStudent_updateStudent sid f l :
  (∀ x, id (f x) = id x) →
  findStudent sid (updateStudent sid f l) = f <$> findStudent sid l.
Proof.
  intros Hid. unfold findStudent.
  induction l as [|st l IH]; simpl; [done|].
  destruct (bool_decide (id st = sid)) eqn:Hst; simpl.
  - rewrite Hid, Hst. done.
  - rewrite Hst. done.
Qed.

Lemma findStudent_id sid l st : findStudent sid l = Some st → id st = sid.
Proof.
  unfold findStudent. intros H. apply find_some in H as [_ H].
  by apply bool_decide_eq_true in H.
Qed.

Lemma updateStudent_unknown sid f l :
  findStudent sid l = None → updateStudent sid f l = l.
Proof.
  unfold findStudent. induction l as [|st l IH]; simpl; [done|].
  destruct (bool_decide (id st = sid)); [done|].
  intros H. by rewrite IH.
Qed.
End Students.

(** ** The loops of the background processor, run to their end *)

Section Processor.
Context {fonts : StandardFonts}.
Variables (doc : PDFDocument) (sid : Z) (sname : string).

Lemma copyPages_in_range (pageNum : Z) :
  1 ≤ pageNum ≤ Z.of_nat (length doc) →
  ∃ pg, copyPages doc (pageNum - 1) = inr pg.
Proof.
  intros [Hlo Hhi]. unfold copyPages, getPages.
  destruct (Z.ltb_spec (pageNum - 1) 0) as [?|_]; [lia|].
  destruct (_ !! Z.to_nat (pageNum - 1)) as [pg|] eqn:Hpg; [eauto|].
  apply lookup_ge_None in Hpg. lia.
Qed.

Lemma stampAndFile_positive pageNum pg p s :
  0 < p →
  copyPages doc (pageNum - 1) = inr pg →
  stampable (labelText p sname sid) →
  stampAndFile doc sid sname pageNum p s
  = (inr tt, withProblemPages (pushPage p (stamped sid sname pageNum p pg)) s).
Proof.
  intros Hp Hcopy [Hmeasures Hdraws]. unfold stampAndFile.
  destruct (Z.ltb_spec 0 p); [|lia].
  rewrite bind_run, Hcopy. simpl.
  unfold widthOfTextAtSize, drawText, embedFont.
  rewrite Hmeasures. simpl lift. rewrite bind_ret.
  rewrite Hdraws. simpl lift. rewrite bind_ret. done.
Qed.

(** A text that the font cannot measure or cannot draw: the stamp throws
    and nothing is filed. *)
Lemma stampAndFile_unstampable pageNum p s :
  0 < p →
  ¬ stampable (labelText p sname sid) →
  ∃ msg, stampAndFile doc sid sname pageNum p s = (inl msg, s).
Proof.
  intros Hp Hno. unfold stampAndFile.
  destruct (Z.ltb_spec 0 p); [|lia].
  rewrite bind_run.
  destruct (copyPages doc (pageNum - 1)) as [msg|pg]; simpl; [eauto|].
  unfold widthOfTextAtSize, drawText, embedFont.
  destruct (measures Helvetica (labelText p sname sid)) eqn:Hmeasures;
    simpl lift.
  - rewrite bind_ret.
    destruct (draws Helvetica (labelText p sname sid)) eqn:Hdraws;
      simpl lift.
    + by destruct Hno.
    + rewrite bind_throw. eauto.
  - rewrite bind_throw. eauto.
Qed.

Lemma stampAndFile_nonpositive pageNum p s :
  p ≤ 0 → stampAndFile doc sid sname pageNum p s = (inr tt, s).
Proof.
  intros Hp. unfold stampAndFile. by destruct (Z.ltb_spec 0 p); [lia|].
Qed.

(** One round of the inner loop throws and leaves the store as it is, or
    does nothing, or files the stamped copy of the page. *)
Lemma stampAndFile_cases pageNum p s :
  (∃ msg, 0 < p ∧ stampAndFile doc sid sname pageNum p s = (inl msg, s))
  ∨ (p ≤ 0 ∧ stampAndFile doc sid sname pageNum p s = (inr tt, s))
  ∨ (∃ pg, 0 < p
           ∧ copyPages doc (pageNum - 1) = inr pg
           ∧ stampable (labelText p sname sid)
           ∧ stampAndFile doc sid sname pageNum p s
             = (inr tt,
                withProblemPages
                  (pushPage p (stamped sid sname pageNum p pg)) s)).
Proof.
  destruct (decide (0 < p)) as [Hp|Hp].
  - destruct (copyPages doc (pageNum - 1)) as [msg|pg] eqn:Hcopy.
    + left. exists msg. split; [done|]. unfold stampAndFile.
      destruct (Z.ltb_spec 0 p); [|lia]. by rewrite bind_run, Hcopy.
    + destruct (decide (measures Helvetica (labelText p sname sid) = true
                        ∧ draws Helvetica (labelText p sname sid) = true))
        as [Hstamp|Hstamp].
      * right. right. exists pg. repeat split; try done; try apply Hstamp.
        by apply stampAndFile_positive.
      * left. destruct (stampAndFile_unstampable pageNum p s Hp Hstamp)
          as [msg Hmsg]. eauto.
  - right. left. split; [lia|]. apply stampAndFile_nonpositive. lia.
Qed.

Lemma forEach_stamp pageNum pg nums s :
  copyPages doc (pageNum - 1) = inr pg →
  Forall (λ p, 0 < p → stampable (labelText p sname sid)) nums →
  forEach nums (stampAndFile doc sid sname pageNum) s
  = (inr tt,
     {| students := students s;
        problemPages :=
          fileAll ((λ p, (p, stamped sid sname pageNum p pg)) <$> filter (λ p, 0 < p) nums)
            (problemPages s);
        finalPdfs := finalPdfs s |}).
Proof.
  intros Hcopy Hstamp. revert s.
  induction Hstamp as [|p nums Hp0 _ IH]; intros s; simpl.
  - by destruct s.
  - rewrite bind_run, filter_cons.
    destruct (decide (0 < p)) as [Hp|Hp].
    + rewrite (stampAndFile_positive pageNum pg) by auto.
      rewrite IH. done.
    + rewrite stampAndFile_nonpositive by lia. apply IH.
Qed.

Lemma forEach_stamp_nonpositive pageNum nums s :
  Forall (λ p, p ≤ 0) nums →
  forEach nums (stampAndFile doc sid sname pageNum) s = (inr tt, s).
Proof.
  induction 1 as [|p nums Hp _ IH]; simpl; [done|].
  rewrite bind_run, stampAndFile_nonpositive by done. apply IH.
Qed.

Lemma filter_positive_nil nums :
  Forall (λ p, p ≤ 0) nums → filter (λ p, 0 < p) nums = [].
Proof.
  induction 1 as [|p nums Hp _ IH]; [done|].
  rewrite filter_cons, decide_False by lia. done.
Qed.

Lemma processEntry_ok entry s :
  entryOk entry →
  (entry.1 ≤ Z.of_nat (length doc) →
   Forall (λ p, 0 < p → stampable (labelText p sname sid)) entry.2) →
  processEntry doc sid sname entry s
  = (inr tt,
     {| students := students s;
        problemPages := fileAll (filedByEntry doc sid sname entry) (problemPages s);
        finalPdfs := finalPdfs s |}).
Proof.
  intros Hok Hstamp. unfold processEntry, filedByEntry, getPages.
  destruct entry as [pageNum nums]. unfold entryOk in Hok. simpl in *.
  destruct (Z.leb_spec pageNum (Z.of_nat (length doc))) as [Hle|Hgt]; simpl.
  - rewrite bool_decide_eq_true_2 by done.
    destruct Hok as [Hlo|Hnon].
    + destruct (copyPages_in_range pageNum) as [pg Hpg]; [lia|].
      rewrite Hpg.
      destruct nums as [|p nums]; [by destruct s|].
      simpl length. destruct (Z.ltb_spec 0 (Z.of_nat (S (length nums)))); [|lia].
      by apply forEach_stamp; [|apply Hstamp].
    + rewrite (filter_positive_nil _ Hnon). simpl.
      assert (fileAll
                match copyPages doc (pageNum - 1) with
                | inl _ | _ => []
                end (problemPages s) = problemPages s) as ->.
      { by destruct (copyPages doc (pageNum - 1)). }
      destruct (0 <? Z.of_nat (length nums)).
      * rewrite forEach_stamp_nonpositive by done. by destruct s.
      * by destruct s.
  - rewrite bool_decide_eq_false_2 by lia. by destruct s.
Qed.

Lemma forEach_entries pageLabels s :
  Forall entryOk pageLabels →
  canStamp doc sid sname pageLabels →
  forEach pageLabels (processEntry doc sid sname) s
  = (inr tt,
     {| students := students s;
        problemPages := fileAll (filedBy doc sid sname pageLabels) (problemPages s);
        finalPdfs := finalPdfs s |}).
Proof.
  intros Hok Hstamp. revert s.
  induction Hok as [|entry pageLabels Hentry _ IH]; intros s; simpl.
  - by destruct s.
  - apply Forall_cons in Hstamp as [Hentry' Hstamp].
    rewrite bind_run, processEntry_ok by done.
    rewrite IH by done. simpl. unfold filedBy. simpl.
    by rewrite fileAll_app.
Qed.
End Processor.

Section FiledPages.
Variables (doc : PDFDocument) (sid : Z) (sname : string).

Lemma filedByEntry_valid entry :
  1 ≤ entry.1 ≤ Z.of_nat (length doc) →
  ∃ pg, doc !! Z.to_nat (entry.1 - 1) = Some pg
        ∧ filedByEntry doc sid sname entry
          = (λ p, (p, stamped sid sname entry.1 p pg)) <$> filter (λ p, 0 < p) entry.2.
Proof.
  intros Hrange. unfold filedByEntry.
  rewrite bool_decide_eq_true_2 by lia.
  unfold copyPages, getPages.
  destruct (Z.ltb_spec (entry.1 - 1) 0); [lia|].
  destruct (_ !! Z.to_nat (entry.1 - 1)) as [pg|] eqn:Hpg; [eauto|].
  apply lookup_ge_None in Hpg. lia.
Qed.

Lemma filedByEntry_above entry :
  Z.of_nat (length doc) < entry.1 → filedByEntry doc sid sname entry = [].
Proof. intros H. unfold filedByEntry. by rewrite bool_decide_eq_false_2 by lia. Qed.

Lemma filedByEntry_nonpositive entry :
  Forall (λ p, p ≤ 0) entry.2 → filedByEntry doc sid sname entry = [].
Proof.
  intros H. unfold filedByEntry. rewrite (filter_positive_nil _ H).
  case_bool_decide; [|done]. by destruct (copyPages doc (entry.1 - 1)).
Qed.

(** Each filed page carries the student, the page and a positive problem
    number taken from the entry. *)
Lemma filedByEntry_elem entry x :
  x ∈ filedByEntry doc sid sname entry →
  studentId x.2 = sid ∧ pageNumber x.2 = entry.1 ∧ 0 < x.1 ∧ x.1 ∈ entry.2.
Proof.
  unfold filedByEntry. case_bool_decide; [|by intros ?%elem_of_nil].
  destruct (copyPages doc (entry.1 - 1)) as [|pg]; [by intros ?%elem_of_nil|].
  intros (p & -> & Hp)%list_elem_of_fmap.
  apply list_elem_of_filter in Hp as [Hpos Hin]. done.
Qed.

Lemma filedBy_studentId pageLabels :
  Forall (λ x, studentId x.2 = sid) (filedBy doc sid sname pageLabels).
Proof.
  apply Forall_forall. intros x Hx. unfold filedBy in Hx.
  apply list_elem_of_bind in Hx as (entry & Hx & _).
  by apply filedByEntry_elem in Hx as [? _].
Qed.

Lemma filedBy_positive pageLabels :
  Forall (λ x, 0 < x.1) (filedBy doc sid sname pageLabels).
Proof.
  apply Forall_forall. intros x Hx. unfold filedBy in Hx.
  apply list_elem_of_bind in Hx as (entry & Hx & _).
  by apply filedByEntry_elem in Hx as (_ & _ & ? & _).
Qed.

Lemma length_filedBy_valid pageLabels :
  validLabels doc pageLabels →
  length (filedBy doc sid sname pageLabels) = positivePairs pageLabels.
Proof.
  unfold filedBy, positivePairs.
  induction 1 as [|entry pageLabels Hentry _ IH]; csimpl; [done|].
  rewrite length_app, IH.
  destruct (filedByEntry_valid entry Hentry) as (pg & _ & ->).
  by rewrite length_fmap.
Qed.

Lemma filedBy_nothing pageLabels :
  Forall (λ entry, Z.of_nat (length doc) < entry.1
                   ∨ Forall (λ p, p ≤ 0) entry.2) pageLabels →
  filedBy doc sid sname pageLabels = [].
Proof.
  unfold filedBy.
  induction 1 as [|entry pageLabels Hentry _ IH]; csimpl; [done|].
  rewrite IH, app_nil_r.
  destruct Hentry; auto using filedByEntry_above, filedByEntry_nonpositive.
Qed.

(** Entries above the page count file nothing: dropping them changes
    nothing. *)
Lemma filedBy_in_range pageLabels :
  filedBy doc sid sname
    (filter (λ entry, entry.1 ≤ Z.of_nat (length doc)) pageLabels)
  = filedBy doc sid sname pageLabels.
Proof.
  unfold filedBy. induction pageLabels as [|entry pageLabels IH]; [done|].
  rewrite filter_cons. case_decide; csimpl.
  - by rewrite IH.
  - rewrite IH, filedByEntry_above by lia. done.
Qed.
End FiledPages.

Lemma filter_Forall_id {A} (P : A → Prop) `{!∀ x, Decision (P x)} (l : list A) :
  Forall P l → filter P l = l.
Proof.
  induction 1 as [|x l Hx _ IH]; [done|].
  by rewrite filter_cons, decide_True, IH.
Qed.

Lemma filter_Forall_nil {A} (P : A → Prop) `{!∀ x, Decision (P x)} (l : list A) :
  Forall (λ x, ¬ P x) l → filter P l = [].
Proof.
  induction 1 as [|x l Hx _ IH]; [done|].
  by rewrite filter_cons, decide_False, IH.
Qed.

(** ** The background processor, run to its end *)
Section Background.
Context {fonts : StandardFonts}.
Variable fs : FileSystem.
Implicit Types (s : SessionData) (st : StudentData) (doc : PDFDocument).

Lemma processStudentInBackground_unknown sid sname pageLabels s :
  findStudent sid (students s) = None →
  processStudentInBackground fs sid sname pageLabels s = s.
Proof. intros H. unfold processStudentInBackground. by rewrite H. Qed.

(** With a document that loads, no copy that throws and a font that can
    stamp the watermarks, the task files its pages in order and marks the
    student completed. *)
Lemma processStudentInBackground_ok sid sname pageLabels s st doc :
  findStudent sid (students s) = Some st →
  fs !! originalPdfPath st = Some (PdfBytes doc) →
  Forall entryOk pageLabels →
  canStamp doc sid sname pageLabels →
  processStudentInBackground fs sid sname pageLabels s
  = {| students :=
         updateStudent sid (setStatus completed)
           (updateStudent sid (setStatus processing) (students s));
       problemPages := fileAll (filedBy doc sid sname pageLabels) (problemPages s);
       finalPdfs := finalPdfs s |}.
Proof.
  intros Hst Hfile Hok Hstamp. unfold processStudentInBackground, processBody.
  rewrite Hst, bind_modify. unfold readFile. rewrite Hfile. simpl lift.
  rewrite bind_ret. simpl lift.
  rewrite bind_ret, bind_run, forEach_entries by done. done.
Qed.

(** A file that is missing or does not parse: the task stops before the
    loop, the error is recorded, nothing is filed. *)
Lemma processStudentInBackground_unloadable sid sname pageLabels s st :
  findStudent sid (students s) = Some st →
  (∀ doc, fs !! originalPdfPath st ≠ Some (PdfBytes doc)) →
  statusOf sid (processStudentInBackground fs sid sname pageLabels s) = Some error
  ∧ problemPages (processStudentInBackground fs sid sname pageLabels s)
    = problemPages s.
Proof.
  intros Hst Hfile. unfold processStudentInBackground, processBody.
  rewrite Hst, bind_modify. unfold readFile, statusOf.
  destruct (fs !! originalPdfPath st) as [[doc|raw]|]; simpl lift.
  - by destruct (Hfile doc).
  - rewrite bind_ret. simpl lift. rewrite bind_throw. simpl.
    rewrite !findStudent_updateStudent by done. by rewrite Hst.
  - rewrite bind_throw. simpl.
    rewrite !findStudent_updateStudent by done. by rewrite Hst.
Qed.

Lemma statusOf_completed sid sname pageLabels s st doc :
  findStudent sid (students s) = Some st →
  fs !! originalPdfPath st = Some (PdfBytes doc) →
  Forall entryOk pageLabels →
  canStamp doc sid sname pageLabels →
  statusOf sid (processStudentInBackground fs sid sname pageLabels s)
  = Some completed
  ∧ errorOf sid (processStudentInBackground fs sid sname pageLabels s)
    = processingError st.
Proof.
  intros Hst Hfile Hok Hstamp.
  rewrite (processStudentInBackground_ok _ _ _ _ st doc) by done.
  unfold statusOf, errorOf. simpl.
  rewrite !findStudent_updateStudent by done. by rewrite Hst.
Qed.

Lemma validLabels_entryOk doc pageLabels :
  validLabels doc pageLabels → Forall entryOk pageLabels.
Proof.
  intros Hvalid. eapply Forall_impl; [exact Hvalid|].
  intros entry [? _]. by left.
Qed.
End Background.

Example exampleSession_is_an_upload :
  (upload (Some [mkFile "a.pdf" "/tmp/exam-grader-uploads/pdfs-1.pdf";
                 mkFile "b.pdf" "/tmp/exam-grader-uploads/pdfs-2.pdf"])
     emptySession).2 = exampleSession.
Proof. reflexivity. Qed.

(** Two students, three pages each; student 1 labels 1, 2 and 'not a
    problem', student 2 labels {1, 2}, 2 and 1. Both tasks complete, and the
    collections of problems 1 and 2 hold three pages each, in filing order. *)
Example scenario_two_students :
  Object_keys (problemPages scenarioEnd) = [1; 2]
  ∧ (λ pg, (studentId pg, pageNumber pg)) <$> collection (problemPages scenarioEnd) 1
    = [(1, 1); (2, 1); (2, 3)]
  ∧ (λ pg, (studentId pg, pageNumber pg)) <$> collection (problemPages scenarioEnd) 2
    = [(1, 2); (2, 1); (2, 2)]
  ∧ statusOf 1 scenarioEnd = Some completed
  ∧ statusOf 2 scenarioEnd = Some completed
  ∧ finalPdfs scenarioEnd !! 1
    = Some (PdfBytes [mkPage "S1 p1" ["Problem 1 - Ann - Student nr: 1"];
                      mkPage "S2 p1" ["Problem 1 - Bob - Student nr: 2"];
                      mkPage "S2 p3" ["Problem 1 - Bob - Student nr: 2"]]).
Proof. repeat split; reflexivity. Qed.

(** ** The number of stamped pages *)

(** C1, as the claim states it, fails: a valid assignment with one positive
    pair, for a student whose document loads, under a name the font cannot
    encode. The first stamp throws, the task ends in error and no page is
    filed, one short of the number of positive pairs. *)
Lemma valid_assignment_unencodable_name_counterexample :
  let pageLabels := [(1, [2])] in
  let s' := processStudentInBackground exampleFiles 1 "Łukasz" pageLabels
              exampleSession in
  findStudent 1 (students exampleSession) = Some exampleStudent1
  ∧ exampleFiles !! originalPdfPath exampleStudent1 = Some (PdfBytes exampleDoc)
  ∧ validLabels exampleDoc pageLabels
  ∧ measures Helvetica (labelText 2 "Łukasz" 1) = false
  ∧ positivePairs pageLabels = 1%nat
  ∧ studentPagesCount 1 (problemPages s') = 0%nat
  ∧ studentPagesCount 1 (problemPages s')
    ≠ (studentPagesCount 1 (problemPages exampleSession)
       + positivePairs pageLabels)%nat
  ∧ statusOf 1 s' = Some error.
Proof.
  repeat split; try reflexivity.
  - unfold validLabels. repeat constructor; simpl; lia.
  - vm_compute. discriminate.
Qed.

(** C1, amended: for a student of the roster whose document loads, whose
    label assignment is valid for it (every labelled page number is one of the
    document's pages) and whose watermarks the font can encode, the
    background processor adds to the problem collections, for that student
    and in total, exactly as many stamped pages as the assignment has
    (page, positive problem number) pairs, with multiplicity; nothing is
    filed under a number that is not positive, so the sentinel -1
    contributes no page. *)
Theorem stamped_pages_equal_positive_pairs {fonts : StandardFonts}
    (fs : FileSystem) (s : SessionData) (sid : Z) (sname : string)
    (pageLabels : PageLabels) (st : StudentData) (doc : PDFDocument) :
  findStudent sid (students s) = Some st →
  fs !! originalPdfPath st = Some (PdfBytes doc) →
  validLabels doc pageLabels →
  canStamp doc sid sname pageLabels →
  let s' := processStudentInBackground fs sid sname pageLabels s in
  studentPagesCount sid (problemPages s')
    = (studentPagesCount sid (problemPages s) + positivePairs pageLabels)%nat
  ∧ processedPagesCount (problemPages s')
    = (processedPagesCount (problemPages s) + positivePairs pageLabels)%nat
  ∧ ∀ p, p ≤ 0 → collection (problemPages s') p = collection (problemPages s) p.
Proof.
  intros Hst Hfile Hvalid Hstamp s'. subst s'.
  rewrite (processStudentInBackground_ok fs sid sname pageLabels s st doc)
    by eauto using validLabels_entryOk.
  simpl. split; [|split].
  - rewrite studentPagesCount_fileAll.
    rewrite filter_Forall_id by apply filedBy_studentId.
    by rewrite length_filedBy_valid.
  - rewrite processedPagesCount_fileAll. by rewrite length_filedBy_valid.
  - intros p Hp. rewrite collection_fileAll.
    assert (filter (λ x : Z * ProblemPage, x.1 = p)
              (filedBy doc sid sname pageLabels) = []) as ->.
    { apply filter_Forall_nil.
      eapply Forall_impl; [apply filedBy_positive|]. simpl. intros x ?. lia. }
    by rewrite app_nil_r.
Qed.

Lemma stamped_pages_equal_positive_pairs_witness :
  let pageLabels := [(1, [1; 2]); (2, [-1]); (3, [2; 2])] in
  let s' := processStudentInBackground exampleFiles 1 "Ann" pageLabels exampleSession in
  (findStudent 1 (students exampleSession) = Some exampleStudent1
   ∧ exampleFiles !! originalPdfPath exampleStudent1 = Some (PdfBytes exampleDoc)
   ∧ validLabels exampleDoc pageLabels
   ∧ canStamp exampleDoc 1 "Ann" pageLabels)
  ∧ positivePairs pageLabels = 4%nat
  ∧ studentPagesCount 1 (problemPages s')
    = (studentPagesCount 1 (problemPages exampleSession) + positivePairs pageLabels)%nat
  ∧ processedPagesCount (problemPages s')
    = (processedPagesCount (problemPages exampleSession) + positivePairs pageLabels)%nat
  ∧ ∀ p, p ≤ 0 → collection (problemPages s') p
                 = collection (problemPages exampleSession) p.
Proof.
  intros pageLabels s'.
  assert (findStudent 1 (students exampleSession) = Some exampleStudent1)
    as Hknown by reflexivity.
  assert (exampleFiles !! originalPdfPath exampleStudent1
          = Some (PdfBytes exampleDoc)) as Hfile by reflexivity.
  assert (validLabels exampleDoc pageLabels) as Hvalid
    by (unfold validLabels, pageLabels; repeat constructor; simpl; lia).
  assert (canStamp exampleDoc 1 "Ann" pageLabels) as Hstamp
    by (unfold canStamp, pageLabels; repeat constructor).
  split; [done|]. split; [reflexivity|].
  exact (stamped_pages_equal_positive_pairs exampleFiles exampleSession 1 "Ann"
           pageLabels exampleStudent1 exampleDoc Hknown Hfile Hvalid Hstamp).
Defined.

(** ** Assignments that file nothing *)

Lemma processStudentInBackground_nothing {fonts : StandardFonts}
    (fs : FileSystem) (s : SessionData) (sid : Z) (sname : string)
    (pageLabels : PageLabels) (st : StudentData) (doc : PDFDocument) :
  findStudent sid (students s) = Some st →
  fs !! originalPdfPath st = Some (PdfBytes doc) →
  Forall (λ entry, Z.of_nat (length doc) < entry.1
                   ∨ Forall (λ p, p ≤ 0) entry.2) pageLabels →
  statusOf sid (processStudentInBackground fs sid sname pageLabels s) = Some completed
  ∧ problemPages (processStudentInBackground fs sid sname pageLabels s)
    = problemPages s.
Proof.
  intros Hst Hfile Hnothing.
  assert (Forall entryOk pageLabels) as Hok.
  { eapply Forall_impl; [exact Hnothing|].
    intros entry [?|?]; [left; lia | by right]. }
  assert (canStamp doc sid sname pageLabels) as Hstamp.
  { eapply Forall_impl; [exact Hnothing|].
    intros entry [?|Hnon] ?; [lia|].
    eapply Forall_impl; [exact Hnon|]. simpl. intros p ? ?. lia. }
  split.
  - by apply (statusOf_completed fs sid sname pageLabels s st doc).
  - rewrite (processStudentInBackground_ok fs sid sname pageLabels s st doc)
      by done.
    simpl. by rewrite filedBy_nothing.
Qed.

(** C9, as the claim states it, fails: student 2 is in the roster and the
    snapshot is empty, but the file of the student is not a PDF; the task
    ends in error, with the message recorded, and not completed. The same
    happens when the file is missing from the disk. *)
Lemma empty_snapshot_unloadable_file_counterexample :
  let s' := processStudentInBackground exampleFiles 2 "Bob" [] exampleSession in
  let s'' := processStudentInBackground ∅ 1 "Ann" [] exampleSession in
  findStudent 2 (students exampleSession) = Some exampleStudent2
  ∧ exampleFiles !! originalPdfPath exampleStudent2 = Some (RawBytes "not a pdf")
  ∧ statusOf 2 s' = Some error
  ∧ statusOf 2 s' ≠ Some completed
  ∧ errorOf 2 s' = Some "Failed to parse PDF document"
  ∧ findStudent 1 (students exampleSession) = Some exampleStudent1
  ∧ statusOf 1 s'' = Some error
  ∧ statusOf 1 s'' ≠ Some completed.
Proof. repeat split; try reflexivity; discriminate. Qed.

(** C9, amended: a background task for a student of the roster whose
    document loads, and whose snapshot is empty, or has only sentinel -1
    entries, or has only page numbers above the page count, ends with
    status completed and leaves every problem collection as it was:
    completed does not mean that a page was produced. No watermark is
    stamped, so this holds whatever the font can encode. *)
Theorem completed_without_any_page {fonts : StandardFonts}
    (fs : FileSystem) (s : SessionData) (sid : Z) (sname : string)
    (pageLabels : PageLabels) (st : StudentData) (doc : PDFDocument) :
  findStudent sid (students s) = Some st →
  fs !! originalPdfPath st = Some (PdfBytes doc) →
  pageLabels = []
  ∨ Forall (λ entry, Forall (λ p, p = -1) entry.2) pageLabels
  ∨ Forall (λ entry, Z.of_nat (length doc) < entry.1) pageLabels →
  let s' := processStudentInBackground fs sid sname pageLabels s in
  statusOf sid s' = Some completed
  ∧ problemPages s' = problemPages s
  ∧ ∀ p, collection (problemPages s') p = collection (problemPages s) p.
Proof.
  intros Hst Hfile Hcases s'. subst s'.
  assert (Forall (λ entry, Z.of_nat (length doc) < entry.1
                           ∨ Forall (λ p, p ≤ 0) entry.2) pageLabels) as Hnothing.
  { destruct Hcases as [-> | [Hsentinel | Habove]].
    - constructor.
    - eapply Forall_impl; [exact Hsentinel|]. intros entry Hentry. right.
      eapply Forall_impl; [exact Hentry|]. simpl. intros p ->. lia.
    - eapply Forall_impl; [exact Habove|]. intros entry Hentry. by left. }
  destruct (processStudentInBackground_nothing fs s sid sname pageLabels st doc)
    as [Hstatus Hpages]; [done..|].
  split; [done|]. split; [done|]. intros p. by rewrite Hpages.
Qed.

Lemma completed_without_any_page_witness :
  let pageLabels := [(1, [-1]); (2, [-1]); (3, [-1])] in
  let s' := processStudentInBackground exampleFiles 1 "Ann" pageLabels exampleSession in
  (findStudent 1 (students exampleSession) = Some exampleStudent1
   ∧ exampleFiles !! originalPdfPath exampleStudent1 = Some (PdfBytes exampleDoc)
   ∧ Forall (λ entry : Z * list Z, Forall (λ p, p = -1) entry.2) pageLabels)
  ∧ statusOf 1 s' = Some completed
  ∧ problemPages s' = problemPages exampleSession
  ∧ ∀ p, collection (problemPages s') p = collection (problemPages exampleSession) p.
Proof.
  intros pageLabels s'.
  assert (findStudent 1 (students exampleSession) = Some exampleStudent1)
    as Hknown by reflexivity.
  assert (exampleFiles !! originalPdfPath exampleStudent1
          = Some (PdfBytes exampleDoc)) as Hfile by reflexivity.
  assert (Forall (λ entry : Z * list Z, Forall (λ p, p = -1) entry.2) pageLabels)
    as Hsentinel by (unfold pageLabels; repeat constructor).
  split; [done|].
  exact (completed_without_any_page exampleFiles exampleSession 1 "Ann"
           pageLabels exampleStudent1 exampleDoc Hknown Hfile
           (or_intror (or_introl Hsentinel))).
Defined.

(** ** Page numbers above the page count *)

(** C2, as the claim states it, fails: the document of student 1 has three
    pages and the assignment labels page 4, yet the task ends completed and
    no error is recorded. *)
Lemma page_above_count_counterexample :
  let pageLabels := [(4, [3])] in
  let s' := processStudentInBackground exampleFiles 1 "Ann" pageLabels exampleSession in
  findStudent 1 (students exampleSession) = Some exampleStudent1
  ∧ exampleFiles !! originalPdfPath exampleStudent1 = Some (PdfBytes exampleDoc)
  ∧ Z.of_nat (length exampleDoc) < 4
  ∧ statusOf 1 s' = Some completed
  ∧ statusOf 1 s' ≠ Some error
  ∧ errorOf 1 s' = None.
Proof. repeat split; try reflexivity; discriminate. Qed.

(** C2, amended: when the label assignment of a student of the roster whose
    document loads has a page number above the page count, every labelled
    page number is at least 1, and the font can encode the watermarks of
    the pages that are within the count, the background processor skips
    the pages above the count: the collections end as they would without
    those entries, the status ends completed, and the task records no
    error message of its own: the error field of the student is left as it
    was before the task (empty when no earlier task of the student
    failed). *)
Theorem page_above_count_is_skipped {fonts : StandardFonts}
    (fs : FileSystem) (s : SessionData) (sid : Z) (sname : string)
    (pageLabels : PageLabels) (st : StudentData) (doc : PDFDocument) :
  findStudent sid (students s) = Some st →
  fs !! originalPdfPath st = Some (PdfBytes doc) →
  Forall (λ entry, 1 ≤ entry.1) pageLabels →
  canStamp doc sid sname pageLabels →
  (∃ entry, entry ∈ pageLabels ∧ Z.of_nat (length doc) < entry.1) →
  let s' := processStudentInBackground fs sid sname pageLabels s in
  let inRange := filter (λ entry, entry.1 ≤ Z.of_nat (length doc)) pageLabels in
  statusOf sid s' = Some completed
  ∧ errorOf sid s' = errorOf sid s
  ∧ (errorOf sid s = None → errorOf sid s' = None)
  ∧ s' = processStudentInBackground fs sid sname inRange s.
Proof.
  intros Hst Hfile Hlow Hstamp _ s' inRange. subst s' inRange.
  assert (Forall entryOk pageLabels) as Hok.
  { eapply Forall_impl; [exact Hlow|]. intros entry ?. by left. }
  assert (errorOf sid s = processingError st) as Herror.
  { unfold errorOf. by rewrite Hst. }
  destruct (statusOf_completed fs sid sname pageLabels s st doc) as [-> ->];
    [done..|].
  rewrite Herror.
  split; [done|]. split; [done|]. split; [done|].
  rewrite (processStudentInBackground_ok fs sid sname pageLabels s st doc)
    by done.
  rewrite (processStudentInBackground_ok fs sid sname _ s st doc);
    [|done|done| |].
  2:{ apply Forall_forall. intros entry [_ Hin]%list_elem_of_filter.
      by apply (proj1 (Forall_forall _ _) Hok). }
  2:{ apply Forall_forall. intros entry [_ Hin]%list_elem_of_filter.
      by apply (proj1 (Forall_forall _ _) Hstamp). }
  by rewrite filedBy_in_range.
Qed.

Lemma page_above_count_is_skipped_witness :
  let pageLabels := [(1, [1]); (4, [3])] in
  let s' := processStudentInBackground exampleFiles 1 "Ann" pageLabels exampleSession in
  (findStudent 1 (students exampleSession) = Some exampleStudent1
   ∧ exampleFiles !! originalPdfPath exampleStudent1 = Some (PdfBytes exampleDoc)
   ∧ Forall (λ entry : Z * list Z, 1 ≤ entry.1) pageLabels
   ∧ canStamp exampleDoc 1 "Ann" pageLabels
   ∧ ∃ entry, entry ∈ pageLabels ∧ Z.of_nat (length exampleDoc) < entry.1)
  ∧ statusOf 1 s' = Some completed
  ∧ errorOf 1 s' = errorOf 1 exampleSession
  ∧ (errorOf 1 exampleSession = None → errorOf 1 s' = None)
  ∧ s' = processStudentInBackground exampleFiles 1 "Ann" [(1, [1])] exampleSession.
Proof.
  intros pageLabels s'.
  assert (findStudent 1 (students exampleSession) = Some exampleStudent1)
    as Hknown by reflexivity.
  assert (exampleFiles !! originalPdfPath exampleStudent1
          = Some (PdfBytes exampleDoc)) as Hfile by reflexivity.
  assert (Forall (λ entry : Z * list Z, 1 ≤ entry.1) pageLabels) as Hlow
    by (unfold pageLabels; repeat constructor; simpl; lia).
  assert (∃ entry, entry ∈ pageLabels ∧ Z.of_nat (length exampleDoc) < entry.1)
    as Habove.
  { exists (4, [3]). split; [|simpl; lia].
    unfold pageLabels. apply list_elem_of_further, list_elem_of_here. }
  assert (canStamp exampleDoc 1 "Ann" pageLabels) as Hstamp.
  { unfold canStamp, pageLabels. repeat constructor. }
  split; [done|].
  exact (page_above_count_is_skipped exampleFiles exampleSession 1 "Ann"
           pageLabels exampleStudent1 exampleDoc Hknown Hfile Hlow Hstamp Habove).
Defined.

(** ** Uploads *)

(** C3: an upload whose array of files is empty is not rejected. The
    handler answers it with a success payload for zero students and
    replaces the session by an empty one; only a request without any array
    of files gets the error answer. *)
Theorem upload_of_no_file_succeeds (s : SessionData) :
  upload (Some []) s
  = (Ok {| totalStudents := 0;
           uploadMessage := "Successfully uploaded 0 PDF files" |},
     emptySession)
  ∧ upload None s = (HttpError 400 "No files uploaded", s).
Proof. split; reflexivity. Qed.

(** ** Submitting labels *)

(** C7: submitting labels for a student id that is not in the roster is
    answered with 404 'Student not found'; the session store is returned
    as it was (roster, names, label assignments, problem collections, final
    documents) and no background task is started. *)
Theorem label_unknown_student (req : LabelRequest) (s : SessionData) :
  findStudent (reqStudentId req) (students s) = None →
  label req s = (HttpError 404 "Student not found", s, None).
Proof. intros Hunknown. unfold label. by rewrite Hunknown. Qed.

Lemma label_unknown_student_witness :
  let req := {| reqStudentId := 7; reqStudentName := "Eve";
                reqPageLabels := [(1, [1])] |} in
  findStudent 7 (students exampleSession) = None
  ∧ label req exampleSession = (HttpError 404 "Student not found", exampleSession, None).
Proof.
  intros req. split; [reflexivity|].
  apply (label_unknown_student req exampleSession). reflexivity.
Defined.

Lemma label_known_student (req : LabelRequest) (s : SessionData) (st : StudentData) :
  findStudent (reqStudentId req) (students s) = Some st →
  label req s
  = (Ok {| labelMessage := "Student labeled successfully - processing in background";
           labelProcessingStatus := processing |},
     withStudents
       (updateStudent (reqStudentId req) (setStatus processing))
       (withStudents
          (updateStudent (reqStudentId req)
             (setNameAndLabels (reqStudentName req) (reqPageLabels req))) s),
     Some {| taskStudentId := reqStudentId req;
             taskStudentName := reqStudentName req;
             taskPageLabels := reqPageLabels req |}).
Proof. intros Hknown. unfold label. by rewrite Hknown. Qed.

(** ** The finalizer *)
Section Finalizer.
Implicit Types (s : SessionData) (pp : gmap Z (list ProblemPage)).
Implicit Types (fp : gmap Z Buffer) (keys : list Z).

Lemma addAllPages_ok (finalPdf : PDFDocument) (pages : list ProblemPage) :
  Forall (λ page, is_Some (firstPage page)) pages →
  addAllPages finalPdf pages = inr (finalPdf ++ omap firstPage pages).
Proof.
  intros Hwf. revert finalPdf.
  induction Hwf as [|page pages [pg Hpg] _ IH]; intros finalPdf; simpl.
  - by rewrite app_nil_r.
  - unfold firstPage in *.
    destruct (pdfData page) as [[|pg' rest]|]; simplify_eq. simpl.
    unfold addPage. rewrite IH. by rewrite <- app_assoc.
Qed.

Lemma buildFinalPdf_ok (pages : list ProblemPage) :
  Forall (λ page, is_Some (firstPage page)) pages →
  buildFinalPdf pages = inr (PdfBytes (omap firstPage pages)).
Proof. intros Hwf. unfold buildFinalPdf. by rewrite addAllPages_ok. Qed.

Lemma forEach_finalizeProblem keys s :
  forEach keys finalizeProblem s
  = ((finalRun (problemPages s) keys (finalPdfs s)).1,
     {| students := students s;
        problemPages := problemPages s;
        finalPdfs := (finalRun (problemPages s) keys (finalPdfs s)).2 |}).
Proof.
  revert s. induction keys as [|p keys IH]; intros s; simpl.
  - by destruct s.
  - rewrite bind_run. unfold finalizeProblem at 1.
    destruct (buildFinalPdf (collection (problemPages s) p)) as [e|bytes];
      simpl lift.
    + rewrite bind_throw. by destruct s.
    + rewrite bind_ret. unfold modify. rewrite IH. done.
Qed.

(** A final document that is already the one the loop would build stays. *)
Lemma finalRun_keeps pp keys fp p bytes :
  buildFinalPdf (collection pp p) = inr bytes →
  fp !! p = Some bytes →
  (finalRun pp keys fp).2 !! p = Some bytes.
Proof.
  intros Hbuild. revert fp. induction keys as [|q keys IH]; intros fp Hp; simpl.
  - done.
  - destruct (buildFinalPdf (collection pp q)) as [e|bytes'] eqn:Hq; [done|].
    apply IH. destruct (decide (q = p)) as [->|Hne].
    + rewrite lookup_insert_eq. congruence.
    + by rewrite lookup_insert_ne.
Qed.

(** Running the loop again from its own result changes nothing. *)
Lemma finalRun_idempotent pp keys fp :
  finalRun pp keys (finalRun pp keys fp).2 = finalRun pp keys fp.
Proof.
  revert fp. induction keys as [|p keys IH]; intros fp; simpl.
  - done.
  - destruct (buildFinalPdf (collection pp p)) as [e|bytes] eqn:Hp; simpl.
    + by rewrite ?Hp.
    + rewrite ?Hp. rewrite insert_id.
      * apply IH.
      * apply finalRun_keeps; [done|]. apply lookup_insert_eq.
Qed.

(** After a loop that did not throw, every key it walked holds the
    document built from the collection of that key. *)
Lemma finalRun_built pp keys fp p :
  (finalRun pp keys fp).1 = inr tt →
  p ∈ keys →
  ∃ bytes, buildFinalPdf (collection pp p) = inr bytes
           ∧ (finalRun pp keys fp).2 !! p = Some bytes.
Proof.
  revert fp. induction keys as [|q keys IH]; intros fp Hrun Hin; simpl in *.
  - by apply elem_of_nil in Hin.
  - destruct (buildFinalPdf (collection pp q)) as [e|bytes] eqn:Hq; [done|].
    apply elem_of_cons in Hin as [->|Hin].
    + exists bytes. split; [done|].
      apply finalRun_keeps; [done|]. apply lookup_insert_eq.
    + by apply IH.
Qed.

Lemma finalRun_untouched pp keys fp p :
  p ∉ keys → (finalRun pp keys fp).2 !! p = fp !! p.
Proof.
  revert fp. induction keys as [|q keys IH]; intros fp Hin; simpl.
  - done.
  - apply not_elem_of_cons in Hin as [Hne Hin].
    destruct (buildFinalPdf (collection pp q)); [done|].
    rewrite IH by done. by rewrite lookup_insert_ne.
Qed.

Lemma finalRun_wellFormed pp keys fp :
  wellFormedPages pp →
  Forall (λ p, is_Some (pp !! p)) keys →
  (finalRun pp keys fp).1 = inr tt.
Proof.
  intros Hwf Hkeys. revert fp.
  induction Hkeys as [|p keys [pages Hp] _ IH]; intros fp; simpl; [done|].
  unfold collection. rewrite Hp. simpl.
  rewrite buildFinalPdf_ok by eauto. apply IH.
Qed.

Lemma elem_of_Object_keys {A} (m : gmap Z A) p :
  p ∈ Object_keys m ↔ is_Some (m !! p).
Proof.
  unfold Object_keys. rewrite merge_sort_Permutation.
  by rewrite elem_of_elements, elem_of_dom.
Qed.

Lemma finalizeBody_run s :
  finalizeBody s
  = (match (finalRun (problemPages s) (Object_keys (problemPages s))
              (finalPdfs s)).1 with
     | inr _ => inr (Object_keys (problemPages s))
     | inl e => inl e
     end,
     {| students := students s;
        problemPages := problemPages s;
        finalPdfs := (finalRun (problemPages s) (Object_keys (problemPages s))
                        (finalPdfs s)).2 |}).
Proof.
  unfold finalizeBody. rewrite bind_run, forEach_finalizeProblem.
  by destruct (finalRun _ _ _) as [[e|[]] fp].
Qed.

Lemma finalize_problemPages s : problemPages (finalize s).2 = problemPages s.
Proof.
  unfold finalize. rewrite finalizeBody_run.
  by destruct (finalRun _ _ _) as [[e|[]] fp].
Qed.

Lemma finalize_idempotent s : finalize (finalize s).2 = finalize s.
Proof.
  unfold finalize. rewrite (finalizeBody_run s).
  destruct (finalRun (problemPages s) _ (finalPdfs s)) as [r fp] eqn:Hrun.
  assert (finalRun (problemPages s) (Object_keys (problemPages s)) fp = (r, fp))
    as Hagain.
  { pose proof (finalRun_idempotent (problemPages s)
                  (Object_keys (problemPages s)) (finalPdfs s)) as H.
    by rewrite Hrun in H. }
  destruct r as [e|[]]; simpl; rewrite finalizeBody_run; simpl;
    rewrite Hagain; done.
Qed.

(** With well-formed collections the finalizer answers with the problem
    numbers and every final document is the concatenation, in collection
    order, of the stamped pages of its collection, whatever the final
    documents were before. *)
Lemma finalize_rebuilds s :
  wellFormedPages (problemPages s) →
  (∃ msg, (finalize s).1 = Ok {| problems := Object_keys (problemPages s);
                                finalizeMessage := msg |})
  ∧ ∀ p pages, problemPages s !! p = Some pages →
      finalPdfs (finalize s).2 !! p = Some (PdfBytes (omap firstPage pages)).
Proof.
  intros Hwf.
  assert ((finalRun (problemPages s) (Object_keys (problemPages s))
             (finalPdfs s)).1 = inr tt) as Hrun.
  { apply finalRun_wellFormed; [done|].
    apply Forall_forall. intros p. by rewrite elem_of_Object_keys. }
  split.
  - unfold finalize. rewrite finalizeBody_run, Hrun. eauto.
  - intros p pages Hp.
    destruct (finalRun_built (problemPages s) (Object_keys (problemPages s))
                (finalPdfs s) p) as (bytes & Hbuild & Hfinal);
      [done | by apply elem_of_Object_keys |].
    unfold collection in Hbuild. rewrite Hp in Hbuild. simpl in Hbuild.
    rewrite buildFinalPdf_ok in Hbuild by eauto. simplify_eq.
    unfold finalize. rewrite finalizeBody_run, Hrun. done.
Qed.
End Finalizer.

(** ** Well-formed collections are all the processor produces *)
Section WellFormed.
Context {fonts : StandardFonts}.
Lemma forEach_invariant {A} (I : SessionData → Prop) (body : A → M unit)
    (xs : list A) (s : SessionData) :
  (∀ x s0, I s0 → I (body x s0).2) →
  I s → I (forEach xs body s).2.
Proof.
  intros Hbody. revert s. induction xs as [|x xs IH]; intros s Hs; simpl.
  - done.
  - rewrite bind_run. specialize (Hbody x s Hs).
    destruct (body x s) as [[e|[]] s0]; simpl in *; [done|].
    by apply IH.
Qed.

Lemma wellFormedPages_pushPage m p page :
  is_Some (firstPage page) → wellFormedPages m → wellFormedPages (pushPage p page m).
Proof.
  intros Hpage Hwf q pages. unfold pushPage.
  destruct (decide (p = q)) as [->|Hne].
  - rewrite lookup_insert_eq. intros [= <-].
    apply Forall_app. split; [|by repeat constructor].
    unfold collection. destruct (m !! q) as [old|] eqn:Hq; simpl; eauto.
  - rewrite lookup_insert_ne by done. apply Hwf.
Qed.

Lemma stampAndFile_wellFormed doc sid sname pageNum p s :
  wellFormedPages (problemPages s) →
  wellFormedPages (problemPages (stampAndFile doc sid sname pageNum p s).2).
Proof.
  intros Hwf.
  destruct (stampAndFile_cases doc sid sname pageNum p s)
    as [(msg & _ & ->) | [[_ ->] | (pg & _ & _ & _ & ->)]]; [done..|].
  simpl. by apply wellFormedPages_pushPage.
Qed.

Lemma processEntry_wellFormed doc sid sname entry s :
  wellFormedPages (problemPages s) →
  wellFormedPages (problemPages (processEntry doc sid sname entry s).2).
Proof.
  intros Hwf. unfold processEntry. destruct (_ && _); [|done].
  apply (forEach_invariant (λ s0, wellFormedPages (problemPages s0))); [|done].
  intros. by apply stampAndFile_wellFormed.
Qed.

Lemma processStudentInBackground_wellFormed fs sid sname pageLabels s :
  wellFormedPages (problemPages s) →
  wellFormedPages
    (problemPages (processStudentInBackground fs sid sname pageLabels s)).
Proof.
  intros Hwf. unfold processStudentInBackground.
  destruct (findStudent sid (students s)) as [st|]; [|done].
  assert (wellFormedPages
            (problemPages (processBody fs (originalPdfPath st) sid sname
                             pageLabels s).2)) as Hbody.
  { unfold processBody. rewrite bind_modify.
    destruct (readFile fs (originalPdfPath st)) as [e|buffer]; [done|].
    simpl lift. rewrite bind_ret.
    destruct (load buffer) as [e|doc]; [done|].
    simpl lift. rewrite bind_ret, bind_run.
    pose proof (forEach_invariant (λ s0, wellFormedPages (problemPages s0))
                  (processEntry doc sid sname) pageLabels
                  (withStudents (updateStudent sid (setStatus processing)) s))
      as Hloop.
    destruct (forEach pageLabels _ _) as [[e|[]] s0]; simpl in *.
    - apply Hloop; [|done]. intros. by apply processEntry_wellFormed.
    - apply Hloop; [|done]. intros. by apply processEntry_wellFormed. }
  by destruct (processBody _ _ _ _ _ _) as [[e|[]] s0].
Qed.

Lemma wellFormedPages_empty : wellFormedPages ∅.
Proof. intros p pages. by rewrite lookup_empty. Qed.
End WellFormed.

(** ** Finalizing twice *)

Lemma finalize_depends (s s' : SessionData) :
  problemPages s' = problemPages s →
  finalPdfs s' = finalPdfs s →
  (finalize s').1 = (finalize s).1
  ∧ finalPdfs (finalize s').2 = finalPdfs (finalize s).2.
Proof.
  intros Hpages Hfinal. unfold finalize. rewrite !finalizeBody_run.
  rewrite Hpages, Hfinal.
  by destruct (finalRun _ _ _) as [[e|[]] fp].
Qed.

(** C6: a second finalize, run on the same problem collections and on the
    final documents the first one left, gives the same answer and the same
    final documents; finalize does not change the collections. Each final
    document is built from the collection as it is when finalize runs,
    whatever final documents are stored: with the collections the processor
    produces, it is the concatenation of the copied stamped pages in
    collection order, so the pages a task files after a finalize are in the
    documents of the next finalize. *)
Theorem finalize_twice_same_documents {fonts : StandardFonts}
    (s s' : SessionData) :
  problemPages s' = problemPages s →
  finalPdfs s' = finalPdfs (finalize s).2 →
  ((finalize s').1 = (finalize s).1
   ∧ finalPdfs (finalize s').2 = finalPdfs (finalize s).2
   ∧ problemPages (finalize s').2 = problemPages s)
  ∧ (wellFormedPages (problemPages s) →
     (∀ p pages, problemPages s !! p = Some pages →
        finalPdfs (finalize s).2 !! p = Some (PdfBytes (omap firstPage pages)))
     ∧ ∀ fs sid sname pageLabels,
         let later := processStudentInBackground fs sid sname pageLabels
                        (finalize s).2 in
         ∀ p pages, problemPages later !! p = Some pages →
           finalPdfs (finalize later).2 !! p
           = Some (PdfBytes (omap firstPage pages))).
Proof.
  intros Hpages Hfinal. split.
  - destruct (finalize_depends (finalize s).2 s') as [Hanswer Hdocs].
    { by rewrite finalize_problemPages. }
    { done. }
    rewrite Hanswer, Hdocs, finalize_idempotent.
    by rewrite finalize_problemPages, Hpages.
  - intros Hwf. split.
    + by apply finalize_rebuilds.
    + intros fs sid sname pageLabels later. apply finalize_rebuilds.
      apply processStudentInBackground_wellFormed.
      by rewrite finalize_problemPages.
Qed.

Lemma finalize_twice_same_documents_witness :
  let s := processStudentInBackground exampleFiles 1 "Ann"
             [(1, [1; 2]); (3, [2])] exampleSession in
  let s' := (finalize s).2 in
  (problemPages s' = problemPages s ∧ finalPdfs s' = finalPdfs (finalize s).2)
  ∧ ((finalize s').1 = (finalize s).1
     ∧ finalPdfs (finalize s').2 = finalPdfs (finalize s).2
     ∧ problemPages (finalize s').2 = problemPages s)
  ∧ (wellFormedPages (problemPages s) →
     (∀ p pages, problemPages s !! p = Some pages →
        finalPdfs (finalize s).2 !! p = Some (PdfBytes (omap firstPage pages)))
     ∧ ∀ fs sid sname pageLabels,
         let later := processStudentInBackground fs sid sname pageLabels
                        (finalize s).2 in
         ∀ p pages, problemPages later !! p = Some pages →
           finalPdfs (finalize later).2 !! p
           = Some (PdfBytes (omap firstPage pages))).
Proof.
  intros s s'.
  assert (problemPages s' = problemPages s) as Hpages by reflexivity.
  assert (finalPdfs s' = finalPdfs (finalize s).2) as Hfinal by reflexivity.
  split; [by split|].
  exact (finalize_twice_same_documents s s' Hpages Hfinal).
Defined.

Example finalize_example :
  let s := processStudentInBackground exampleFiles 1 "Ann"
             [(1, [1; 2]); (3, [2])] exampleSession in
  (finalize s).1 = Ok {| problems := [1; 2];
                         finalizeMessage := "Created 2 problem PDFs" |}
  ∧ finalPdfs (finalize s).2 !! 2
    = Some (PdfBytes
              [mkPage "page one" ["Problem 2 - Ann - Student nr: 1"];
               mkPage "page three" ["Problem 2 - Ann - Student nr: 1"]]).
Proof. split; reflexivity. Qed.

(** ** Submitting again *)

Lemma submit_ok {fonts : StandardFonts}
    (fs : FileSystem) (s : SessionData) (sid : Z) (sname : string)
    (pageLabels : PageLabels) (st : StudentData) (doc : PDFDocument) :
  findStudent sid (students s) = Some st →
  fs !! originalPdfPath st = Some (PdfBytes doc) →
  Forall entryOk pageLabels →
  canStamp doc sid sname pageLabels →
  submit fs {| reqStudentId := sid; reqStudentName := sname;
               reqPageLabels := pageLabels |} s
  = {| students :=
         updateStudent sid (setStatus completed)
           (updateStudent sid (setStatus processing)
              (updateStudent sid (setStatus processing)
                 (updateStudent sid (setNameAndLabels sname pageLabels)
                    (students s))));
       problemPages := fileAll (filedBy doc sid sname pageLabels) (problemPages s);
       finalPdfs := finalPdfs s |}.
Proof.
  intros Hst Hfile Hok Hstamp. unfold submit.
  rewrite (label_known_student _ s st) by done. unfold runTask. simpl.
  rewrite (processStudentInBackground_ok fs sid sname pageLabels _
             (setStatus processing (setNameAndLabels sname pageLabels st)) doc);
    [done| |done|done|done].
  simpl. rewrite !findStudent_updateStudent by done. by rewrite Hst.
Qed.

Lemma submit_wellFormed {fonts : StandardFonts}
    (fs : FileSystem) (req : LabelRequest) (s : SessionData) :
  wellFormedPages (problemPages s) →
  wellFormedPages (problemPages (submit fs req s)).
Proof.
  intros Hwf. unfold submit, label.
  destruct (findStudent (reqStudentId req) (students s)); [|done].
  unfold runTask. by apply processStudentInBackground_wellFormed.
Qed.

(** C8, as the claim states it, fails: the first submission of student 1
    completes and files one page; the second submission, of the same labels
    under a name the font cannot encode, appends nothing and ends in
    error. *)
Lemma resubmission_unencodable_name_counterexample :
  let labels := [(1, [1])] in
  let first := submit exampleFiles {| reqStudentId := 1; reqStudentName := "Ann";
                                      reqPageLabels := labels |} exampleSession in
  let second := submit exampleFiles {| reqStudentId := 1;
                                       reqStudentName := "Łukasz";
                                       reqPageLabels := labels |} first in
  statusOf 1 first = Some completed
  ∧ validLabels exampleDoc labels
  ∧ positivePairs labels = 1%nat
  ∧ length (collection (problemPages first) 1) = 1%nat
  ∧ problemPages second = problemPages first
  ∧ length (collection (problemPages second) 1) ≠ 2%nat
  ∧ statusOf 1 second = Some error.
Proof.
  repeat split; try reflexivity.
  - unfold validLabels. repeat constructor; simpl; lia.
  - vm_compute. discriminate.
Qed.

(** C8, amended: a student of the roster whose document loads submits a
    valid label assignment, the task completes, and the student submits
    again, a valid assignment too, the font encoding the watermarks of both
    submissions. The second task appends its stamped pages after everything
    the collections held, the pages of the first submission included:
    nothing is removed or replaced, and the pages filed for the student are
    those of both submissions. A finalize after that builds, for every
    problem number, the document of the pages the collection held before,
    then those of the first submission, then those of the second.
    Submitting the same assignment twice files every page twice. *)
Theorem resubmission_appends_again {fonts : StandardFonts}
    (fs : FileSystem) (s : SessionData) (sid : Z) (st : StudentData)
    (doc : PDFDocument) (name1 name2 : string) (labels1 labels2 : PageLabels) :
  findStudent sid (students s) = Some st →
  fs !! originalPdfPath st = Some (PdfBytes doc) →
  validLabels doc labels1 →
  validLabels doc labels2 →
  canStamp doc sid name1 labels1 →
  canStamp doc sid name2 labels2 →
  let first := submit fs {| reqStudentId := sid; reqStudentName := name1;
                            reqPageLabels := labels1 |} s in
  let second := submit fs {| reqStudentId := sid; reqStudentName := name2;
                             reqPageLabels := labels2 |} first in
  statusOf sid first = Some completed
  ∧ statusOf sid second = Some completed
  ∧ (∀ p, collection (problemPages first) p
          = collection (problemPages s) p
            ++ (filter (λ x, x.1 = p) (filedBy doc sid name1 labels1)).*2)
  ∧ (∀ p, collection (problemPages second) p
          = collection (problemPages first) p
            ++ (filter (λ x, x.1 = p) (filedBy doc sid name2 labels2)).*2)
  ∧ studentPagesCount sid (problemPages second)
    = (studentPagesCount sid (problemPages s)
       + positivePairs labels1 + positivePairs labels2)%nat
  ∧ (wellFormedPages (problemPages s) →
     ∀ p, is_Some (problemPages second !! p) →
       finalPdfs (finalize second).2 !! p
       = Some (PdfBytes
                 (omap firstPage
                    (collection (problemPages s) p
                     ++ (filter (λ x, x.1 = p) (filedBy doc sid name1 labels1)).*2
                     ++ (filter (λ x, x.1 = p)
                           (filedBy doc sid name2 labels2)).*2)))).
Proof.
  intros Hst Hfile Hvalid1 Hvalid2 Hstamp1 Hstamp2 first second.
  assert (wellFormedPages (problemPages s) →
          wellFormedPages (problemPages second)) as Hwf2.
  { intros Hwf. unfold second, first. by do 2 apply submit_wellFormed. }
  revert Hwf2. subst first second.
  rewrite (submit_ok fs s sid name1 labels1 st doc)
    by eauto using validLabels_entryOk.
  set (first := {| students := _ |}).
  assert (findStudent sid (students first)
          = Some (setStatus completed (setStatus processing
                    (setStatus processing
                       (setNameAndLabels name1 labels1 st))))) as Hfirst.
  { unfold first. simpl. rewrite !findStudent_updateStudent by done.
    by rewrite Hst. }
  rewrite (submit_ok fs first sid name2 labels2 _ doc Hfirst)
    by eauto using validLabels_entryOk.
  set (second := {| students := _ |}). intros Hwf2.
  assert (∀ p, collection (problemPages second) p
               = collection (problemPages first) p
                 ++ (filter (λ x, x.1 = p) (filedBy doc sid name2 labels2)).*2)
    as Hsecond by (intros p; apply collection_fileAll).
  assert (∀ p, collection (problemPages first) p
               = collection (problemPages s) p
                 ++ (filter (λ x, x.1 = p) (filedBy doc sid name1 labels1)).*2)
    as Hfirst' by (intros p; apply collection_fileAll).
  split; [|split; [|split; [|split; [|split]]]]; try done.
  - unfold statusOf. simpl. rewrite !findStudent_updateStudent by done.
    by rewrite Hst.
  - unfold statusOf. simpl. rewrite !findStudent_updateStudent by done.
    by rewrite Hst.
  - unfold second, first. simpl. rewrite !studentPagesCount_fileAll.
    rewrite !filter_Forall_id by apply filedBy_studentId.
    by rewrite !length_filedBy_valid.
  - intros Hwf p [pages Hpages].
    destruct (finalize_rebuilds second (Hwf2 Hwf)) as [_ Hbuilt].
    rewrite (Hbuilt p pages Hpages). do 3 f_equal.
    rewrite app_assoc, <- Hfirst', <- Hsecond.
    unfold collection. by rewrite Hpages.
Qed.

Lemma resubmission_appends_again_witness :
  let labels := [(1, [1]); (2, [-1])] in
  let first := submit exampleFiles {| reqStudentId := 1; reqStudentName := "Ann";
                                      reqPageLabels := labels |} exampleSession in
  let second := submit exampleFiles {| reqStudentId := 1; reqStudentName := "Ann";
                                       reqPageLabels := labels |} first in
  (findStudent 1 (students exampleSession) = Some exampleStudent1
   ∧ exampleFiles !! originalPdfPath exampleStudent1 = Some (PdfBytes exampleDoc)
   ∧ validLabels exampleDoc labels
   ∧ canStamp exampleDoc 1 "Ann" labels)
  ∧ (length (collection (problemPages first) 1) = 1%nat
     ∧ length (collection (problemPages second) 1) = 2%nat
     ∧ finalPdfs (finalize second).2 !! 1
       = Some (PdfBytes [mkPage "page one" ["Problem 1 - Ann - Student nr: 1"];
                         mkPage "page one" ["Problem 1 - Ann - Student nr: 1"]]))
  ∧ statusOf 1 first = Some completed
  ∧ statusOf 1 second = Some completed
  ∧ (∀ p, collection (problemPages first) p
          = collection (problemPages exampleSession) p
            ++ (filter (λ x, x.1 = p) (filedBy exampleDoc 1 "Ann" labels)).*2)
  ∧ (∀ p, collection (problemPages second) p
          = collection (problemPages first) p
            ++ (filter (λ x, x.1 = p) (filedBy exampleDoc 1 "Ann" labels)).*2)
  ∧ studentPagesCount 1 (problemPages second)
    = (studentPagesCount 1 (problemPages exampleSession)
       + positivePairs labels + positivePairs labels)%nat
  ∧ (wellFormedPages (problemPages exampleSession) →
     ∀ p, is_Some (problemPages second !! p) →
       finalPdfs (finalize second).2 !! p
       = Some (PdfBytes
                 (omap firstPage
                    (collection (problemPages exampleSession) p
                     ++ (filter (λ x, x.1 = p)
                           (filedBy exampleDoc 1 "Ann" labels)).*2
                     ++ (filter (λ x, x.1 = p)
                           (filedBy exampleDoc 1 "Ann" labels)).*2)))).
Proof.
  intros labels first second.
  assert (findStudent 1 (students exampleSession) = Some exampleStudent1)
    as Hknown by reflexivity.
  assert (exampleFiles !! originalPdfPath exampleStudent1
          = Some (PdfBytes exampleDoc)) as Hfile by reflexivity.
  assert (validLabels exampleDoc labels) as Hvalid
    by (unfold validLabels, labels; repeat constructor; simpl; lia).
  assert (canStamp exampleDoc 1 "Ann" labels) as Hstamp
    by (unfold canStamp, labels; repeat constructor).
  split; [done|]. split; [repeat split; reflexivity|].
  exact (resubmission_appends_again exampleFiles exampleSession 1 exampleStudent1
           exampleDoc "Ann" "Ann" labels labels Hknown Hfile Hvalid Hvalid
           Hstamp Hstamp).
Defined.

(** ** The label handlers *)
Section Labels.
Implicit Types (m : gmap Z (list Z)) (l : list Z) (pageNumber p : Z).

Lemma includes_true x l : includes x l = true ↔ x ∈ l.
Proof. unfold includes. apply bool_decide_eq_true. Qed.

Lemma includes_false x l : includes x l = false ↔ x ∉ l.
Proof. unfold includes. apply bool_decide_eq_false. Qed.

Lemma handlePageLabel_sentinel pageNumber m :
  handlePageLabel pageNumber (-1) m = <[pageNumber := [-1]]> m.
Proof. done. Qed.

Lemma handleKeyboardPageLabel_sentinel pageNumber m :
  handleKeyboardPageLabel pageNumber (-1) m = <[pageNumber := [-1]]> m.
Proof. done. Qed.

(** A positive number added to a page that holds the sentinel: nothing
    changes. *)
Lemma add_positive_on_sentinel pageNumber p m :
  0 < p →
  sentinel ∈ currentProblemsOf m pageNumber →
  handlePageLabel pageNumber p m = m
  ∧ handleKeyboardPageLabel pageNumber p m = m.
Proof.
  intros Hp Hsentinel. unfold handlePageLabel, handleKeyboardPageLabel.
  rewrite bool_decide_eq_false_2 by lia.
  destruct (Z.ltb_spec 0 p); [|lia].
  apply includes_true in Hsentinel. unfold sentinel in Hsentinel.
  by rewrite Hsentinel.
Qed.

Lemma handleKeyboardPageLabel_positive pageNumber p m :
  0 < p →
  sentinel ∉ currentProblemsOf m pageNumber →
  handleKeyboardPageLabel pageNumber p m
  = <[pageNumber := currentProblemsOf m pageNumber ++ [p]]> m.
Proof.
  intros Hp Hsentinel. unfold handleKeyboardPageLabel.
  rewrite bool_decide_eq_false_2 by lia.
  destruct (Z.ltb_spec 0 p); [|lia].
  apply includes_false in Hsentinel. unfold sentinel in Hsentinel.
  by rewrite Hsentinel.
Qed.

Lemma unmixed_sentinel : unmixed [-1].
Proof.
  intros [_ (p & Hp & Hin)]. apply list_elem_of_singleton in Hin. lia.
Qed.

Lemma unmixed_nil : unmixed [].
Proof. intros [Hin _]. by apply elem_of_nil in Hin. Qed.

Lemma unmixed_sublist l l' : l' `sublist_of` l → unmixed l → unmixed l'.
Proof.
  intros Hsub Hl [Hs (p & Hp & Hin)]. apply Hl.
  split; [|exists p; split; [done|]]; by eapply elem_of_sublist.
Qed.

Lemma unmixed_snoc l p : sentinel ∉ l → 0 < p → unmixed (l ++ [p]).
Proof.
  intros Hl Hp [Hs _]. apply elem_of_app in Hs as [Hs|Hs]; [done|].
  apply list_elem_of_singleton in Hs. unfold sentinel in Hs. lia.
Qed.

Lemma exclusive_empty : exclusive ∅.
Proof. intros pageNumber l. by rewrite lookup_empty. Qed.

Lemma exclusive_current m pageNumber :
  exclusive m → unmixed (currentProblemsOf m pageNumber).
Proof.
  intros Hm. unfold currentProblemsOf.
  destruct (m !! pageNumber) as [l|] eqn:Hl; simpl.
  - by apply (Hm pageNumber).
  - apply unmixed_nil.
Qed.

Lemma exclusive_insert m pageNumber l :
  unmixed l → exclusive m → exclusive (<[pageNumber := l]> m).
Proof.
  intros Hl Hm q l'. destruct (decide (pageNumber = q)) as [->|Hne].
  - rewrite lookup_insert_eq. by intros [= <-].
  - rewrite lookup_insert_ne by done. apply Hm.
Qed.

Lemma exclusive_delete m pageNumber : exclusive m → exclusive (delete pageNumber m).
Proof.
  intros Hm q l'. destruct (decide (pageNumber = q)) as [->|Hne].
  - by rewrite lookup_delete_eq.
  - rewrite lookup_delete_ne by done. apply Hm.
Qed.

Lemma exclusive_store m pageNumber l :
  unmixed l → exclusive m → exclusive (store pageNumber l m).
Proof.
  intros Hl Hm. unfold store.
  case_bool_decide; auto using exclusive_delete, exclusive_insert.
Qed.

Lemma exclusive_handlePageLabel pageNumber p m :
  exclusive m → exclusive (handlePageLabel pageNumber p m).
Proof.
  intros Hm. unfold handlePageLabel.
  case_bool_decide; [by apply exclusive_insert; [apply unmixed_sentinel|]|].
  destruct (Z.ltb_spec 0 p); [|done].
  destruct (includes (-1) _) eqn:Hs; simpl; [done|].
  destruct (includes p _); simpl; [done|].
  apply exclusive_insert; [|done].
  apply unmixed_snoc; [|done]. by apply includes_false.
Qed.

Lemma exclusive_handleKeyboardPageLabel pageNumber p m :
  exclusive m → exclusive (handleKeyboardPageLabel pageNumber p m).
Proof.
  intros Hm. unfold handleKeyboardPageLabel.
  case_bool_decide; [by apply exclusive_insert; [apply unmixed_sentinel|]|].
  destruct (Z.ltb_spec 0 p); [|done].
  destruct (includes (-1) _) eqn:Hs; simpl; [done|].
  apply exclusive_insert; [|done].
  apply unmixed_snoc; [|done]. by apply includes_false.
Qed.

Lemma exclusive_handleRemovePageLabel pageNumber p m :
  exclusive m → exclusive (handleRemovePageLabel pageNumber p m).
Proof.
  intros Hm. unfold handleRemovePageLabel. apply exclusive_store; [|done].
  eapply unmixed_sublist; [apply sublist_filter|].
  by apply exclusive_current.
Qed.

Lemma exclusive_handleRemoveLastInstancePageLabel pageNumber p m :
  exclusive m → exclusive (handleRemoveLastInstancePageLabel pageNumber p m).
Proof.
  intros Hm. unfold handleRemoveLastInstancePageLabel.
  destruct (lastIndexOf p _) as [i|]; [|done].
  apply exclusive_store; [|done].
  eapply unmixed_sublist; [apply sublist_delete|].
  by apply exclusive_current.
Qed.

Lemma exclusive_handleRemoveLastLabel pageNumber m :
  exclusive m → exclusive (handleRemoveLastLabel pageNumber m).
Proof.
  intros Hm. unfold handleRemoveLastLabel.
  case_bool_decide; [|done].
  apply exclusive_store; [|done].
  rewrite removelast_firstn_len.
  eapply unmixed_sublist; [apply sublist_take|].
  by apply exclusive_current.
Qed.

Lemma exclusive_applyOp m op : exclusive m → exclusive (applyOp m op).
Proof.
  destruct op; simpl;
    auto using exclusive_handlePageLabel, exclusive_handleKeyboardPageLabel,
      exclusive_handleRemovePageLabel,
      exclusive_handleRemoveLastInstancePageLabel,
      exclusive_handleRemoveLastLabel.
Qed.

Lemma exclusive_applyOps ops m : exclusive m → exclusive (applyOps ops m).
Proof.
  unfold applyOps. revert m.
  induction ops as [|op ops IH]; intros m Hm; simpl; [done|].
  by apply IH, exclusive_applyOp.
Qed.
End Labels.

(** ** The sentinel and the positive numbers *)

(** C4, as the claim states it, fails: page 1 holds the sentinel, problem 3
    is added with the button and with the keyboard, and the page still
    holds the sentinel and only the sentinel. *)
Lemma add_after_sentinel_counterexample :
  let m : gmap Z (list Z) := {[ 1 := [-1] ]} in
  sentinel ∈ currentProblemsOf m 1
  ∧ handlePageLabel 1 3 m !! 1 = Some [-1]
  ∧ handleKeyboardPageLabel 1 3 m !! 1 = Some [-1]
  ∧ handlePageLabel 1 3 m !! 1 ≠ Some [3]
  ∧ handleKeyboardPageLabel 1 3 m !! 1 ≠ Some [3].
Proof.
  intros m. split; [apply list_elem_of_here|].
  repeat split; try reflexivity; discriminate.
Qed.

(** C4, amended: on a page whose labels contain the sentinel, adding a
    positive problem number, with the button or with the keyboard, changes
    nothing: the sentinel stays and the number is not added. Once the
    sentinel has been removed from a page that held nothing else, the add
    leaves the page with exactly the positive number. *)
Theorem add_after_sentinel_is_ignored
    (m : gmap Z (list Z)) (pageNumber p : Z) :
  sentinel ∈ currentProblemsOf m pageNumber →
  0 < p →
  (handlePageLabel pageNumber p m = m
   ∧ handleKeyboardPageLabel pageNumber p m = m)
  ∧ (Forall (λ q, q = sentinel) (currentProblemsOf m pageNumber) →
     handlePageLabel pageNumber p
       (handleRemovePageLabel pageNumber sentinel m) !! pageNumber = Some [p]
     ∧ handleKeyboardPageLabel pageNumber p
         (handleRemovePageLabel pageNumber sentinel m) !! pageNumber = Some [p]).
Proof.
  intros Hsentinel Hp. split; [by apply add_positive_on_sentinel|].
  intros Honly.
  assert (handleRemovePageLabel pageNumber sentinel m = delete pageNumber m)
    as ->.
  { unfold handleRemovePageLabel, store.
    rewrite filter_Forall_nil; [done|].
    eapply Forall_impl; [exact Honly|]. simpl. intros q -> Hq. done. }
  unfold handlePageLabel, handleKeyboardPageLabel, currentProblemsOf.
  rewrite lookup_delete_eq. simpl.
  rewrite bool_decide_eq_false_2 by lia.
  destruct (Z.ltb_spec 0 p); [|lia].
  unfold includes. rewrite ?bool_decide_eq_false_2 by apply not_elem_of_nil.
  simpl. by rewrite lookup_insert_eq.
Qed.

Lemma add_after_sentinel_is_ignored_witness :
  let m : gmap Z (list Z) := {[ 1 := [-1] ]} in
  (sentinel ∈ currentProblemsOf m 1 ∧ 0 < 3)
  ∧ (handlePageLabel 1 3 m = m ∧ handleKeyboardPageLabel 1 3 m = m)
  ∧ (Forall (λ q, q = sentinel) (currentProblemsOf m 1) →
     handlePageLabel 1 3 (handleRemovePageLabel 1 sentinel m) !! 1 = Some [3]
     ∧ handleKeyboardPageLabel 1 3 (handleRemovePageLabel 1 sentinel m) !! 1
       = Some [3]).
Proof.
  intros m.
  assert (sentinel ∈ currentProblemsOf m 1) as Hsentinel
    by apply list_elem_of_here.
  assert (0 < 3) as Hp by lia.
  split; [by split|].
  exact (add_after_sentinel_is_ignored m 1 3 Hsentinel Hp).
Defined.

(** C5: from the empty label assignment, after any finite sequence of
    button adds, keyboard adds and removes (of a label, of its last
    instance, of the last label), no page holds the sentinel together with a
    positive problem number. Assigning the sentinel replaces the labels of
    the page by the sentinel alone, and assigning a positive number while
    the page holds the sentinel leaves the assignment unchanged. *)
Theorem sentinel_and_positive_exclusive
    (ops : list LabelOp) (m : gmap Z (list Z)) (pageNumber p : Z) :
  exclusive (applyOps ops ∅)
  ∧ (handlePageLabel pageNumber sentinel m = <[pageNumber := [sentinel]]> m
     ∧ handleKeyboardPageLabel pageNumber sentinel m
       = <[pageNumber := [sentinel]]> m)
  ∧ (0 < p → sentinel ∈ currentProblemsOf m pageNumber →
     handlePageLabel pageNumber p m = m
     ∧ handleKeyboardPageLabel pageNumber p m = m).
Proof.
  split; [|split].
  - apply exclusive_applyOps, exclusive_empty.
  - split; reflexivity.
  - apply add_positive_on_sentinel.
Qed.

Lemma sentinel_and_positive_exclusive_witness :
  let ops := [Add 1 2; KeyboardAdd 1 2; Add 1 (-1); KeyboardAdd 1 5;
              Add 2 7; RemoveLast 2; Remove 1 (-1); KeyboardAdd 1 5] in
  let m : gmap Z (list Z) := {[ 1 := [-1] ]} in
  (applyOps ops ∅ = {[ 1 := [5] ]} ∧ 0 < 3 ∧ sentinel ∈ currentProblemsOf m 1)
  ∧ exclusive (applyOps ops ∅)
  ∧ (handlePageLabel 1 sentinel m = <[1 := [sentinel]]> m
     ∧ handleKeyboardPageLabel 1 sentinel m = <[1 := [sentinel]]> m)
  ∧ (0 < 3 → sentinel ∈ currentProblemsOf m 1 →
     handlePageLabel 1 3 m = m ∧ handleKeyboardPageLabel 1 3 m = m).
Proof.
  intros ops m. split.
  - split; [reflexivity|]. split; [lia|]. apply list_elem_of_here.
  - exact (sentinel_and_positive_exclusive ops m 1 3).
Defined.

(** ** Labels added twice with the keyboard *)
Section Duplicates.
Variables (doc : PDFDocument) (sid : Z) (sname : string).
Variables (pageNum p : Z).

Lemma length_filter_bind {A B} (Q : B → Prop) `{!∀ x, Decision (Q x)}
    (f : A → list B) (xs : list A) :
  length (filter Q (xs ≫= f))
  = sum_list_with (λ x, length (filter Q (f x))) xs.
Proof.
  induction xs as [|x xs IH]; csimpl; [done|].
  by rewrite filter_app, length_app, IH.
Qed.

Lemma sum_list_with_zero {A} (f : A → nat) (xs : list A) :
  Forall (λ x, f x = 0%nat) xs → sum_list_with f xs = 0%nat.
Proof. induction 1 as [|x xs Hx _ IH]; simpl; [done|]. by rewrite Hx, IH. Qed.

Lemma length_filter_collection (filed : list (Z * ProblemPage)) :
  length (filter (λ page, studentId page = sid ∧ pageNumber page = pageNum)
            (filter (λ x, x.1 = p) filed).*2)
  = length (filter (sameCombination sid pageNum p) filed).
Proof.
  induction filed as [|x filed IH]; [done|].
  rewrite (filter_cons (λ x, x.1 = p)), (filter_cons (sameCombination sid pageNum p)).
  destruct (decide (x.1 = p)) as [Hx|Hx].
  - rewrite fmap_cons, filter_cons.
    destruct (decide (studentId x.2 = sid ∧ pageNumber x.2 = pageNum))
      as [Hy|Hy].
    + rewrite decide_True by done. cbn [length]. by f_equal.
    + rewrite decide_False by (intros [_ ?]; done). done.
  - rewrite decide_False by (intros [? _]; done). done.
Qed.

(** An entry of another page files nothing for this page. *)
Lemma other_page_files_none (entry : Z * list Z) :
  entry.1 ≠ pageNum →
  length (filter (sameCombination sid pageNum p) (filedByEntry doc sid sname entry)) = 0%nat.
Proof.
  intros Hne. rewrite filter_Forall_nil; [done|].
  apply Forall_forall. intros x Hx [_ [_ Hpage]].
  apply filedByEntry_elem in Hx as (_ & Hx & _). congruence.
Qed.

(** The entry of this page files one page per occurrence of [p]. *)
Lemma this_page_files_each (nums : list Z) (pg : PDFPage) :
  0 < p →
  length (filter (sameCombination sid pageNum p)
            ((λ q, (q, stamped sid sname pageNum q pg))
               <$> filter (λ q, 0 < q) nums))
  = length (filter (λ q, q = p) nums).
Proof.
  intros Hp. induction nums as [|q nums IH]; [done|].
  rewrite (filter_cons (λ q, 0 < q)), (filter_cons (λ q, q = p)).
  destruct (decide (q = p)) as [->|Hq].
  - rewrite decide_True by done. csimpl. rewrite filter_cons.
    rewrite decide_True by done. simpl. by rewrite IH.
  - destruct (decide (0 < q)); [|done].
    csimpl. rewrite filter_cons.
    rewrite decide_False by (intros [? _]; done). done.
Qed.
End Duplicates.

Lemma Object_entries_insert (m : gmap Z (list Z)) (pageNum : Z) (l : list Z) :
  Object_entries (<[pageNum := l]> m)
  ≡ₚ (pageNum, l) :: map_to_list (delete pageNum m).
Proof.
  unfold Object_entries. rewrite merge_sort_Permutation.
  rewrite <- insert_delete_eq.
  apply map_to_list_insert, lookup_delete_eq.
Qed.

(** C10, as the claim states it, fails in its second half: the keyboard
    add appends a second 2 to page 1, but submitted under a name the font
    cannot encode the task stamps and files nothing, not one page per
    occurrence. *)
Lemma keyboard_duplicates_unencodable_name_counterexample :
  let m : gmap Z (list Z) := {[ 1 := [2] ]} in
  let m' := handleKeyboardPageLabel 1 2 m in
  let s' := processStudentInBackground exampleFiles 1 "Łukasz"
              (Object_entries m') exampleSession in
  m' !! 1 = Some [2; 2]
  ∧ Object_entries m' = [(1, [2; 2])]
  ∧ validLabels exampleDoc (Object_entries m')
  ∧ findStudent 1 (students exampleSession) = Some exampleStudent1
  ∧ exampleFiles !! originalPdfPath exampleStudent1 = Some (PdfBytes exampleDoc)
  ∧ collection (problemPages s') 2 = []
  ∧ length (collection (problemPages s') 2) ≠ 2%nat
  ∧ statusOf 1 s' = Some error.
Proof.
  repeat split; try reflexivity.
  - change (validLabels exampleDoc [(1, [2; 2])]).
    unfold validLabels. repeat constructor; simpl; lia.
  - vm_compute. discriminate.
Qed.

(** C10, amended: the keyboard add does not deduplicate. On a page that
    already holds the positive problem number [p] and not the sentinel, it
    appends a second occurrence of [p]. When the resulting assignment is
    submitted for a student of the roster whose document loads (all its
    pages being pages of the document) and whose watermarks the font can
    encode, the background processor appends to the collection of [p],
    after what it held, one stamped page of that student and page per
    occurrence of [p] in the page's list: at least two. *)
Theorem keyboard_add_files_duplicates {fonts : StandardFonts}
    (m : gmap Z (list Z)) (pageNum p : Z) (l : list Z)
    (fs : FileSystem) (s : SessionData) (sid : Z) (sname : string)
    (st : StudentData) (doc : PDFDocument) :
  m !! pageNum = Some l →
  p ∈ l →
  0 < p →
  sentinel ∉ l →
  findStudent sid (students s) = Some st →
  fs !! originalPdfPath st = Some (PdfBytes doc) →
  let m' := handleKeyboardPageLabel pageNum p m in
  validLabels doc (Object_entries m') →
  canStamp doc sid sname (Object_entries m') →
  let s' := processStudentInBackground fs sid sname (Object_entries m') s in
  m' !! pageNum = Some (l ++ [p])
  ∧ ∃ new,
      collection (problemPages s') p = collection (problemPages s) p ++ new
      ∧ length (filter (λ page, studentId page = sid ∧ pageNumber page = pageNum)
                  new)
        = length (filter (λ q, q = p) (l ++ [p]))
      ∧ (2 ≤ length (filter (λ q, q = p) (l ++ [p])))%nat.
Proof.
  intros Hl Hin Hp Hsentinel Hst Hfile m' Hvalid Hstamp s'.
  assert (m' = <[pageNum := l ++ [p]]> m) as Hm'.
  { unfold m'. rewrite handleKeyboardPageLabel_positive.
    - unfold currentProblemsOf. by rewrite Hl.
    - done.
    - unfold currentProblemsOf. by rewrite Hl. }
  split; [by rewrite Hm', lookup_insert_eq|].
  exists (filter (λ x, x.1 = p)
            (filedBy doc sid sname (Object_entries m'))).*2.
  split; [|split].
  - unfold s'.
    rewrite (processStudentInBackground_ok fs sid sname _ s st doc)
      by eauto using validLabels_entryOk.
    apply collection_fileAll.
  - rewrite length_filter_collection. unfold filedBy.
    rewrite length_filter_bind.
    assert ((pageNum, l ++ [p]) ∈ Object_entries m') as Hentry.
    { rewrite Hm', Object_entries_insert. apply list_elem_of_here. }
    destruct (filedByEntry_valid doc sid sname (pageNum, l ++ [p]))
      as (pg & _ & Hfiled).
    { by apply (proj1 (Forall_forall _ _) Hvalid). }
    rewrite Hm', Object_entries_insert. simpl.
    rewrite Hfiled. simpl.
    rewrite this_page_files_each by done.
    rewrite sum_list_with_zero; [lia|].
    apply Forall_forall. intros [q nums] Hq.
    apply other_page_files_none. simpl.
    apply elem_of_map_to_list in Hq. intros ->.
    by rewrite lookup_delete_eq in Hq.
  - rewrite filter_app, length_app, filter_cons, decide_True by done.
    simpl.
    assert (p ∈ filter (λ q, q = p) l) as Hfiltered
      by (by apply list_elem_of_filter).
    destruct (filter (λ q, q = p) l); [by apply elem_of_nil in Hfiltered|].
    simpl. lia.
Qed.

Lemma keyboard_add_files_duplicates_witness :
  let m : gmap Z (list Z) := {[ 1 := [2]; 3 := [-1] ]} in
  let m' := handleKeyboardPageLabel 1 2 m in
  let s' := processStudentInBackground exampleFiles 1 "Ann" (Object_entries m')
              exampleSession in
  (m !! 1 = Some [2] ∧ 2 ∈ [2] ∧ 0 < 2 ∧ (sentinel ∉ [2])
   ∧ findStudent 1 (students exampleSession) = Some exampleStudent1
   ∧ exampleFiles !! originalPdfPath exampleStudent1 = Some (PdfBytes exampleDoc)
   ∧ validLabels exampleDoc (Object_entries m')
   ∧ canStamp exampleDoc 1 "Ann" (Object_entries m'))
  ∧ (Object_entries m' = [(1, [2; 2]); (3, [-1])]
     ∧ length (collection (problemPages s') 2) = 2%nat)
  ∧ m' !! 1 = Some ([2] ++ [2])
  ∧ ∃ new,
      collection (problemPages s') 2
      = collection (problemPages exampleSession) 2 ++ new
      ∧ length (filter (λ page, studentId page = 1 ∧ pageNumber page = 1) new)
        = length (filter (λ q, q = 2) ([2] ++ [2]))
      ∧ (2 ≤ length (filter (λ q, q = 2) ([2] ++ [2])))%nat.
Proof.
  intros m m' s'.
  assert (m !! 1 = Some [2]) as Hpage by reflexivity.
  assert (2 ∈ [2]) as Hin by apply list_elem_of_here.
  assert (0 < 2) as Hpos by lia.
  assert (sentinel ∉ [2]) as Hsentinel.
  { unfold sentinel. intros H. apply list_elem_of_singleton in H. lia. }
  assert (findStudent 1 (students exampleSession) = Some exampleStudent1)
    as Hknown by reflexivity.
  assert (exampleFiles !! originalPdfPath exampleStudent1
          = Some (PdfBytes exampleDoc)) as Hfile by reflexivity.
  assert (validLabels exampleDoc (Object_entries m')) as Hvalid.
  { change (validLabels exampleDoc [(1, [2; 2]); (3, [-1])]).
    unfold validLabels. repeat constructor; simpl; lia. }
  assert (canStamp exampleDoc 1 "Ann" (Object_entries m')) as Hstamp.
  { change (canStamp exampleDoc 1 "Ann" [(1, [2; 2]); (3, [-1])]).
    unfold canStamp. repeat constructor. }
  split; [done|]. split; [split; reflexivity|].
  exact (keyboard_add_files_duplicates m 1 2 [2] exampleFiles exampleSession
           1 "Ann" exampleStudent1 exampleDoc
           Hpage Hin Hpos Hsentinel Hknown Hfile Hvalid Hstamp).
Defined.


(** * More of the server *)

(** ** What any run of a background task keeps *)
Section TaskFrame.
Context {fonts : StandardFonts}.
Implicit Types (s : SessionData) (m : gmap Z (list ProblemPage)).

Lemma extends_refl m : extends m m.
Proof. intros p. split; [reflexivity | done]. Qed.

Lemma extends_trans m1 m2 m3 : extends m1 m2 → extends m2 m3 → extends m1 m3.
Proof.
  intros H12 H23 p. destruct (H12 p) as [Hpre12 Hdom12].
  destruct (H23 p) as [Hpre23 Hdom23].
  split; [by etrans | auto].
Qed.

Lemma extends_pushPage m p page : extends m (pushPage p page m).
Proof.
  intros q. rewrite collection_pushPage. unfold pushPage. split.
  - case_decide; [by apply prefix_app_r | done].
  - intros Hq. destruct (decide (p = q)) as [->|Hne].
    + rewrite lookup_insert_eq. eauto.
    + by rewrite lookup_insert_ne.
Qed.

Lemma goodPages_pushPage m p page :
  0 < p → is_Some (firstPage page) → goodPages m → goodPages (pushPage p page m).
Proof.
  intros Hp Hpage Hm q pages. unfold pushPage.
  destruct (decide (p = q)) as [->|Hne].
  - rewrite lookup_insert_eq. intros [= <-].
    split; [done|]. split; [by intros [_ ?]%app_eq_nil|].
    apply Forall_app. split; [|by repeat constructor].
    unfold collection. destruct (m !! q) as [old|] eqn:Hq; simpl; [|done].
    by apply (Hm q old).
  - rewrite lookup_insert_ne by done. apply Hm.
Qed.


Lemma framed_refl s : framed s s.
Proof. split; [done|]. split; [done|]. split; [apply extends_refl | done]. Qed.

Lemma stampAndFile_framed doc sid sname pageNum p s s0 :
  framed s s0 → framed s (stampAndFile doc sid sname pageNum p s0).2.
Proof.
  intros (Hstudents & Hfinal & Hext & Hgood).
  destruct (stampAndFile_cases doc sid sname pageNum p s0)
    as [(msg & _ & ->) | [[_ ->] | (pg & Hp & _ & _ & ->)]]; [done..|].
  simpl. split; [done|]. split; [done|]. split.
  - eapply extends_trans; [exact Hext | apply extends_pushPage].
  - intros Hs. apply goodPages_pushPage; [done | by eexists | by apply Hgood].
Qed.

Lemma processEntry_framed doc sid sname entry s s0 :
  framed s s0 → framed s (processEntry doc sid sname entry s0).2.
Proof.
  intros Hframed. unfold processEntry. destruct (_ && _); [|done].
  apply (forEach_invariant (framed s)); [|done].
  intros. by apply stampAndFile_framed.
Qed.

(** The [try] block: the roster it leaves, by the way it ends. *)
Lemma processBody_run fs path sid sname pageLabels s :
  let r := processBody fs path sid sname pageLabels s in
  finalPdfs r.2 = finalPdfs s
  ∧ extends (problemPages s) (problemPages r.2)
  ∧ (goodPages (problemPages s) → goodPages (problemPages r.2))
  ∧ students r.2
    = match r.1 with
      | inr _ => updateStudent sid (setStatus completed)
                   (updateStudent sid (setStatus processing) (students s))
      | inl _ => updateStudent sid (setStatus processing) (students s)
      end.
Proof.
  intros r. subst r. unfold processBody. rewrite bind_modify.
  set (s1 := withStudents (updateStudent sid (setStatus processing)) s).
  assert (framed s1 s1) as Hs1 by apply framed_refl.
  destruct (readFile fs path) as [e|buffer]; simpl lift.
  { rewrite bind_throw. simpl. split; [done|].
    split; [apply extends_refl|]. by split. }
  rewrite bind_ret. destruct (load buffer) as [e|doc]; simpl lift.
  { rewrite bind_throw. simpl. split; [done|].
    split; [apply extends_refl|]. by split. }
  rewrite bind_ret, bind_run.
  assert (framed s1 (forEach pageLabels (processEntry doc sid sname) s1).2)
    as (Hstudents & Hfinal & Hext & Hgood).
  { apply (forEach_invariant (framed s1)); [|done].
    intros. by apply processEntry_framed. }
  destruct (forEach pageLabels _ s1) as [[e|[]] s2]; simpl in *.
  - by rewrite Hstudents.
  - by rewrite Hstudents.
Qed.
End TaskFrame.

Section Roster.
Implicit Types (l : list StudentData) (f : StudentData → StudentData).

Lemma findStudent_updateStudent_ne sid other f l :
  other ≠ sid →
  (∀ x, id (f x) = id x) →
  findStudent other (updateStudent sid f l) = findStudent other l.
Proof.
  intros Hne Hid. unfold findStudent.
  induction l as [|st l IH]; simpl; [done|].
  destruct (decide (id st = sid)) as [Hst|Hst].
  - rewrite (bool_decide_eq_true_2 (id st = sid)) by done. simpl.
    rewrite Hid.
    rewrite !(bool_decide_eq_false_2 (id st = other)) by congruence. done.
  - rewrite (bool_decide_eq_false_2 (id st = sid)) by done. simpl.
    by rewrite IH.
Qed.

Lemma length_updateStudent sid f l : length (updateStudent sid f l) = length l.
Proof.
  induction l as [|st l IH]; simpl; [done|].
  destruct (bool_decide (id st = sid)); simpl; by rewrite ?IH.
Qed.

Lemma lookup_updateStudent sid f l i st' :
  (∀ x, id (f x) = id x) →
  updateStudent sid f l !! i = Some st' →
  ∃ st, l !! i = Some st ∧ id st' = id st.
Proof.
  intros Hid. revert i. induction l as [|st l IH]; intros i; simpl; [done|].
  destruct (bool_decide (id st = sid)).
  - destruct i as [|i]; simpl.
    + intros [= <-]. eauto.
    + eauto.
  - destruct i as [|i]; simpl.
    + intros [= <-]. eauto.
    + apply IH.
Qed.

Lemma idsInOrder_updateStudent sid f l :
  (∀ x, id (f x) = id x) → idsInOrder l → idsInOrder (updateStudent sid f l).
Proof.
  intros Hid Hl i st' Hi.
  destruct (lookup_updateStudent sid f l i st' Hid Hi) as (st & Hst & ->).
  by apply Hl.
Qed.

Lemma idsInOrder_newStudents files : idsInOrder (newStudents files).
Proof.
  intros i st. unfold newStudents. rewrite list_lookup_imap.
  destruct (files !! i); simpl; [|done]. by intros [= <-].
Qed.

(** With ids in upload order, [find] is a lookup by position. *)
Lemma findStudent_offset (off : nat) l k :
  (∀ i st, l !! i = Some st → id st = Z.of_nat (off + i) + 1) →
  findStudent k l
  = if decide (Z.of_nat off + 1 ≤ k) then l !! (Z.to_nat (k - 1) - off)%nat
    else None.
Proof.
  revert off. unfold findStudent.
  induction l as [|st l IH]; intros off Hl; simpl.
  - by case_decide.
  - pose proof (Hl 0%nat st eq_refl) as Hst. rewrite Nat.add_0_r in Hst.
    rewrite (IH (S off)).
    2:{ intros i st' Hi.
        replace (S off + i)%nat with (off + S i)%nat by lia.
        by apply (Hl (S i)). }
    case_bool_decide as Hk.
    + rewrite decide_True by lia.
      replace (Z.to_nat (k - 1) - off)%nat with 0%nat by lia. done.
    + destruct (decide (Z.of_nat off + 1 ≤ k)).
      * rewrite decide_True by lia.
        replace (Z.to_nat (k - 1) - off)%nat
          with (S (Z.to_nat (k - 1) - S off)) by lia. done.
      * rewrite decide_False by lia. done.
Qed.

Lemma findStudent_idsInOrder l k :
  idsInOrder l →
  findStudent k l = if decide (1 ≤ k) then l !! Z.to_nat (k - 1) else None.
Proof.
  intros Hl. rewrite (findStudent_offset 0 l k).
  - by rewrite Nat.sub_0_r.
  - intros i st Hi. by apply Hl.
Qed.
End Roster.

(** The record of the task's student after the run: only the status and
    the error can differ. *)
Lemma processStudentInBackground_student {fonts : StandardFonts}
    (fs : FileSystem) (sid : Z) (sname : string) (pageLabels0 : PageLabels)
    (s : SessionData) (st : StudentData) :
  findStudent sid (students s) = Some st →
  ∃ st', findStudent sid
           (students (processStudentInBackground fs sid sname pageLabels0 s))
         = Some st'
         ∧ id st' = id st ∧ name st' = name st
         ∧ originalPdfPath st' = originalPdfPath st
         ∧ pageLabels st' = pageLabels st
         ∧ ((processingStatus st' = completed
             ∧ processingError st' = processingError st)
            ∨ (processingStatus st' = error ∧ is_Some (processingError st'))).
Proof.
  intros Hst. unfold processStudentInBackground. rewrite Hst.
  destruct (processBody_run fs (originalPdfPath st) sid sname pageLabels0 s)
    as (_ & _ & _ & Hstudents).
  destruct (processBody _ _ _ _ _ s) as [[msg|[]] s1]; simpl in *.
  - rewrite Hstudents, !findStudent_updateStudent by done. rewrite Hst.
    eexists. split; [done|]. simpl. repeat split; try done. right. eauto.
  - rewrite Hstudents, !findStudent_updateStudent by done. rewrite Hst.
    eexists. split; [done|]. simpl. repeat split; try done. by left.
Qed.

Lemma processStudentInBackground_frame {fonts : StandardFonts}
    (fs : FileSystem) (sid : Z) (sname : string) (pageLabels0 : PageLabels)
    (s : SessionData) :
  finalPdfs (processStudentInBackground fs sid sname pageLabels0 s) = finalPdfs s
  ∧ extends (problemPages s)
      (problemPages (processStudentInBackground fs sid sname pageLabels0 s))
  ∧ (goodPages (problemPages s) →
     goodPages (problemPages (processStudentInBackground fs sid sname pageLabels0 s)))
  ∧ length (students (processStudentInBackground fs sid sname pageLabels0 s))
    = length (students s)
  ∧ (idsInOrder (students s) →
     idsInOrder (students (processStudentInBackground fs sid sname pageLabels0 s)))
  ∧ (∀ other, other ≠ sid →
       findStudent other
         (students (processStudentInBackground fs sid sname pageLabels0 s))
       = findStudent other (students s)).
Proof.
  unfold processStudentInBackground.
  destruct (findStudent sid (students s)) as [st|] eqn:Hst.
  2:{ split; [done|]. split; [apply extends_refl|]. split; [done|].
      split; [done|]. split; [done|]. reflexivity. }
  destruct (processBody_run fs (originalPdfPath st) sid sname pageLabels0 s)
    as (Hfinal & Hext & Hgood & Hstudents).
  destruct (processBody _ _ _ _ _ s) as [[msg|[]] s1]; simpl in *.
  - split; [done|]. split; [done|]. split; [done|]. rewrite Hstudents.
    split; [by rewrite !length_updateStudent|].
    split; [intros; by repeat apply idsInOrder_updateStudent|].
    intros other Hother. by rewrite !findStudent_updateStudent_ne.
  - split; [done|]. split; [done|]. split; [done|]. rewrite Hstudents.
    split; [by rewrite !length_updateStudent|].
    split; [intros; by repeat apply idsInOrder_updateStudent|].
    intros other Hother. by rewrite !findStudent_updateStudent_ne.
Qed.

(** X1: whatever its input, a background task run to its end leaves the
    final documents as they were, every collection with the pages it had
    (in place, new pages only after them), and every other student's record
    untouched; its own student, when in the roster, keeps id, name, file and
    labels and ends completed, or in error with a message recorded: never
    pending or processing. *)
Theorem task_keeps_the_store {fonts : StandardFonts}
    (fs : FileSystem) (sid : Z) (sname : string) (pageLabels0 : PageLabels)
    (s : SessionData) :
  let s' := processStudentInBackground fs sid sname pageLabels0 s in
  finalPdfs s' = finalPdfs s
  ∧ extends (problemPages s) (problemPages s')
  ∧ length (students s') = length (students s)
  ∧ (∀ other, other ≠ sid →
       findStudent other (students s') = findStudent other (students s))
  ∧ (∀ st, findStudent sid (students s) = Some st →
       (statusOf sid s' = Some completed
        ∨ (statusOf sid s' = Some error ∧ is_Some (errorOf sid s')))
       ∧ name <$> findStudent sid (students s') = Some (name st)
       ∧ pageLabels <$> findStudent sid (students s') = Some (pageLabels st)
       ∧ originalPdfPath <$> findStudent sid (students s')
         = Some (originalPdfPath st)).
Proof.
  intros s'. subst s'.
  destruct (processStudentInBackground_frame fs sid sname pageLabels0 s)
    as (Hfinal & Hext & _ & Hlength & _ & Hothers).
  split; [done|]. split; [done|]. split; [done|]. split; [done|].
  intros st Hst.
  destruct (processStudentInBackground_student fs sid sname pageLabels0 s st Hst)
    as (st' & Hst' & _ & Hname & Hpath & Hlabels & Hstatus).
  unfold statusOf, errorOf. rewrite Hst'. simpl.
  rewrite Hname, Hpath, Hlabels. split; [|done].
  destruct Hstatus as [[-> _]|[-> Herror]]; [by left | by right].
Qed.

Lemma task_keeps_the_store_witness :
  let s' := processStudentInBackground exampleFiles 1 "Ann"
              [(1, [2; 1]); (7, [3])] exampleSession in
  (findStudent 1 (students exampleSession) = Some exampleStudent1
   ∧ findStudent 2 (students s') = Some exampleStudent2
   ∧ statusOf 1 s' = Some completed)
  ∧ finalPdfs s' = finalPdfs exampleSession
  ∧ extends (problemPages exampleSession) (problemPages s')
  ∧ length (students s') = length (students exampleSession)
  ∧ (∀ other, other ≠ 1 →
       findStudent other (students s')
       = findStudent other (students exampleSession))
  ∧ (∀ st, findStudent 1 (students exampleSession) = Some st →
       (statusOf 1 s' = Some completed
        ∨ (statusOf 1 s' = Some error ∧ is_Some (errorOf 1 s')))
       ∧ name <$> findStudent 1 (students s') = Some (name st)
       ∧ pageLabels <$> findStudent 1 (students s') = Some (pageLabels st)
       ∧ originalPdfPath <$> findStudent 1 (students s')
         = Some (originalPdfPath st)).
Proof.
  intros s'.
  split; [repeat split; reflexivity|].
  exact (task_keeps_the_store exampleFiles 1 "Ann" [(1, [2; 1]); (7, [3])]
           exampleSession).
Defined.

(** ** A task that throws *)

Lemma forEach_app {A} (xs ys : list A) (body : A → M unit) (s : SessionData) :
  forEach (xs ++ ys) body s
  = match forEach xs body s with
    | (inr _, s') => forEach ys body s'
    | (inl e, s') => (inl e, s')
    end.
Proof.
  revert s. induction xs as [|x xs IH]; intros s; simpl; [done|].
  rewrite !bind_run. destruct (body x s) as [[e|[]] s0]; [done|]. apply IH.
Qed.

Lemma forEach_stamp_throws {fonts : StandardFonts} doc sid sname pageNum nums e s :
  copyPages doc (pageNum - 1) = inl e →
  (∃ p, p ∈ nums ∧ 0 < p) →
  forEach nums (stampAndFile doc sid sname pageNum) s = (inl e, s).
Proof.
  intros Hcopy (p & Hin & Hp).
  induction nums as [|q nums IH]; [by apply elem_of_nil in Hin|].
  simpl. rewrite bind_run.
  destruct (decide (0 < q)) as [Hq|Hq].
  - destruct (stampAndFile_cases doc sid sname pageNum q s)
      as [(msg & _ & Hthrow) | [[? _] | (pg & _ & Hpg & _)]];
      [|lia|congruence].
    rewrite Hthrow. f_equal. unfold stampAndFile in Hthrow.
    destruct (Z.ltb_spec 0 q); [|lia].
    rewrite bind_run, Hcopy in Hthrow. simpl in Hthrow. congruence.
  - rewrite stampAndFile_nonpositive by lia.
    apply IH. apply elem_of_cons in Hin as [->|Hin]; [lia | done].
Qed.

(** X2: an entry whose page number is 0 or negative and that carries a
    positive problem number makes the copy of the page throw. The task stops
    there: the student ends in error with the message recorded, the entries
    after it are not processed, and the pages filed for the entries before
    it (no copy of which throws, and whose watermarks the font can encode)
    stay in the collections. *)
Theorem task_page_below_one_stops_the_task {fonts : StandardFonts}
    (fs : FileSystem) (s : SessionData) (sid : Z) (sname : string)
    (st : StudentData) (doc : PDFDocument)
    (before after : PageLabels) (pageNum : Z) (nums : list Z) :
  findStudent sid (students s) = Some st →
  fs !! originalPdfPath st = Some (PdfBytes doc) →
  Forall entryOk before →
  canStamp doc sid sname before →
  pageNum ≤ 0 →
  (∃ p, p ∈ nums ∧ 0 < p) →
  let s' := processStudentInBackground fs sid sname
              (before ++ (pageNum, nums) :: after) s in
  statusOf sid s' = Some error
  ∧ is_Some (errorOf sid s')
  ∧ problemPages s' = fileAll (filedBy doc sid sname before) (problemPages s).
Proof.
  intros Hst Hfile Hbefore Hstamp Hpage Hnums s'. subst s'.
  unfold processStudentInBackground, processBody. rewrite Hst, bind_modify.
  unfold readFile. rewrite Hfile. simpl lift. rewrite bind_ret. simpl lift.
  rewrite bind_ret, bind_run, forEach_app, forEach_entries by done.
  simpl forEach. rewrite bind_run.
  assert (∃ e, copyPages doc (pageNum - 1) = inl e) as [e Hcopy].
  { unfold copyPages. destruct (Z.ltb_spec (pageNum - 1) 0); [eauto | lia]. }
  assert (∀ s0, processEntry doc sid sname (pageNum, nums) s0 = (inl e, s0))
    as Hentry.
  { intros s0. unfold processEntry, getPages. simpl.
    destruct (Z.leb_spec pageNum (Z.of_nat (length doc))); [|lia].
    destruct Hnums as (p & Hin & Hp).
    destruct nums as [|q nums]; [by apply elem_of_nil in Hin|].
    simpl length. destruct (Z.ltb_spec 0 (Z.of_nat (S (length nums)))); [|lia].
    simpl andb. apply forEach_stamp_throws; eauto. }
  rewrite Hentry. unfold statusOf, errorOf. simpl.
  rewrite !findStudent_updateStudent by done. rewrite Hst. simpl.
  split; [done|]. split; [eauto | done].
Qed.

Lemma task_page_below_one_stops_the_task_witness :
  let s' := processStudentInBackground exampleFiles 1 "Ann"
              ([(1, [1])] ++ (0, [-1; 2]) :: [(2, [2])]) exampleSession in
  (findStudent 1 (students exampleSession) = Some exampleStudent1
   ∧ exampleFiles !! originalPdfPath exampleStudent1 = Some (PdfBytes exampleDoc)
   ∧ Forall entryOk [(1, [1])]
   ∧ canStamp exampleDoc 1 "Ann" [(1, [1])]
   ∧ 0 ≤ 0
   ∧ ∃ p, p ∈ [-1; 2] ∧ 0 < p)
  ∧ statusOf 1 s' = Some error
  ∧ is_Some (errorOf 1 s')
  ∧ problemPages s'
    = fileAll (filedBy exampleDoc 1 "Ann" [(1, [1])]) (problemPages exampleSession).
Proof.
  intros s'.
  assert (findStudent 1 (students exampleSession) = Some exampleStudent1)
    as Hknown by reflexivity.
  assert (exampleFiles !! originalPdfPath exampleStudent1
          = Some (PdfBytes exampleDoc)) as Hfile by reflexivity.
  assert (Forall entryOk [(1, [1])]) as Hbefore
    by (constructor; [left; simpl; lia | constructor]).
  assert (0 ≤ 0) as Hpage by lia.
  assert (∃ p, p ∈ [-1; 2] ∧ 0 < p) as Hnums.
  { exists 2. split; [|lia]. apply list_elem_of_further, list_elem_of_here. }
  assert (canStamp exampleDoc 1 "Ann" [(1, [1])]) as Hstamp
    by (unfold canStamp; repeat constructor).
  split; [done|].
  exact (task_page_below_one_stops_the_task exampleFiles exampleSession 1 "Ann"
           exampleStudent1 exampleDoc [(1, [1])] [(2, [2])] 0 [-1; 2]
           Hknown Hfile Hbefore Hstamp Hpage Hnums).
Defined.

(** X3: when the file of a student of the roster is missing from the disk
    or does not parse as a PDF, the task ends in error with a message
    recorded; no page is filed, the final documents and every other student
    are as before, and the student keeps name, labels and file path. *)
Theorem task_unloadable_document {fonts : StandardFonts}
    (fs : FileSystem) (s : SessionData) (sid : Z) (sname : string)
    (pageLabels0 : PageLabels) (st : StudentData) :
  findStudent sid (students s) = Some st →
  (∀ doc, fs !! originalPdfPath st ≠ Some (PdfBytes doc)) →
  let s' := processStudentInBackground fs sid sname pageLabels0 s in
  statusOf sid s' = Some error
  ∧ is_Some (errorOf sid s')
  ∧ problemPages s' = problemPages s
  ∧ finalPdfs s' = finalPdfs s
  ∧ ∀ other, other ≠ sid →
      findStudent other (students s') = findStudent other (students s).
Proof.
  intros Hst Hfile s'. subst s'.
  destruct (processStudentInBackground_unloadable fs sid sname pageLabels0 s st)
    as [Hstatus Hpages]; [done..|].
  destruct (processStudentInBackground_frame fs sid sname pageLabels0 s)
    as (Hfinal & _ & _ & _ & _ & Hothers).
  split; [done|]. split; [|done].
  destruct (processStudentInBackground_student fs sid sname pageLabels0 s st Hst)
    as (st' & Hst' & _ & _ & _ & _ & Hend).
  unfold statusOf, errorOf in *. rewrite Hst' in *. simpl in *.
  destruct Hend as [[Hc _]|[_ Herr]]; [congruence | done].
Qed.

Lemma task_unloadable_document_witness :
  let s' := processStudentInBackground exampleFiles 2 "Bob" [(1, [1])]
              exampleSession in
  (findStudent 2 (students exampleSession) = Some exampleStudent2
   ∧ ∀ doc, exampleFiles !! originalPdfPath exampleStudent2 ≠ Some (PdfBytes doc))
  ∧ statusOf 2 s' = Some error
  ∧ is_Some (errorOf 2 s')
  ∧ problemPages s' = problemPages exampleSession
  ∧ finalPdfs s' = finalPdfs exampleSession
  ∧ ∀ other, other ≠ 2 →
      findStudent other (students s')
      = findStudent other (students exampleSession).
Proof.
  intros s'.
  assert (findStudent 2 (students exampleSession) = Some exampleStudent2)
    as Hknown by reflexivity.
  assert (∀ doc, exampleFiles !! originalPdfPath exampleStudent2
                 ≠ Some (PdfBytes doc)) as Hfile.
  { intros doc.
    change (Some (RawBytes "not a pdf") ≠ Some (PdfBytes doc)).
    discriminate. }
  split; [done|].
  exact (task_unloadable_document exampleFiles exampleSession 2 "Bob" [(1, [1])]
           exampleStudent2 Hknown Hfile).
Defined.

(** ** What every store of a session satisfies *)
Section Reachable.
Context {fonts : StandardFonts}.
Implicit Types (s : SessionData) (st : Step) (l : list Step).

Lemma finalize_run s :
  (finalize s).2
  = {| students := students s;
       problemPages := problemPages s;
       finalPdfs := (finalRun (problemPages s) (Object_keys (problemPages s))
                       (finalPdfs s)).2 |}.
Proof.
  unfold finalize. rewrite finalizeBody_run.
  by destruct (finalRun _ _ _) as [[e|[]] fp].
Qed.

Lemma sessionInvariant_empty : sessionInvariant emptySession.
Proof.
  split; [|split]; simpl.
  - intros i student. by destruct i.
  - intros p pages. by rewrite lookup_empty.
  - intros p. rewrite lookup_empty. by intros [? ?].
Qed.

Lemma sessionInvariant_step s st :
  sessionInvariant s → sessionInvariant (step s st).
Proof.
  intros (Hids & Hgood & Hfinal). destruct st as [files|req|fs task| |fs]; simpl.
  - split; [apply idsInOrder_newStudents|]. split; simpl.
    + intros p pages. by rewrite lookup_empty.
    + intros p. rewrite lookup_empty. by intros [? ?].
  - unfold label. destruct (findStudent _ _); simpl; [|done].
    split; [|done].
    apply idsInOrder_updateStudent; [done|].
    by apply idsInOrder_updateStudent.
  - unfold runTask.
    destruct (processStudentInBackground_frame fs (taskStudentId task)
                (taskStudentName task) (taskPageLabels task) s)
      as (Hfinal' & Hext & Hgood' & _ & Hids' & _).
    split; [auto|]. split; [auto|].
    intros p. rewrite Hfinal'. intros Hp. apply (Hext p). auto.
  - rewrite finalize_run. simpl. split; [done|]. split; [done|].
    intros p Hp. simpl in *.
    destruct (decide (p ∈ Object_keys (problemPages s))) as [Hin|Hin].
    + by apply elem_of_Object_keys.
    + rewrite finalRun_untouched in Hp by done. auto.
  - apply sessionInvariant_empty.
Qed.

Lemma sessionInvariant_steps l s :
  sessionInvariant s → sessionInvariant (steps l s).
Proof.
  unfold steps. revert s. induction l as [|st l IH]; intros s Hs; simpl; [done|].
  by apply IH, sessionInvariant_step.
Qed.

Lemma sessionInvariant_reachable s : reachable s → sessionInvariant s.
Proof.
  intros [l ->]. apply sessionInvariant_steps, sessionInvariant_empty.
Qed.

Lemma finalPdfs_step_notFinalize s st :
  notFinalize st → finalPdfs s = ∅ → finalPdfs (step s st) = ∅.
Proof.
  intros Hst Hs. destruct st as [files|req|fs task| |fs]; simpl; try done.
  - unfold label. by destruct (findStudent _ _).
  - unfold runTask.
    destruct (processStudentInBackground_frame fs (taskStudentId task)
                (taskStudentName task) (taskPageLabels task) s) as (-> & _).
    done.
Qed.

End Reachable.

(** X4: in every store of a session (reached from the empty store by
    uploads, label submissions, runs of background tasks, finalize and reset
    requests, in any order), the student ids are exactly 1 to the number of
    students: a student is found for an id if and only if the id is in that
    range, the student found carries that id, and the student status
    endpoint answers 404 exactly for the other ids. *)
Theorem reachable_roster_ids {fonts : StandardFonts} (s : SessionData) (k : Z) :
  reachable s →
  (is_Some (findStudent k (students s))
   ↔ 1 ≤ k ≤ Z.of_nat (Status.totalStudents (status s)))
  ∧ (∀ student, findStudent k (students s) = Some student → id student = k)
  ∧ (studentStatus k s = HttpError 404 "Student not found"
     ↔ ¬ (1 ≤ k ≤ Z.of_nat (Status.totalStudents (status s)))).
Proof.
  intros (Hids & _)%sessionInvariant_reachable. simpl.
  assert (is_Some (findStudent k (students s))
          ↔ 1 ≤ k ≤ Z.of_nat (length (students s))) as Hfound.
  { rewrite findStudent_idsInOrder by done. case_decide.
    - rewrite lookup_lt_is_Some. lia.
    - split; [by intros [? ?] | lia]. }
  split; [done|]. split; [apply findStudent_id|].
  rewrite <- Hfound. unfold studentStatus.
  destruct (findStudent k (students s)); split; try done.
  intros Hnot. destruct Hnot. eauto.
Qed.

(** A session of two uploads, one submission and its task. *)
Lemma exampleSteps_reachable :
  reachable
    (steps [StepUpload [mkFile "a.pdf" "/tmp/exam-grader-uploads/pdfs-1.pdf";
                        mkFile "b.pdf" "/tmp/exam-grader-uploads/pdfs-2.pdf"];
            StepLabel {| reqStudentId := 1; reqStudentName := "Ann";
                         reqPageLabels := [(1, [2; 1]); (3, [2])] |};
            StepTask exampleFiles
              {| taskStudentId := 1; taskStudentName := "Ann";
                 taskPageLabels := [(1, [2; 1]); (3, [2])] |}]
       emptySession).
Proof. by eexists. Qed.

Lemma reachable_roster_ids_witness :
  let s := steps [StepUpload [mkFile "a.pdf" "/tmp/exam-grader-uploads/pdfs-1.pdf";
                              mkFile "b.pdf" "/tmp/exam-grader-uploads/pdfs-2.pdf"];
                  StepLabel {| reqStudentId := 1; reqStudentName := "Ann";
                               reqPageLabels := [(1, [2; 1]); (3, [2])] |};
                  StepTask exampleFiles
                    {| taskStudentId := 1; taskStudentName := "Ann";
                       taskPageLabels := [(1, [2; 1]); (3, [2])] |}]
             emptySession in
  reachable s
  ∧ (is_Some (findStudent 3 (students s))
     ↔ 1 ≤ 3 ≤ Z.of_nat (Status.totalStudents (status s)))
  ∧ (∀ student, findStudent 3 (students s) = Some student → id student = 3)
  ∧ (studentStatus 3 s = HttpError 404 "Student not found"
     ↔ ¬ (1 ≤ 3 ≤ Z.of_nat (Status.totalStudents (status s)))).
Proof.
  intros s. split; [apply exampleSteps_reachable|].
  exact (reachable_roster_ids s 3 exampleSteps_reachable).
Defined.



Lemma finalPdfs_steps_notFinalize {fonts : StandardFonts} (l : list Step) (s : SessionData) :
  Forall notFinalize l → finalPdfs s = ∅ → finalPdfs (steps l s) = ∅.
Proof.
  unfold steps. intros Hl. revert s.
  induction Hl as [|st l Hst _ IH]; intros s Hs; simpl; [done|].
  by apply IH, finalPdfs_step_notFinalize.
Qed.

(** X6: in every store of a session, a download that succeeds is the
    download of a positive problem number that has a collection; and as long
    as no finalize request has been made, every download is answered 404. *)
Theorem download_needs_finalize {fonts : StandardFonts} (l : list Step) (p : Z) :
  let s := steps l emptySession in
  (∀ d, download p s = Ok d → 0 < p ∧ is_Some (problemPages s !! p))
  ∧ (Forall notFinalize l →
     download p s = HttpError 404 "Problem PDF not found"
     ∧ Status.isFinalized (status s) = false).
Proof.
  intros s. split.
  - assert (sessionInvariant s) as (_ & Hgood & Hfinal)
      by (apply sessionInvariant_reachable; by eexists).
    intros d. unfold download.
    destruct (finalPdfs s !! p) as [pdfData|] eqn:Hp; [|done].
    intros _. destruct (Hfinal p) as [pages Hpages]; [eauto|].
    split; [|eauto]. by destruct (Hgood p pages Hpages).
  - intros Hl.
    assert (finalPdfs s = ∅) as Hempty
      by (by apply finalPdfs_steps_notFinalize).
    unfold download. simpl. rewrite Hempty. by rewrite lookup_empty.
Qed.

Lemma download_needs_finalize_witness :
  let l := [StepUpload [mkFile "a.pdf" "/tmp/exam-grader-uploads/pdfs-1.pdf"];
            StepLabel {| reqStudentId := 1; reqStudentName := "Ann";
                         reqPageLabels := [(1, [2; 1]); (3, [2])] |};
            StepTask exampleFiles
              {| taskStudentId := 1; taskStudentName := "Ann";
                 taskPageLabels := [(1, [2; 1]); (3, [2])] |}] in
  let s := steps l emptySession in
  Forall notFinalize l
  ∧ (∀ d, download 2 s = Ok d → 0 < 2 ∧ is_Some (problemPages s !! 2))
  ∧ (Forall notFinalize l →
     download 2 s = HttpError 404 "Problem PDF not found"
     ∧ Status.isFinalized (status s) = false).
Proof.
  intros l s. split; [repeat constructor|].
  exact (download_needs_finalize l 2).
Defined.

(** ** Uploading, resetting, reading back *)
Section Uploads.
Implicit Types (files : list UploadedFile) (s : SessionData).

Lemma newStudents_fresh files :
  Forall (λ student, processingStatus student = pending
                     ∧ name student = "" ∧ pageLabels student = [])
    (newStudents files).
Proof.
  apply Forall_forall. intros student Hin.
  apply list_elem_of_lookup in Hin as [i Hi].
  unfold newStudents in Hi. rewrite list_lookup_imap in Hi.
  destruct (files !! i); simpl in Hi; [|done]. by injection Hi as <-.
Qed.

Lemma countStatus_newStudents files st :
  st ≠ pending → countStatus st (newStudents files) = 0%nat.
Proof.
  intros Hst. unfold countStatus. rewrite filter_Forall_nil; [done|].
  eapply Forall_impl; [apply newStudents_fresh|].
  simpl. intros student (-> & _) Heq. by destruct Hst.
Qed.

Lemma countLabeled_newStudents files : countLabeled (newStudents files) = 0%nat.
Proof.
  unfold countLabeled. rewrite filter_Forall_nil; [done|].
  eapply Forall_impl; [apply newStudents_fresh|].
  simpl. intros student (_ & -> & _) [Hname _]. done.
Qed.

Lemma lookup_unlinkAll (l : list StudentData) (fs : FileSystem) (file : string) :
  unlinkAll l fs !! file
  = if decide (file ∈ originalPdfPath <$> l) then None else fs !! file.
Proof.
  unfold unlinkAll. revert fs. induction l as [|st l IH]; intros fs.
  - rewrite decide_False; [done|]. apply not_elem_of_nil.
  - rewrite fmap_cons. cbn [foldl]. rewrite IH. destruct (decide (file ∈ originalPdfPath <$> l)) as [Hin|Hin].
    + rewrite decide_True; [done|]. by apply list_elem_of_further.
    + destruct (decide (file = originalPdfPath st)) as [->|Hne].
      * rewrite decide_True by apply list_elem_of_here.
        apply lookup_delete_eq.
      * rewrite decide_False.
        -- by rewrite lookup_delete_ne.
        -- intros [?|?]%elem_of_cons; done.
Qed.
End Uploads.

(** X7: an upload of [N] files answers [totalStudents = N] and builds the
    roster in upload order: the file at position [i] (from 0) becomes the
    student with id [i + 1], with that file's path, no name, no labels and
    status pending. *)
Theorem upload_roster
    (files : list UploadedFile) (s : SessionData) (i : nat) (file : UploadedFile) :
  files !! i = Some file →
  (∃ message,
     (upload (Some files) s).1
     = Ok {| totalStudents := length files; uploadMessage := message |})
  ∧ findStudent (Z.of_nat i + 1) (students (upload (Some files) s).2)
    = Some {| id := Z.of_nat i + 1; name := "";
              originalPdfPath := path file; pageLabels := [];
              processingStatus := pending; processingError := None |}.
Proof.
  intros Hfile. simpl. split.
  - unfold newStudents. rewrite length_imap. eauto.
  - rewrite findStudent_idsInOrder by apply idsInOrder_newStudents.
    rewrite decide_True by lia.
    replace (Z.to_nat (Z.of_nat i + 1 - 1)) with i by lia.
    unfold newStudents. rewrite list_lookup_imap, Hfile. done.
Qed.

Lemma upload_roster_witness :
  let files := [mkFile "a.pdf" "/tmp/exam-grader-uploads/pdfs-1.pdf";
                mkFile "b.pdf" "/tmp/exam-grader-uploads/pdfs-2.pdf"] in
  files !! 1%nat = Some (mkFile "b.pdf" "/tmp/exam-grader-uploads/pdfs-2.pdf")
  ∧ (∃ message,
       (upload (Some files) exampleSession).1
       = Ok {| totalStudents := length files; uploadMessage := message |})
  ∧ findStudent (Z.of_nat 1 + 1) (students (upload (Some files) exampleSession).2)
    = Some {| id := Z.of_nat 1 + 1; name := "";
              originalPdfPath := "/tmp/exam-grader-uploads/pdfs-2.pdf";
              pageLabels := [];
              processingStatus := pending; processingError := None |}.
Proof.
  intros files.
  assert (files !! 1%nat
          = Some (mkFile "b.pdf" "/tmp/exam-grader-uploads/pdfs-2.pdf"))
    as Hfile by reflexivity.
  split; [done|].
  exact (upload_roster files exampleSession 1
           (mkFile "b.pdf" "/tmp/exam-grader-uploads/pdfs-2.pdf") Hfile).
Defined.

(** X8: an upload replaces the whole session, whatever it held: right after
    it the status reports the new number of students, no labelled,
    processing, completed or error student, no problem, no processed page
    and not finalized, and every download is answered 404. *)
Theorem upload_starts_afresh
    (files : list UploadedFile) (s : SessionData) (p : Z) :
  status (upload (Some files) s).2
  = {| Status.totalStudents := length files;
       Status.labeledStudents := 0;
       Status.processingStudents := 0;
       Status.completedStudents := 0;
       Status.errorStudents := 0;
       Status.problems := [];
       Status.isFinalized := false;
       Status.allProcessingComplete := false;
       Status.tempFilesCount := length files;
       Status.processedPagesCount := 0 |}
  ∧ download p (upload (Some files) s).2 = HttpError 404 "Problem PDF not found".
Proof.
  split; [|done]. unfold status. simpl.
  rewrite !countStatus_newStudents by done.
  rewrite countLabeled_newStudents.
  unfold newStudents. rewrite length_imap. done.
Qed.

(** X9: a reset empties the session and unlinks the files of its students
    and only those: afterwards the status reports nothing, no student and
    no final document can be fetched, and a path of the disk is gone if it
    was the file of a student and is untouched otherwise. *)
Theorem reset_wipes_session_and_files {http : Node.Http}
    (fs : FileSystem) (s : SessionData) (k p : Z) (file : string) :
  let after := (reset fs s).2 in
  let disk := (reset fs s).1.2 in
  status after
  = {| Status.totalStudents := 0;
       Status.labeledStudents := 0;
       Status.processingStudents := 0;
       Status.completedStudents := 0;
       Status.errorStudents := 0;
       Status.problems := [];
       Status.isFinalized := false;
       Status.allProcessingComplete := false;
       Status.tempFilesCount := 0;
       Status.processedPagesCount := 0 |}
  ∧ getStudent disk k after = HttpError 404 "Student not found"
  ∧ download p after = HttpError 404 "Problem PDF not found"
  ∧ disk !! file
    = if decide (file ∈ originalPdfPath <$> students s) then None
      else fs !! file.
Proof.
  intros after disk. split; [done|]. split; [done|]. split; [done|].
  apply lookup_unlinkAll.
Qed.

(** X10: the three counts of the status (processing, completed, error)
    together with the pending students make up the total, and the labelled
    students are never more than the total. *)
Theorem status_counts_partition (s : SessionData) :
  (Status.processingStudents (status s) + Status.completedStudents (status s)
   + Status.errorStudents (status s) + pendingStudents s
   = Status.totalStudents (status s))%nat
  ∧ (Status.labeledStudents (status s) ≤ Status.totalStudents (status s))%nat.
Proof.
  unfold pendingStudents. simpl. split.
  - unfold countStatus. induction (students s) as [|st l IH]; [done|].
    rewrite !filter_cons. simpl.
    destruct (processingStatus st); simpl;
      repeat (rewrite decide_True by done || rewrite decide_False by done);
      simpl; lia.
  - unfold countLabeled. apply length_filter.
Qed.

(** X11: for a student of the roster whose file is on the disk, what the
    student endpoint returns after a label submission is, when the HTTP
    module accepts the submitted name as a header value, the file's bytes
    with the name and label assignment just submitted, and otherwise the
    answer 500; and it returns the same once the background task has run,
    whether the task completed or failed. *)
Theorem getStudent_after_submission {http : Node.Http} {fonts : StandardFonts}
    (fs : FileSystem) (s : SessionData) (req : LabelRequest)
    (st : StudentData) (buffer : Buffer) :
  findStudent (reqStudentId req) (students s) = Some st →
  fs !! originalPdfPath st = Some buffer →
  let answer :=
    if Node.checkInvalidHeaderChar (reqStudentName req)
    then HttpError 500 "Failed to get student PDF"
    else Ok {| xStudentId := reqStudentId req;
               xStudentName := reqStudentName req;
               xPageLabels := reqPageLabels req;
               fileBuffer := buffer |} in
  getStudent fs (reqStudentId req) (label req s).1.2 = answer
  ∧ getStudent fs (reqStudentId req) (submit fs req s) = answer.
Proof.
  intros Hst Hfile answer. subst answer.
  pose proof (findStudent_id _ _ _ Hst) as Hid.
  assert (findStudent (reqStudentId req) (students (label req s).1.2)
          = Some (setStatus processing
                    (setNameAndLabels (reqStudentName req) (reqPageLabels req)
                       st)))
    as Hlabelled.
  { rewrite (label_known_student req s st Hst). simpl.
    rewrite !findStudent_updateStudent by done. by rewrite Hst. }
  split.
  - unfold getStudent, setHeader. rewrite Hlabelled. simpl.
    unfold readFile. rewrite Hfile.
    destruct (Node.checkInvalidHeaderChar (reqStudentName req)); [done|].
    by rewrite Hid.
  - destruct (processStudentInBackground_student fs (reqStudentId req)
                (reqStudentName req) (reqPageLabels req) _ _ Hlabelled)
      as (st' & Hst' & Hid' & Hname & Hpath & Hlabels & _).
    unfold submit. rewrite (label_known_student req s st Hst) in *.
    unfold runTask. simpl in *.
    unfold getStudent, setHeader. rewrite Hst'. simpl in *.
    rewrite Hpath, Hname. unfold readFile. rewrite Hfile.
    destruct (Node.checkInvalidHeaderChar (reqStudentName req)); [done|].
    by rewrite Hid', Hlabels, Hid.
Qed.

Lemma getStudent_after_submission_witness :
  let req := {| reqStudentId := 2; reqStudentName := "Bob";
                reqPageLabels := [(1, [1]); (2, [-1])] |} in
  let answer := Ok {| xStudentId := 2; xStudentName := "Bob";
                      xPageLabels := [(1, [1]); (2, [-1])];
                      fileBuffer := RawBytes "not a pdf" |} in
  let refused := {| reqStudentId := 2; reqStudentName := "Łukasz";
                    reqPageLabels := [(1, [1])] |} in
  (findStudent 2 (students exampleSession) = Some exampleStudent2
   ∧ exampleFiles !! originalPdfPath exampleStudent2 = Some (RawBytes "not a pdf")
   ∧ getStudent exampleFiles 2 (label refused exampleSession).1.2
     = HttpError 500 "Failed to get student PDF")
  ∧ getStudent exampleFiles 2 (label req exampleSession).1.2 = answer
  ∧ getStudent exampleFiles 2 (submit exampleFiles req exampleSession) = answer.
Proof.
  intros req answer.
  assert (findStudent (reqStudentId req) (students exampleSession)
          = Some exampleStudent2) as Hknown by reflexivity.
  assert (exampleFiles !! originalPdfPath exampleStudent2
          = Some (RawBytes "not a pdf")) as Hfile by reflexivity.
  split; [repeat split; reflexivity|].
  exact (getStudent_after_submission exampleFiles exampleSession req
           exampleStudent2 (RawBytes "not a pdf") Hknown Hfile).
Defined.

(** * More of the sorting page *)

(** ** The five label handlers, one page at a time *)
Section HandlerFacts.
Implicit Types (m : gmap Z (list Z)) (l : list Z) (page p : Z).

Lemma currentProblemsOf_insert m page l :
  currentProblemsOf (<[page := l]> m) page = l.
Proof. unfold currentProblemsOf. by rewrite lookup_insert_eq. Qed.

Lemma currentProblemsOf_store m page l :
  currentProblemsOf (store page l m) page = l.
Proof.
  unfold store, currentProblemsOf. case_bool_decide as Hl.
  - rewrite lookup_delete_eq. by destruct l.
  - by rewrite lookup_insert_eq.
Qed.

Lemma currentProblemsOf_store_ne m page q l :
  page ≠ q → store page l m !! q = m !! q.
Proof.
  intros Hne. unfold store. case_bool_decide.
  - by rewrite lookup_delete_ne.
  - by rewrite lookup_insert_ne.
Qed.

Lemma store_store m page l l' : store page l (store page l' m) = store page l m.
Proof.
  unfold store. repeat case_bool_decide.
  - by rewrite delete_delete_eq.
  - by rewrite delete_insert_eq.
  - by rewrite insert_delete_eq.
  - by rewrite insert_insert_eq.
Qed.

(** Storing the list a page has changes nothing, unless the page was held
    with an empty list. *)
Lemma store_current m page :
  m !! page ≠ Some [] → store page (currentProblemsOf m page) m = m.
Proof.
  intros Hne. unfold store, currentProblemsOf.
  destruct (m !! page) as [l|] eqn:Hl; simpl.
  - case_bool_decide as Hlen.
    + destruct l; [done | simpl in Hlen; lia].
    + by apply insert_id.
  - by apply delete_id.
Qed.

Lemma handleKeyboardPageLabel_store page p m :
  0 < p →
  sentinel ∉ currentProblemsOf m page →
  handleKeyboardPageLabel page p m
  = store page (currentProblemsOf m page ++ [p]) m.
Proof.
  intros Hp Hs. rewrite handleKeyboardPageLabel_positive by done.
  unfold store. rewrite bool_decide_eq_false_2; [done|].
  rewrite length_app. simpl. lia.
Qed.

Lemma lastIndexOf_None x l : lastIndexOf x l = None ↔ x ∉ l.
Proof.
  induction l as [|y l IH]; simpl.
  - split; [intros _; apply not_elem_of_nil | done].
  - destruct (lastIndexOf x l) as [i|].
    + split; [done|]. intros Hnot. exfalso.
      assert (x ∉ l) as Hl by (intros ?; apply Hnot; by right).
      by apply IH in Hl.
    + case_bool_decide as Hy.
      * split; [done|]. intros Hnot. destruct Hnot. subst. by left.
      * split; [|done]. intros _ [?|Hin]%elem_of_cons; [by subst|].
        by apply (proj1 IH).
Qed.

(** [lastIndexOf] finds the last occurrence. *)
Lemma lastIndexOf_Some x l i :
  lastIndexOf x l = Some i →
  ∃ l1 l2, l = l1 ++ x :: l2 ∧ length l1 = i ∧ x ∉ l2.
Proof.
  revert i. induction l as [|y l IH]; intros i; simpl; [done|].
  destruct (lastIndexOf x l) as [j|] eqn:Hj.
  - intros [= <-]. destruct (IH j eq_refl) as (l1 & l2 & -> & <- & Hl2).
    by exists (y :: l1), l2.
  - case_bool_decide as Hy; [|done]. intros [= <-]. subst y.
    exists [], l. split; [done|]. split; [done|]. by apply lastIndexOf_None.
Qed.

Lemma lastIndexOf_snoc x l : lastIndexOf x (l ++ [x]) = Some (length l).
Proof.
  induction l as [|y l IH]; simpl.
  - by rewrite bool_decide_eq_true_2.
  - by rewrite IH.
Qed.

(** The keyboard add of a positive number is undone by either undo. *)
Lemma undo_keyboard_add page p m :
  0 < p →
  sentinel ∉ currentProblemsOf m page →
  m !! page ≠ Some [] →
  handleRemoveLastLabel page (handleKeyboardPageLabel page p m) = m
  ∧ handleRemoveLastInstancePageLabel page p (handleKeyboardPageLabel page p m) = m.
Proof.
  intros Hp Hs Hne. rewrite handleKeyboardPageLabel_store by done.
  unfold handleRemoveLastLabel, handleRemoveLastInstancePageLabel.
  rewrite currentProblemsOf_store. split.
  - rewrite bool_decide_eq_true_2 by (rewrite length_app; simpl; lia).
    rewrite removelast_last, store_store. by apply store_current.
  - rewrite lastIndexOf_snoc.
    rewrite (delete_middle (currentProblemsOf m page) [] p), app_nil_r.
    rewrite store_store. by apply store_current.
Qed.
End HandlerFacts.

(** ** Tidy label assignments *)
Section Tidy.
Implicit Types (m : gmap Z (list Z)) (l : list Z) (page p : Z).

Lemma tidy_empty : tidy ∅.
Proof. intros page l. by rewrite lookup_empty. Qed.

Lemma tidy_current m page :
  tidy m →
  NoDup (currentProblemsOf m page) ∧ unmixed (currentProblemsOf m page)
  ∧ m !! page ≠ Some [].
Proof.
  intros Hm. unfold currentProblemsOf.
  destruct (m !! page) as [l|] eqn:Hl; simpl.
  - destruct (Hm page l Hl) as (Hne & Hdup & Hmix).
    split; [done|]. split; [done|]. by intros [= ->].
  - split; [apply NoDup_nil_2|]. split; [apply unmixed_nil | done].
Qed.

Lemma tidy_insert m page l :
  l ≠ [] → NoDup l → unmixed l → tidy m → tidy (<[page := l]> m).
Proof.
  intros Hne Hdup Hmix Hm q l'. destruct (decide (page = q)) as [->|Hq].
  - rewrite lookup_insert_eq. by intros [= <-].
  - rewrite lookup_insert_ne by done. apply Hm.
Qed.

Lemma tidy_delete m page : tidy m → tidy (delete page m).
Proof.
  intros Hm q l'. destruct (decide (page = q)) as [->|Hq].
  - by rewrite lookup_delete_eq.
  - rewrite lookup_delete_ne by done. apply Hm.
Qed.

Lemma tidy_store m page l :
  NoDup l → unmixed l → tidy m → tidy (store page l m).
Proof.
  intros Hdup Hmix Hm. unfold store. case_bool_decide as Hlen.
  - by apply tidy_delete.
  - apply tidy_insert; try done. intros ->. by apply Hlen.
Qed.

(** A list cut out of a page's list can be stored. *)
Lemma tidy_store_sublist m page l :
  l `sublist_of` currentProblemsOf m page → tidy m → tidy (store page l m).
Proof.
  intros Hsub Hm. destruct (tidy_current m page Hm) as (Hdup & Hmix & _).
  apply tidy_store; [|by eapply unmixed_sublist|done].
  by eapply sublist_NoDup.
Qed.

Lemma tidy_sentinel m page : tidy m → tidy (<[page := [-1]]> m).
Proof.
  apply tidy_insert; [done | apply NoDup_singleton | apply unmixed_sentinel].
Qed.

Lemma tidy_snoc m page p :
  0 < p →
  sentinel ∉ currentProblemsOf m page →
  p ∉ currentProblemsOf m page →
  tidy m →
  tidy (<[page := currentProblemsOf m page ++ [p]]> m).
Proof.
  intros Hp Hs Hnew Hm. destruct (tidy_current m page Hm) as (Hdup & _ & _).
  apply tidy_insert; [by destruct (currentProblemsOf m page) | |
                      by apply unmixed_snoc | done].
  apply NoDup_app. split; [done|]. split; [|apply NoDup_singleton].
  intros x Hx ->%list_elem_of_singleton. done.
Qed.

Lemma tidy_handlePageLabel page p m : tidy m → tidy (handlePageLabel page p m).
Proof.
  intros Hm. unfold handlePageLabel.
  case_bool_decide; [by apply tidy_sentinel|].
  destruct (Z.ltb_spec 0 p); [|done].
  destruct (includes (-1) _) eqn:Hs; simpl; [done|].
  destruct (includes p _) eqn:Hp; simpl; [done|].
  apply tidy_snoc; try done; by apply includes_false.
Qed.

(** The keyboard add keeps the labels tidy when it adds a number the page
    does not hold. *)
Lemma tidy_handleKeyboardPageLabel page p m :
  p = -1 ∨ p ∉ currentProblemsOf m page →
  tidy m → tidy (handleKeyboardPageLabel page p m).
Proof.
  intros Hnew Hm. unfold handleKeyboardPageLabel.
  case_bool_decide as Hp; [by apply tidy_sentinel|].
  destruct (Z.ltb_spec 0 p); [|done].
  destruct (includes (-1) _) eqn:Hs; simpl; [done|].
  destruct Hnew as [?|Hnew]; [done|].
  apply tidy_snoc; try done. by apply includes_false.
Qed.

Lemma tidy_handleRemovePageLabel page p m :
  tidy m → tidy (handleRemovePageLabel page p m).
Proof.
  intros Hm. unfold handleRemovePageLabel.
  apply tidy_store_sublist; [apply sublist_filter | done].
Qed.

Lemma tidy_handleRemoveLastInstancePageLabel page p m :
  tidy m → tidy (handleRemoveLastInstancePageLabel page p m).
Proof.
  intros Hm. unfold handleRemoveLastInstancePageLabel.
  destruct (lastIndexOf p _); [|done].
  apply tidy_store_sublist; [apply sublist_delete | done].
Qed.

Lemma tidy_handleRemoveLastLabel page m :
  tidy m → tidy (handleRemoveLastLabel page m).
Proof.
  intros Hm. unfold handleRemoveLastLabel. case_bool_decide; [|done].
  apply tidy_store_sublist; [|done].
  rewrite removelast_firstn_len. apply sublist_take.
Qed.

Lemma noEmptyEntry_store m page l :
  noEmptyEntry m → noEmptyEntry (store page l m).
Proof.
  intros Hm q l'. unfold store. case_bool_decide as Hlen.
  - destruct (decide (page = q)) as [->|Hq].
    + by rewrite lookup_delete_eq.
    + rewrite lookup_delete_ne by done. apply Hm.
  - destruct (decide (page = q)) as [->|Hq].
    + rewrite lookup_insert_eq. intros [= <-] ->. by apply Hlen.
    + rewrite lookup_insert_ne by done. apply Hm.
Qed.

Lemma noEmptyEntry_insert m page l :
  l ≠ [] → noEmptyEntry m → noEmptyEntry (<[page := l]> m).
Proof.
  intros Hl Hm q l'. destruct (decide (page = q)) as [->|Hq].
  - rewrite lookup_insert_eq. by intros [= <-].
  - rewrite lookup_insert_ne by done. apply Hm.
Qed.

Lemma noEmptyEntry_applyOp m op : noEmptyEntry m → noEmptyEntry (applyOp m op).
Proof.
  intros Hm. destruct op as [page p|page p|page p|page p|page]; simpl.
  - unfold handlePageLabel. case_bool_decide; [by apply noEmptyEntry_insert|].
    destruct (0 <? p); [|done]. destruct (_ && _); [|done].
    apply noEmptyEntry_insert; [|done]. by destruct (currentProblemsOf m page).
  - unfold handleKeyboardPageLabel.
    case_bool_decide; [by apply noEmptyEntry_insert|].
    destruct (0 <? p); [|done]. destruct (negb _); [|done].
    apply noEmptyEntry_insert; [|done]. by destruct (currentProblemsOf m page).
  - by apply noEmptyEntry_store.
  - unfold handleRemoveLastInstancePageLabel.
    destruct (lastIndexOf p _); [|done]. by apply noEmptyEntry_store.
  - unfold handleRemoveLastLabel. case_bool_decide; [|done].
    by apply noEmptyEntry_store.
Qed.
End Tidy.

(** X12: starting from the empty label assignment, no sequence of button
    adds, keyboard adds and removes ever leaves a page stored with an empty
    list: the remove that takes the last label of a page deletes the page's
    entry, so the pages with an entry are exactly the labelled pages. *)
Theorem no_empty_entry (ops : list LabelOp) (page : Z) :
  noEmptyEntry (applyOps ops ∅)
  ∧ (is_Some (applyOps ops ∅ !! page)
     ↔ currentProblemsOf (applyOps ops ∅) page ≠ []).
Proof.
  assert (noEmptyEntry (applyOps ops ∅)) as Hno.
  { unfold applyOps.
    assert (noEmptyEntry (∅ : gmap Z (list Z))) as Hempty
      by (intros q l; by rewrite lookup_empty).
    revert Hempty. generalize (∅ : gmap Z (list Z)).
    induction ops as [|op ops IH]; intros m Hm; simpl; [done|].
    by apply IH, noEmptyEntry_applyOp. }
  split; [done|]. unfold currentProblemsOf.
  destruct (applyOps ops ∅ !! page) as [l|] eqn:Hl; simpl.
  - split; [intros _; by apply (Hno page) | eauto].
  - split; [by intros [? ?] | done].
Qed.

(** ** Removing labels *)

(** X13: the remove of a label removes every occurrence of it from the page
    and keeps the other labels in their order; the remove of the last
    instance removes exactly the last occurrence, and changes nothing when
    the page does not hold the label. Neither touches another page. *)
Theorem remove_handlers (m : gmap Z (list Z)) (page p other : Z) :
  other ≠ page →
  (currentProblemsOf (handleRemovePageLabel page p m) page
   = filter (λ q, q ≠ p) (currentProblemsOf m page)
   ∧ handleRemovePageLabel page p m !! other = m !! other)
  ∧ (p ∉ currentProblemsOf m page →
     handleRemoveLastInstancePageLabel page p m = m)
  ∧ (p ∈ currentProblemsOf m page →
     ∃ l1 l2,
       currentProblemsOf m page = l1 ++ p :: l2
       ∧ (p ∉ l2)
       ∧ currentProblemsOf (handleRemoveLastInstancePageLabel page p m) page
         = l1 ++ l2)
  ∧ handleRemoveLastInstancePageLabel page p m !! other = m !! other.
Proof.
  intros Hother. split; [|split; [|split]].
  - unfold handleRemovePageLabel. rewrite currentProblemsOf_store.
    split; [done|]. by apply currentProblemsOf_store_ne.
  - intros Hnot%lastIndexOf_None.
    unfold handleRemoveLastInstancePageLabel. by rewrite Hnot.
  - intros Hin. unfold handleRemoveLastInstancePageLabel.
    destruct (lastIndexOf p (currentProblemsOf m page)) as [i|] eqn:Hi.
    + destruct (lastIndexOf_Some _ _ _ Hi) as (l1 & l2 & Hl & <- & Hl2).
      exists l1, l2. split; [done|]. split; [done|].
      rewrite currentProblemsOf_store, Hl. apply delete_middle.
    + by apply lastIndexOf_None in Hi.
  - unfold handleRemoveLastInstancePageLabel.
    destruct (lastIndexOf p _); [|done]. by apply currentProblemsOf_store_ne.
Qed.

Lemma remove_handlers_witness :
  let m : gmap Z (list Z) := {[ 1 := [2; 3; 2; 4]; 2 := [5] ]} in
  2 ≠ 1
  ∧ (currentProblemsOf (handleRemovePageLabel 1 2 m) 1
     = filter (λ q, q ≠ 2) (currentProblemsOf m 1)
     ∧ handleRemovePageLabel 1 2 m !! 2 = m !! 2)
  ∧ (2 ∉ currentProblemsOf m 1 →
     handleRemoveLastInstancePageLabel 1 2 m = m)
  ∧ (2 ∈ currentProblemsOf m 1 →
     ∃ l1 l2,
       currentProblemsOf m 1 = l1 ++ 2 :: l2
       ∧ (2 ∉ l2)
       ∧ currentProblemsOf (handleRemoveLastInstancePageLabel 1 2 m) 1
         = l1 ++ l2)
  ∧ handleRemoveLastInstancePageLabel 1 2 m !! 2 = m !! 2.
Proof.
  intros m. assert (2 ≠ 1) as Hother by lia.
  split; [done|]. exact (remove_handlers m 1 2 2 Hother).
Defined.

(** X14: a keyboard add of a positive number is undone exactly by the
    backspace (remove the last label) and by the remove of the last
    instance of that number: the label assignment is again what it was,
    provided the page does not hold the sentinel and is not stored with an
    empty list. *)
Theorem keyboard_add_undone (m : gmap Z (list Z)) (page p : Z) :
  0 < p →
  sentinel ∉ currentProblemsOf m page →
  m !! page ≠ Some [] →
  handleRemoveLastLabel page (handleKeyboardPageLabel page p m) = m
  ∧ handleRemoveLastInstancePageLabel page p (handleKeyboardPageLabel page p m) = m.
Proof. apply undo_keyboard_add. Qed.

Lemma keyboard_add_undone_witness :
  let m : gmap Z (list Z) := {[ 1 := [2; 3] ]} in
  (0 < 3 ∧ (sentinel ∉ currentProblemsOf m 1) ∧ m !! 1 ≠ Some [])
  ∧ handleRemoveLastLabel 1 (handleKeyboardPageLabel 1 3 m) = m
  ∧ handleRemoveLastInstancePageLabel 1 3 (handleKeyboardPageLabel 1 3 m) = m.
Proof.
  intros m.
  assert (0 < 3) as Hp by lia.
  assert (sentinel ∉ currentProblemsOf m 1) as Hs.
  { change (-1 ∉ [2; 3]). intros [?|[?|?%elem_of_nil]%elem_of_cons]%elem_of_cons;
      [lia | lia | done]. }
  assert (m !! 1 ≠ Some []) as Hne by (change (Some [2; 3] ≠ Some []); discriminate).
  split; [done|]. exact (keyboard_add_undone m 1 3 Hp Hs Hne).
Defined.

(** ** The buttons of the page labeler *)
Section Buttons.
Implicit Types (m : gmap Z (list Z)) (page p : Z).

Lemma handleRemovePageLabel_store page p l m :
  handleRemovePageLabel page p (store page l m)
  = store page (filter (λ q, q ≠ p) l) m.
Proof.
  unfold handleRemovePageLabel.
  by rewrite currentProblemsOf_store, store_store.
Qed.

Lemma clear_fold page (rest l : list Z) m :
  (∀ x, x ∈ l → x ∈ rest) →
  foldl (λ acc problemNum, handleRemovePageLabel page problemNum acc)
    (store page l m) rest
  = delete page m.
Proof.
  revert l. induction rest as [|p rest IH]; intros l Hl; simpl.
  - destruct l as [|x l]; [done|]. by destruct (not_elem_of_nil x); apply Hl; left.
  - rewrite handleRemovePageLabel_store. apply IH.
    intros x [Hx Hin]%list_elem_of_filter.
    apply Hl in Hin. apply elem_of_cons in Hin as [?|?]; done.
Qed.
End Buttons.

(** X15: on a page that does not hold the positive number [p] and is not
    stored with an empty list, clicking the quick button of [p] twice gives
    back the label assignment as it was. *)
Theorem quick_button_twice (m : gmap Z (list Z)) (page p : Z) :
  0 < p →
  p ∉ currentProblemsOf m page →
  m !! page ≠ Some [] →
  PageLabeler.handleQuickLabel page p (PageLabeler.handleQuickLabel page p m) = m.
Proof.
  intros Hp Hnew Hne. unfold PageLabeler.handleQuickLabel at 2.
  rewrite (proj2 (includes_false _ _) Hnew).
  destruct (decide (sentinel ∈ currentProblemsOf m page)) as [Hs|Hs].
  - destruct (add_positive_on_sentinel page p m Hp Hs) as [-> _].
    unfold PageLabeler.handleQuickLabel.
    rewrite (proj2 (includes_false _ _) Hnew).
    by destruct (add_positive_on_sentinel page p m Hp Hs) as [-> _].
  - assert (handlePageLabel page p m
            = store page (currentProblemsOf m page ++ [p]) m) as ->.
    { rewrite <- handleKeyboardPageLabel_store by done.
      unfold handlePageLabel, handleKeyboardPageLabel.
      by rewrite (proj2 (includes_false _ _) Hnew), andb_true_r. }
    unfold PageLabeler.handleQuickLabel.
    rewrite currentProblemsOf_store.
    rewrite (proj2 (includes_true p _)) by set_solver.
    rewrite handleRemovePageLabel_store.
    rewrite filter_app, filter_cons, filter_nil.
    rewrite decide_False by (intros H; by apply H).
    rewrite app_nil_r, filter_Forall_id.
    + by apply store_current.
    + apply Forall_forall. intros x Hx ->. done.
Qed.

Lemma quick_button_twice_witness :
  let m : gmap Z (list Z) := {[ 1 := [2; 3] ]} in
  (0 < 4 ∧ (4 ∉ currentProblemsOf m 1) ∧ m !! 1 ≠ Some [])
  ∧ PageLabeler.handleQuickLabel 1 4 (PageLabeler.handleQuickLabel 1 4 m) = m.
Proof.
  intros m.
  assert (0 < 4) as Hp by lia.
  assert (4 ∉ currentProblemsOf m 1) as Hnew.
  { change (4 ∉ [2; 3]). intros [?|[?|?%elem_of_nil]%elem_of_cons]%elem_of_cons;
      [lia | lia | done]. }
  assert (m !! 1 ≠ Some []) as Hne by (change (Some [2; 3] ≠ Some []); discriminate).
  split; [done|]. exact (quick_button_twice m 1 4 Hp Hnew Hne).
Defined.

(** X16: 'Not a problem' does not toggle back. On a page that does not hold
    the sentinel, the first click replaces the page's labels by the
    sentinel and the second click removes the sentinel, so after two clicks
    the page has no label at all, whatever it held. 'Clear all labels' on a
    page not stored with an empty list removes the page's entry, and
    neither changes another page. *)
Theorem not_a_problem_twice_and_clear (m : gmap Z (list Z)) (page : Z) :
  (sentinel ∉ currentProblemsOf m page →
   PageLabeler.handleNotAProblem page (PageLabeler.handleNotAProblem page m)
   = delete page m)
  ∧ (m !! page ≠ Some [] → PageLabeler.handleClearLabel page m = delete page m).
Proof.
  split.
  - intros Hs. unfold sentinel in Hs.
    unfold PageLabeler.handleNotAProblem at 2.
    unfold PageLabeler.NOT_A_PROBLEM.
    rewrite (proj2 (includes_false _ _) Hs), handlePageLabel_sentinel.
    unfold PageLabeler.handleNotAProblem, PageLabeler.NOT_A_PROBLEM.
    rewrite currentProblemsOf_insert.
    rewrite (proj2 (includes_true (-1) [-1])) by apply list_elem_of_here.
    unfold handleRemovePageLabel. rewrite currentProblemsOf_insert.
    rewrite filter_cons, filter_nil, decide_False by (intros H; by apply H).
    unfold store. simpl. apply delete_insert_eq.
  - intros Hne. unfold PageLabeler.handleClearLabel.
    rewrite <- (store_current m page Hne) at 1.
    by apply clear_fold.
Qed.

Lemma not_a_problem_twice_and_clear_witness :
  let m : gmap Z (list Z) := {[ 1 := [2; 3]; 2 := [7] ]} in
  ((sentinel ∉ currentProblemsOf m 1) ∧ m !! 1 ≠ Some [])
  ∧ (sentinel ∉ currentProblemsOf m 1 →
     PageLabeler.handleNotAProblem 1 (PageLabeler.handleNotAProblem 1 m)
     = delete 1 m)
  ∧ (m !! 1 ≠ Some [] → PageLabeler.handleClearLabel 1 m = delete 1 m).
Proof.
  intros m.
  assert (sentinel ∉ currentProblemsOf m 1) as Hs.
  { change (-1 ∉ [2; 3]). intros [?|[?|?%elem_of_nil]%elem_of_cons]%elem_of_cons;
      [lia | lia | done]. }
  assert (m !! 1 ≠ Some []) as Hne by (change (Some [2; 3] ≠ Some []); discriminate).
  split; [done|]. exact (not_a_problem_twice_and_clear m 1).
Defined.

(** ** The keyboard *)
Section Keyboard.
Implicit Types (v : Keys.View) (m : gmap Z (list Z)) (d : Keys.Digit).

Lemma handleRemoveLastInstancePageLabel_sublist page p m :
  currentProblemsOf (handleRemoveLastInstancePageLabel page p m) page
    `sublist_of` currentProblemsOf m page.
Proof.
  unfold handleRemoveLastInstancePageLabel.
  destruct (lastIndexOf p _); [|done].
  rewrite currentProblemsOf_store. apply sublist_delete.
Qed.

Lemma tidy_addCombination page last d wasNew m :
  tidy m → tidy (Keys.addCombination page last d wasNew m).
Proof.
  intros Hm. unfold Keys.addCombination.
  destruct (includes _ _) eqn:Hc; simpl; [done|].
  apply includes_false in Hc.
  apply tidy_handleKeyboardPageLabel.
  - right. destruct wasNew; [|done].
    intros Hin. apply Hc.
    eapply elem_of_sublist; [exact Hin|].
    apply handleRemoveLastInstancePageLabel_sublist.
  - destruct wasNew; [|done].
    by apply tidy_handleRemoveLastInstancePageLabel.
Qed.

Lemma tidy_handleDigit d now v :
  tidy (Keys.labels v) → tidy (Keys.labels (Keys.handleDigit d now v)).
Proof.
  intros Hv. unfold Keys.handleDigit.
  destruct (Keys.withinWindow now (Keys.keyState v)) as [last|].
  - simpl. by apply tidy_addCombination.
  - destruct d; simpl; try done;
      (destruct (includes _ _) eqn:Hn; [done|];
       apply tidy_handleKeyboardPageLabel; [|done];
       right; by apply includes_false).
Qed.

Lemma labels_goToPage page v : Keys.labels (Keys.goToPage page v) = Keys.labels v.
Proof. unfold Keys.goToPage. by case_bool_decide. Qed.

Lemma tidy_handleClearLabel page m :
  tidy m → tidy (PageLabeler.handleClearLabel page m).
Proof.
  unfold PageLabeler.handleClearLabel.
  generalize (currentProblemsOf m page). intros l. revert m.
  induction l as [|p l IH]; intros m Hm; simpl; [done|].
  by apply IH, tidy_handleRemovePageLabel.
Qed.

Lemma tidy_handleEvent v e :
  tidy (Keys.labels v) → tidy (Keys.labels (Keys.handleEvent v e)).
Proof.
  intros Hv. destruct e as [key now| |p| |c| |p|page]; simpl.
  - destruct key as [d| | | | |]; simpl.
    + by apply tidy_handleDigit.
    + destruct (1 <? _); [by rewrite labels_goToPage | done].
    + destruct (_ <? _); [by rewrite labels_goToPage | done].
    + by apply tidy_handleRemoveLastLabel.
    + apply tidy_handleKeyboardPageLabel; [by left | done].
    + done.
  - unfold Keys.timerFired. by destruct (Keys.lastAddedTimeout _).
  - unfold PageLabeler.handleQuickLabel. destruct (includes _ _).
    + by apply tidy_handleRemovePageLabel.
    + by apply tidy_handlePageLabel.
  - unfold PageLabeler.handleNotAProblem. destruct (includes _ _).
    + by apply tidy_handleRemovePageLabel.
    + by apply tidy_handlePageLabel.
  - unfold PageLabeler.handleCustomLabel. destruct c as [n|]; [|done].
    destruct (0 <? n); [|done]. by apply tidy_handlePageLabel.
  - by apply tidy_handleClearLabel.
  - by apply tidy_handleRemovePageLabel.
  - by rewrite labels_goToPage.
Qed.
End Keyboard.

(** X17: whatever the operator does on the sorting page (key presses at any
    times, the two-digit timer firing, the quick, custom, 'not a problem'
    and clear buttons, the chips' delete, page changes), a label assignment
    that is tidy stays tidy: no page is stored with an empty list, no page
    holds a number twice, and no page holds the sentinel beside a positive
    number. In particular the keyboard, whose add handler does not
    deduplicate, never produces a duplicate: it checks before it adds. *)
Theorem sorting_page_keeps_labels_tidy (es : list Keys.Event) (v : Keys.View) :
  tidy (Keys.labels v) → tidy (Keys.labels (Keys.handleEvents es v)).
Proof.
  unfold Keys.handleEvents. revert v.
  induction es as [|e es IH]; intros v Hv; simpl; [done|].
  by apply IH, tidy_handleEvent.
Qed.

Lemma sorting_page_keeps_labels_tidy_witness :
  let es := [Keys.Press (Keys.KeyDigit Keys.D1) 1000;
             Keys.Press (Keys.KeyDigit Keys.D2) 1300;
             Keys.Press (Keys.KeyDigit Keys.D1) 5000;
             Keys.TimerFired;
             Keys.Press (Keys.KeyDigit Keys.D1) 9000;
             Keys.ClickQuick 3;
             Keys.Press Keys.ArrowRight 9500;
             Keys.Press Keys.Space 9600;
             Keys.Press (Keys.KeyDigit Keys.D4) 9700] in
  (tidy (Keys.labels (Keys.initialView 3))
   ∧ Keys.labels (Keys.handleEvents es (Keys.initialView 3))
     = {[ 1 := [12; 1; 3]; 2 := [-1] ]})
  ∧ tidy (Keys.labels (Keys.handleEvents es (Keys.initialView 3))).
Proof.
  intros es.
  assert (tidy (Keys.labels (Keys.initialView 3))) as Hinit by apply tidy_empty.
  split; [split; [done | reflexivity]|].
  exact (sorting_page_keeps_labels_tidy es (Keys.initialView 3) Hinit).
Defined.

Lemma digitValue_range (d : Keys.Digit) :
  0 ≤ Keys.digitValue d ≤ 9 ∧ (d ≠ Keys.D0 → 1 ≤ Keys.digitValue d).
Proof. destruct d; simpl; split; try lia; intros H; by try lia. Qed.

(** The press of a first digit with no digit pending. *)
Lemma handleDigit_first (d : Keys.Digit) (now : Z) (v : Keys.View) :
  Keys.lastAddedProblem (Keys.keyState v) = None →
  d ≠ Keys.D0 →
  Keys.handleDigit d now v
  = {| Keys.currentPage := Keys.currentPage v;
       Keys.totalPages := Keys.totalPages v;
       Keys.labels :=
         if includes (Keys.digitValue d)
              (currentProblemsOf (Keys.labels v) (Keys.currentPage v))
         then Keys.labels v
         else handleKeyboardPageLabel (Keys.currentPage v) (Keys.digitValue d)
                (Keys.labels v);
       Keys.keyState :=
         {| Keys.lastAddedProblem := Some (Keys.digitValue d);
            Keys.lastAddedTimestamp := now;
            Keys.lastAddedTimeout := true;
            Keys.lastAddedWasNew :=
              negb (includes (Keys.digitValue d)
                      (currentProblemsOf (Keys.labels v) (Keys.currentPage v))) |} |}.
Proof.
  intros Hidle Hd. unfold Keys.handleDigit, Keys.withinWindow.
  rewrite Hidle. by destruct d.
Qed.

(** X18: two digits typed within 500 ms make one two-digit label. With no
    digit pending, on a page that holds neither the sentinel nor the
    two-digit number, a first key 1-9 followed within 500 ms by a second
    digit key leaves the page with its former labels followed by the
    two-digit number: the single digit added by the first press is taken
    back, a digit that was already a label of the page stays. The
    two-digit state is cleared. *)
Theorem two_digits_make_one_label
    (v : Keys.View) (d1 d2 : Keys.Digit) (t1 t2 : Z) :
  Keys.lastAddedProblem (Keys.keyState v) = None →
  d1 ≠ Keys.D0 →
  0 < t1 →
  t2 - t1 ≤ 500 →
  let page := Keys.currentPage v in
  let l := currentProblemsOf (Keys.labels v) page in
  let number := 10 * Keys.digitValue d1 + Keys.digitValue d2 in
  sentinel ∉ l →
  number ∉ l →
  Keys.labels v !! page ≠ Some [] →
  Keys.handleDigit d2 t2 (Keys.handleDigit d1 t1 v)
  = {| Keys.currentPage := page; Keys.totalPages := Keys.totalPages v;
       Keys.labels := <[page := l ++ [number]]> (Keys.labels v);
       Keys.keyState := Keys.cleared |}.
Proof.
  intros Hidle Hd1 Ht1 Ht2 page l number Hs Hnumber Hne.
  subst page l number.
  set (page := Keys.currentPage v) in *.
  set (m := Keys.labels v) in *.
  destruct (digitValue_range d1) as [[_ Hd1hi] Hd1lo]. specialize (Hd1lo Hd1).
  destruct (digitValue_range d2) as [[Hd2lo Hd2hi] _].
  rewrite (handleDigit_first d1 t1 v Hidle Hd1).
  unfold Keys.handleDigit at 1, Keys.withinWindow. simpl.
  destruct (Z.ltb_spec 0 t1); [|lia].
  destruct (Z.leb_spec (t2 - t1) 500); [|lia]. simpl.
  fold page. fold m. f_equal.
  unfold Keys.addCombination, Keys.combine.
  destruct (includes (Keys.digitValue d1) (currentProblemsOf m page)) eqn:Hd;
    simpl.
  - rewrite (proj2 (includes_false _ _) Hnumber). simpl.
    by rewrite handleKeyboardPageLabel_positive by (done || lia).
  - apply includes_false in Hd.
    assert (handleRemoveLastInstancePageLabel page (Keys.digitValue d1)
              (handleKeyboardPageLabel page (Keys.digitValue d1) m) = m)
      as Hundo by (apply undo_keyboard_add; done || lia).
    rewrite Hundo.
    rewrite (handleKeyboardPageLabel_positive page (Keys.digitValue d1) m)
      by (done || lia).
    rewrite currentProblemsOf_insert.
    assert (10 * Keys.digitValue d1 + Keys.digitValue d2
            ∉ currentProblemsOf m page ++ [Keys.digitValue d1]) as Hnumber'.
    { intros [?|Hin]%elem_of_app; [done|].
      apply list_elem_of_singleton in Hin. lia. }
    rewrite (proj2 (includes_false _ _) Hnumber'). simpl.
    by rewrite handleKeyboardPageLabel_positive by (done || lia).
Qed.

Lemma two_digits_make_one_label_witness :
  let v := {| Keys.currentPage := 2; Keys.totalPages := 3;
              Keys.labels := {[ 2 := [1; 4] ]};
              Keys.keyState := Keys.cleared |} in
  (Keys.lastAddedProblem (Keys.keyState v) = None
   ∧ Keys.D1 ≠ Keys.D0 ∧ 0 < 1000 ∧ 1400 - 1000 ≤ 500
   ∧ (sentinel ∉ currentProblemsOf (Keys.labels v) 2)
   ∧ (10 * Keys.digitValue Keys.D1 + Keys.digitValue Keys.D0
      ∉ currentProblemsOf (Keys.labels v) 2)
   ∧ Keys.labels v !! 2 ≠ Some [])
  ∧ Keys.handleDigit Keys.D0 1400 (Keys.handleDigit Keys.D1 1000 v)
    = {| Keys.currentPage := 2; Keys.totalPages := 3;
         Keys.labels := <[2 := [1; 4] ++ [10]]> (Keys.labels v);
         Keys.keyState := Keys.cleared |}.
Proof.
  intros v.
  assert (Keys.lastAddedProblem (Keys.keyState v) = None) as Hidle by reflexivity.
  assert (Keys.D1 ≠ Keys.D0) as Hd by discriminate.
  assert (0 < 1000) as Ht1 by lia.
  assert (1400 - 1000 ≤ 500) as Ht2 by lia.
  assert (sentinel ∉ currentProblemsOf (Keys.labels v) 2) as Hs.
  { change (-1 ∉ [1; 4]). intros [?|[?|?%elem_of_nil]%elem_of_cons]%elem_of_cons;
      [lia | lia | done]. }
  assert (10 * Keys.digitValue Keys.D1 + Keys.digitValue Keys.D0
          ∉ currentProblemsOf (Keys.labels v) 2) as Hnumber.
  { change (10 ∉ [1; 4]). intros [?|[?|?%elem_of_nil]%elem_of_cons]%elem_of_cons;
      [lia | lia | done]. }
  assert (Keys.labels v !! 2 ≠ Some []) as Hne
    by (change (Some [1; 4] ≠ Some []); discriminate).
  split; [done|].
  exact (two_digits_make_one_label v Keys.D1 Keys.D0 1000 1400
           Hidle Hd Ht1 Ht2 Hs Hnumber Hne).
Defined.

(** X19: outside the 500 ms window the second digit is a label of its own.
    After a first key 1-9 pressed with no digit pending, a second key 1-9
    pressed more than 500 ms later, or after the timer has fired, labels
    the page as a first press would: the number is added unless the page
    already holds it, and the first digit stays. A 0 pressed then changes
    no label. *)
Theorem late_second_digit_stands_alone
    (v : Keys.View) (d1 d2 : Keys.Digit) (t1 t2 : Z) :
  Keys.lastAddedProblem (Keys.keyState v) = None →
  d1 ≠ Keys.D0 →
  0 < t1 →
  500 < t2 - t1 →
  let first := Keys.handleDigit d1 t1 v in
  (d2 ≠ Keys.D0 →
   Keys.labels (Keys.handleDigit d2 t2 first)
   = Keys.labels (Keys.handleDigit d2 t2
                    (Keys.withLabels (λ _, Keys.labels first) v))
   ∧ Keys.labels (Keys.handleDigit d2 t1 (Keys.timerFired first))
     = Keys.labels (Keys.handleDigit d2 t2 first))
  ∧ Keys.labels (Keys.handleDigit Keys.D0 t2 first) = Keys.labels first
  ∧ Keys.labels (Keys.handleDigit Keys.D0 t1 (Keys.timerFired first))
    = Keys.labels first.
Proof.
  intros Hidle Hd1 Ht1 Ht2 first. subst first.
  rewrite (handleDigit_first d1 t1 v Hidle Hd1).
  set (l1 := if includes _ _ then _ else _).
  split; [|split].
  - intros Hd2. split.
    + rewrite (handleDigit_first d2 t2 (Keys.withLabels _ v)) by done.
      unfold Keys.handleDigit, Keys.withinWindow. simpl.
      destruct (Z.ltb_spec 0 t1); [|lia].
      destruct (Z.leb_spec (t2 - t1) 500); [lia|]. simpl.
      by destruct d2.
    + unfold Keys.timerFired. simpl.
      unfold Keys.handleDigit, Keys.withinWindow. simpl.
      destruct (Z.ltb_spec 0 t1); [|lia].
      destruct (Z.leb_spec (t2 - t1) 500); [lia|]. simpl.
      by destruct d2.
  - unfold Keys.handleDigit, Keys.withinWindow. simpl.
    destruct (Z.ltb_spec 0 t1); [|lia].
    destruct (Z.leb_spec (t2 - t1) 500); [lia|]. done.
  - done.
Qed.

Lemma late_second_digit_stands_alone_witness :
  let v := {| Keys.currentPage := 1; Keys.totalPages := 3;
              Keys.labels := {[ 1 := [4] ]};
              Keys.keyState := Keys.cleared |} in
  let first := Keys.handleDigit Keys.D1 1000 v in
  (Keys.lastAddedProblem (Keys.keyState v) = None
   ∧ Keys.D1 ≠ Keys.D0 ∧ 0 < 1000 ∧ 500 < 1600 - 1000
   ∧ Keys.labels (Keys.handleDigit Keys.D2 1600 first) = {[ 1 := [4; 1; 2] ]})
  ∧ (Keys.D2 ≠ Keys.D0 →
     Keys.labels (Keys.handleDigit Keys.D2 1600 first)
     = Keys.labels (Keys.handleDigit Keys.D2 1600
                      (Keys.withLabels (λ _, Keys.labels first) v))
     ∧ Keys.labels (Keys.handleDigit Keys.D2 1000 (Keys.timerFired first))
       = Keys.labels (Keys.handleDigit Keys.D2 1600 first))
  ∧ Keys.labels (Keys.handleDigit Keys.D0 1600 first) = Keys.labels first
  ∧ Keys.labels (Keys.handleDigit Keys.D0 1000 (Keys.timerFired first))
    = Keys.labels first.
Proof.
  intros v first.
  assert (Keys.lastAddedProblem (Keys.keyState v) = None) as Hidle by reflexivity.
  assert (Keys.D1 ≠ Keys.D0) as Hd by discriminate.
  assert (0 < 1000) as Ht1 by lia.
  assert (500 < 1600 - 1000) as Ht2 by lia.
  split; [repeat split; try done; reflexivity|].
  exact (late_second_digit_stands_alone v Keys.D1 Keys.D2 1000 1600
           Hidle Hd Ht1 Ht2).
Defined.

(** ** From the labels to the filed pages *)
Section Multiplicity.
Variables (doc : PDFDocument) (sid : Z) (sname : string).

Lemma Object_entries_Permutation (m : gmap Z (list Z)) :
  Object_entries m ≡ₚ map_to_list m.
Proof. unfold Object_entries. apply merge_sort_Permutation. Qed.

Lemma count_NoDup (p : Z) (l : list Z) :
  NoDup l →
  length (filter (λ q, q = p) l) = if decide (p ∈ l) then 1%nat else 0%nat.
Proof.
  induction 1 as [|x l Hx Hl IH]; [done|].
  rewrite filter_cons. destruct (decide (x = p)) as [->|Hne].
  - rewrite decide_True by apply list_elem_of_here.
    cbn [length]. rewrite IH, decide_False by done. done.
  - rewrite IH. destruct (decide (p ∈ l)).
    + rewrite decide_True by (by right). done.
    + rewrite decide_False; [done|].
      intros [?|?]%elem_of_cons; [congruence | done].
Qed.

(** The pages a task files for one page and one positive problem number are
    as many as the occurrences of the number in the page's labels. *)
Lemma filed_count (m : gmap Z (list Z)) (page p : Z) :
  validLabels doc (Object_entries m) →
  0 < p →
  length (filter (sameCombination sid page p)
            (filedBy doc sid sname (Object_entries m)))
  = length (filter (λ q, q = p) (currentProblemsOf m page)).
Proof.
  intros Hvalid Hp. unfold filedBy. rewrite length_filter_bind.
  unfold currentProblemsOf. destruct (m !! page) as [l|] eqn:Hl; simpl.
  - assert ((page, l) ∈ Object_entries m) as Hentry.
    { rewrite Object_entries_Permutation. by apply elem_of_map_to_list. }
    destruct (filedByEntry_valid doc sid sname (page, l)) as (pg & _ & Hfiled).
    { by apply (proj1 (Forall_forall _ _) Hvalid). }
    rewrite <- (insert_id m page l Hl) at 1.
    rewrite Object_entries_insert. simpl. rewrite Hfiled. simpl.
    rewrite this_page_files_each by done.
    rewrite sum_list_with_zero; [lia|].
    apply Forall_forall. intros [q nums] Hq.
    apply other_page_files_none. simpl.
    apply elem_of_map_to_list in Hq. intros ->.
    by rewrite lookup_delete_eq in Hq.
  - rewrite Object_entries_Permutation.
    apply sum_list_with_zero, Forall_forall. intros [q nums] Hq.
    apply other_page_files_none. simpl.
    apply elem_of_map_to_list in Hq. intros ->. congruence.
Qed.
End Multiplicity.

(** X20: when the label assignment of the sorting page is submitted for a
    student of the roster whose document loads, all its pages being pages
    of the document and the font encoding its watermarks, then for every
    page and every positive problem number the task appends to the collection of that number as many stamped pages
    of that student and page as the number occurs in the labels of the
    page. With a tidy assignment, as the sorting page keeps it, that is one
    page when the page carries the number and none otherwise. *)
Theorem filed_pages_match_labels {fonts : StandardFonts}
    (m : gmap Z (list Z)) (page p : Z)
    (fs : FileSystem) (s : SessionData) (sid : Z) (sname : string)
    (st : StudentData) (doc : PDFDocument) :
  findStudent sid (students s) = Some st →
  fs !! originalPdfPath st = Some (PdfBytes doc) →
  validLabels doc (Object_entries m) →
  canStamp doc sid sname (Object_entries m) →
  0 < p →
  let s' := processStudentInBackground fs sid sname (Object_entries m) s in
  ∃ new,
    collection (problemPages s') p = collection (problemPages s) p ++ new
    ∧ length (filter (λ pg, studentId pg = sid ∧ pageNumber pg = page) new)
      = length (filter (λ q, q = p) (currentProblemsOf m page))
    ∧ (tidy m →
       length (filter (λ pg, studentId pg = sid ∧ pageNumber pg = page) new)
       = if decide (p ∈ currentProblemsOf m page) then 1%nat else 0%nat).
Proof.
  intros Hst Hfile Hvalid Hstamp Hp s'.
  exists (filter (λ x, x.1 = p)
            (filedBy doc sid sname (Object_entries m))).*2.
  assert (length (filter (λ pg, studentId pg = sid ∧ pageNumber pg = page)
                    (filter (λ x, x.1 = p)
                       (filedBy doc sid sname (Object_entries m))).*2)
          = length (filter (λ q, q = p) (currentProblemsOf m page))) as Hcount.
  { rewrite length_filter_collection. by apply filed_count. }
  split; [|split; [done|]].
  - unfold s'.
    rewrite (processStudentInBackground_ok fs sid sname _ s st doc)
      by eauto using validLabels_entryOk.
    apply collection_fileAll.
  - intros Htidy. rewrite Hcount. apply count_NoDup.
    by destruct (tidy_current m page Htidy) as [? _].
Qed.

Lemma filed_pages_match_labels_witness :
  let m : gmap Z (list Z) := {[ 1 := [2; 1]; 3 := [2] ]} in
  let s' := processStudentInBackground exampleFiles 1 "Ann" (Object_entries m)
              exampleSession in
  (findStudent 1 (students exampleSession) = Some exampleStudent1
   ∧ exampleFiles !! originalPdfPath exampleStudent1 = Some (PdfBytes exampleDoc)
   ∧ validLabels exampleDoc (Object_entries m)
   ∧ canStamp exampleDoc 1 "Ann" (Object_entries m)
   ∧ 0 < 2)
  ∧ ∃ new,
      collection (problemPages s') 2
      = collection (problemPages exampleSession) 2 ++ new
      ∧ length (filter (λ pg, studentId pg = 1 ∧ pageNumber pg = 3) new)
        = length (filter (λ q, q = 2) (currentProblemsOf m 3))
      ∧ (tidy m →
         length (filter (λ pg, studentId pg = 1 ∧ pageNumber pg = 3) new)
         = if decide (2 ∈ currentProblemsOf m 3) then 1%nat else 0%nat).
Proof.
  intros m s'.
  assert (findStudent 1 (students exampleSession) = Some exampleStudent1)
    as Hknown by reflexivity.
  assert (exampleFiles !! originalPdfPath exampleStudent1
          = Some (PdfBytes exampleDoc)) as Hfile by reflexivity.
  assert (validLabels exampleDoc (Object_entries m)) as Hvalid.
  { change (validLabels exampleDoc [(1, [2; 1]); (3, [2])]).
    unfold validLabels. repeat constructor; simpl; lia. }
  assert (canStamp exampleDoc 1 "Ann" (Object_entries m)) as Hstamp.
  { change (canStamp exampleDoc 1 "Ann" [(1, [2; 1]); (3, [2])]).
    unfold canStamp. repeat constructor. }
  assert (0 < 2) as Hp by lia.
  split; [done|].
  exact (filed_pages_match_labels m 3 2 exampleFiles exampleSession 1 "Ann"
           exampleStudent1 exampleDoc Hknown Hfile Hvalid Hstamp Hp).
Defined.

(** * The shell and the roster *)

Lemma findStudent_newStudents (files : list UploadedFile) (i : nat)
    (file : UploadedFile) :
  files !! i = Some file →
  findStudent (Z.of_nat i + 1) (newStudents files)
  = Some {| id := Z.of_nat i + 1; name := "";
            originalPdfPath := path file; pageLabels := [];
            processingStatus := pending; processingError := None |}.
Proof.
  intros Hfile.
  rewrite findStudent_idsInOrder by apply idsInOrder_newStudents.
  rewrite decide_True by lia.
  replace (Z.to_nat (Z.of_nat i + 1 - 1)) with i by lia.
  unfold newStudents. rewrite list_lookup_imap, Hfile. done.
Qed.

Section Shell.
Variable N : Z.

Lemma completions_cons_complete (es : list App.Event) :
  App.completions (App.StudentComplete :: es) = S (App.completions es).
Proof. unfold App.completions. by rewrite filter_cons, decide_True. Qed.

Lemma completions_cons_other (e : App.Event) (es : list App.Event) :
  App.isStudentComplete e = false →
  App.completions (e :: es) = App.completions es.
Proof.
  intros He. unfold App.completions.
  rewrite filter_cons, decide_False; [done | congruence].
Qed.

(** While students are left, the events keep the phase and the total, and
    each completion moves to the next id without finalizing. *)
Lemma handleEvents_sorting (es : list App.Event) (st : App.AppState) (b : bool) :
  App.phase st = App.PhaseSorting →
  App.totalStudents st = N →
  App.currentStudentId st + Z.of_nat (App.completions es) ≤ N →
  ∃ st',
    App.handleEvents es (st, b) = (st', b)
    ∧ App.phase st' = App.PhaseSorting
    ∧ App.totalStudents st' = N
    ∧ App.currentStudentId st'
      = App.currentStudentId st + Z.of_nat (App.completions es).
Proof.
  revert st. induction es as [|e es IH]; intros st Hphase Htotal Hle.
  - exists st. unfold App.completions. simpl. repeat split; try done. lia.
  - destruct e as [|sid data|count].
    + rewrite completions_cons_complete in Hle |- *.
      unfold App.handleEvents. cbn [foldl App.handleEvent fst snd].
      unfold App.handleStudentComplete.
      destruct (Z.ltb_spec (App.currentStudentId st) (App.totalStudents st));
        [|lia].
      rewrite orb_false_r.
      match goal with
      | |- ∃ _, foldl _ (?x, _) _ = _ ∧ _ =>
          destruct (IH x) as (st' & Hrun & Hp & Ht & Hc)
      end; [done | done | simpl; lia |].
      exists st'. split; [exact Hrun|]. repeat split; try done.
      rewrite Hc. simpl. lia.
    + rewrite completions_cons_other in Hle |- * by done.
      unfold App.handleEvents. cbn [foldl App.handleEvent fst snd].
      destruct (IH (App.handlePrefetchComplete sid data st))
        as (st' & Hrun & Hp & Ht & Hc); [done | done | simpl; lia |].
      exists st'. split; [exact Hrun|]. by repeat split.
    + rewrite completions_cons_other in Hle |- * by done.
      unfold App.handleEvents. cbn [foldl App.handleEvent fst snd].
      destruct (IH (App.pollStatus count st))
        as (st' & Hrun & Hp & Ht & Hc); [done | done | simpl; lia |].
      exists st'. split; [exact Hrun|]. by repeat split.
Qed.
End Shell.

(** X21: after an upload of files the shell walks the roster of the server.
    Started with the [totalStudents] of the upload's answer, and whatever
    prefetches and status polls arrive, after [k] completed students, [k]
    less than the number of files, the shell is still sorting, has not
    called finalize, and shows the student with id [k + 1], which the
    server finds: the student of the file at position [k]. The completion
    of the last student changes nothing in the state and calls finalize. *)
Theorem shell_walks_the_roster
    (files : list UploadedFile) (s : SessionData) (answer : UploadOk)
    (es : list App.Event) :
  (upload (Some files) s).1 = Ok answer →
  (App.completions es < length files)%nat →
  let server := (upload (Some files) s).2 in
  let shell :=
    App.handleEvents es
      (App.handleUploadComplete (Z.of_nat (totalStudents answer)), false) in
  App.phase shell.1 = App.PhaseSorting
  ∧ shell.2 = false
  ∧ App.currentStudentId shell.1 = Z.of_nat (App.completions es) + 1
  ∧ (∃ file,
       files !! App.completions es = Some file
       ∧ findStudent (App.currentStudentId shell.1) (students server)
         = Some {| id := Z.of_nat (App.completions es) + 1; name := "";
                   originalPdfPath := path file; pageLabels := [];
                   processingStatus := pending; processingError := None |})
  ∧ (S (App.completions es) = length files →
     App.handleStudentComplete shell.1 = (shell.1, true)).
Proof.
  intros Hanswer Hk server shell.
  assert (totalStudents answer = length files) as Htotal.
  { simpl in Hanswer. injection Hanswer as <-. simpl.
    unfold newStudents. by rewrite length_imap. }
  destruct (handleEvents_sorting (Z.of_nat (length files)) es
              (App.handleUploadComplete (Z.of_nat (totalStudents answer))) false)
    as (st' & Hrun & Hp & Ht & Hc).
  { done. }
  { simpl. by rewrite Htotal. }
  { simpl. lia. }
  unfold shell. rewrite Hrun. simpl in Hc. cbn [fst snd].
  split; [done|]. split; [done|]. split; [lia|]. split.
  - destruct (lookup_lt_is_Some_2 files (App.completions es) Hk) as [file Hfile].
    exists file. split; [done|].
    rewrite Hc. replace (1 + Z.of_nat (App.completions es))
      with (Z.of_nat (App.completions es) + 1) by lia.
    unfold server. simpl. by apply findStudent_newStudents.
  - intros Hlast. unfold App.handleStudentComplete.
    destruct (Z.ltb_spec (App.currentStudentId st') (App.totalStudents st'));
      [lia | done].
Qed.

Lemma shell_walks_the_roster_witness :
  let files := [mkFile "a.pdf" "/tmp/exam-grader-uploads/pdfs-1.pdf";
                mkFile "b.pdf" "/tmp/exam-grader-uploads/pdfs-2.pdf"] in
  let answer := {| totalStudents := 2;
                   uploadMessage := "Successfully uploaded 2 PDF files" |} in
  let es := [App.PollStatus 0; App.StudentComplete; App.PollStatus 1] in
  let server := (upload (Some files) emptySession).2 in
  let shell :=
    App.handleEvents es
      (App.handleUploadComplete (Z.of_nat (totalStudents answer)), false) in
  ((upload (Some files) emptySession).1 = Ok answer
   ∧ (App.completions es < length files)%nat
   ∧ App.completions es = 1%nat)
  ∧ App.phase shell.1 = App.PhaseSorting
  ∧ shell.2 = false
  ∧ App.currentStudentId shell.1 = Z.of_nat (App.completions es) + 1
  ∧ (∃ file,
       files !! App.completions es = Some file
       ∧ findStudent (App.currentStudentId shell.1) (students server)
         = Some {| id := Z.of_nat (App.completions es) + 1; name := "";
                   originalPdfPath := path file; pageLabels := [];
                   processingStatus := pending; processingError := None |})
  ∧ (S (App.completions es) = length files →
     App.handleStudentComplete shell.1 = (shell.1, true)).
Proof.
  intros files answer es server shell.
  assert ((upload (Some files) emptySession).1 = Ok answer) as Hanswer
    by reflexivity.
  assert (App.completions es < length files)%nat as Hk
    by (vm_compute; lia).
  split; [split; [done | split; [done | reflexivity]]|].
  exact (shell_walks_the_roster files emptySession answer es Hanswer Hk).
Defined.

(** * Names the font cannot encode *)
Section Unencodable.
Context {fonts : StandardFonts}.
Variables (doc : PDFDocument) (sid : Z) (sname : string).
Implicit Types (s : SessionData) (nums : list Z).

Lemma forEach_stamp_unstampable pageNum nums s :
  (∀ p, 0 < p → ¬ stampable (labelText p sname sid)) →
  (∃ p, p ∈ nums ∧ 0 < p) →
  ∃ msg, forEach nums (stampAndFile doc sid sname pageNum) s = (inl msg, s).
Proof.
  intros Hname (p & Hin & Hp).
  induction nums as [|q nums IH]; [by apply elem_of_nil in Hin|].
  simpl. rewrite bind_run.
  destruct (stampAndFile_cases doc sid sname pageNum q s)
    as [(msg & _ & ->) | [[Hq ->] | (pg & Hq & _ & Hstamp & _)]].
  - eauto.
  - apply IH. apply elem_of_cons in Hin as [->|Hin]; [lia | done].
  - by destruct (Hname q Hq).
Qed.

(** An entry throws when it is stamped at all: its page number is not
    above the page count and it carries a positive problem number. *)
Lemma processEntry_unstampable (entry : Z * list Z) s :
  (∀ p, 0 < p → ¬ stampable (labelText p sname sid)) →
  (entry.1 ≤ Z.of_nat (length doc) ∧ ∃ p, p ∈ entry.2 ∧ 0 < p) →
  ∃ msg, processEntry doc sid sname entry s = (inl msg, s).
Proof.
  intros Hname [Hle Hpos]. unfold processEntry, getPages.
  destruct (Z.leb_spec entry.1 (Z.of_nat (length doc))); [|lia].
  destruct Hpos as (p & Hin & Hp).
  destruct entry.2 as [|q nums] eqn:Hnums; [by apply elem_of_nil in Hin|].
  simpl length. destruct (Z.ltb_spec 0 (Z.of_nat (S (length nums)))); [|lia].
  simpl andb. apply forEach_stamp_unstampable; eauto.
Qed.

Lemma processEntry_skipped (entry : Z * list Z) s :
  ¬ (entry.1 ≤ Z.of_nat (length doc) ∧ ∃ p, p ∈ entry.2 ∧ 0 < p) →
  processEntry doc sid sname entry s = (inr tt, s).
Proof.
  intros Hnot. unfold processEntry, getPages.
  destruct (Z.leb_spec entry.1 (Z.of_nat (length doc))); [|done].
  destruct (0 <? Z.of_nat (length entry.2)); [|done]. simpl andb.
  apply forEach_stamp_nonpositive. apply Forall_forall. intros p Hin.
  destruct (decide (0 < p)); [|lia]. destruct Hnot. eauto.
Qed.

Lemma forEach_entries_unstampable (pageLabels : PageLabels) s :
  (∀ p, 0 < p → ¬ stampable (labelText p sname sid)) →
  (∃ entry, entry ∈ pageLabels
            ∧ entry.1 ≤ Z.of_nat (length doc) ∧ ∃ p, p ∈ entry.2 ∧ 0 < p) →
  ∃ msg, forEach pageLabels (processEntry doc sid sname) s = (inl msg, s).
Proof.
  intros Hname (entry & Hin & Hentry).
  induction pageLabels as [|first pageLabels IH];
    [by apply elem_of_nil in Hin|].
  simpl. rewrite bind_run.
  destruct (decide (first.1 ≤ Z.of_nat (length doc)
                    ∧ Exists (λ p, 0 < p) first.2)) as [Hfirst|Hfirst].
  - destruct (processEntry_unstampable first s Hname) as [msg ->]; [|eauto].
    destruct Hfirst as [? (p & ? & ?)%Exists_exists]. eauto.
  - rewrite processEntry_skipped.
    + apply IH. apply elem_of_cons in Hin as [->|Hin]; [|done].
      destruct Hfirst. destruct Hentry as [? Hpos]. split; [done|].
      by apply Exists_exists.
    + intros [? Hpos]. apply Hfirst. split; [done|]. by apply Exists_exists.
Qed.
End Unencodable.

Lemma printable_app (a b : string) :
  printable (a +:+ b) = printable a && printable b.
Proof.
  unfold printable. induction a as [|c a IH]; [done|].
  change (String c a +:+ b) with (String c (a +:+ b)).
  cbn [String.list_ascii_of_string forallb].
  rewrite IH. by rewrite andb_assoc.
Qed.

(** X22: when the font can encode no watermark of the submitted name, as
    with a name that has a character outside the font's encoding, and the
    label assignment of a student of the roster whose document loads has a
    positive problem number on a page not above the page count, the first
    stamp throws: the task ends in error with a message recorded and files
    no page at all; the final documents are as before. *)
Theorem task_unencodable_name {fonts : StandardFonts}
    (fs : FileSystem) (s : SessionData) (sid : Z) (sname : string)
    (pageLabels : PageLabels) (st : StudentData) (doc : PDFDocument) :
  findStudent sid (students s) = Some st →
  fs !! originalPdfPath st = Some (PdfBytes doc) →
  (∀ p, 0 < p → ¬ stampable (labelText p sname sid)) →
  (∃ entry, entry ∈ pageLabels
            ∧ entry.1 ≤ Z.of_nat (length doc) ∧ ∃ p, p ∈ entry.2 ∧ 0 < p) →
  let s' := processStudentInBackground fs sid sname pageLabels s in
  statusOf sid s' = Some error
  ∧ is_Some (errorOf sid s')
  ∧ problemPages s' = problemPages s
  ∧ finalPdfs s' = finalPdfs s.
Proof.
  intros Hst Hfile Hname Hentry s'. subst s'.
  unfold processStudentInBackground, processBody. rewrite Hst, bind_modify.
  unfold readFile. rewrite Hfile. simpl lift. rewrite bind_ret. simpl lift.
  rewrite bind_ret, bind_run.
  destruct (forEach_entries_unstampable doc sid sname pageLabels
              (withStudents (updateStudent sid (setStatus processing)) s)
              Hname Hentry) as [msg ->].
  unfold statusOf, errorOf. simpl.
  rewrite !findStudent_updateStudent by done. rewrite Hst. simpl.
  split; [done|]. split; [eauto | done].
Qed.

Lemma task_unencodable_name_witness :
  let pageLabels := [(5, [1]); (2, [-1]); (3, [2; 1])] in
  let s' := processStudentInBackground exampleFiles 1 "Łukasz" pageLabels
              exampleSession in
  (findStudent 1 (students exampleSession) = Some exampleStudent1
   ∧ exampleFiles !! originalPdfPath exampleStudent1 = Some (PdfBytes exampleDoc)
   ∧ (∀ p, 0 < p → ¬ stampable (labelText p "Łukasz" 1))
   ∧ ∃ entry, entry ∈ pageLabels
              ∧ entry.1 ≤ Z.of_nat (length exampleDoc)
              ∧ ∃ p, p ∈ entry.2 ∧ 0 < p)
  ∧ statusOf 1 s' = Some error
  ∧ is_Some (errorOf 1 s')
  ∧ problemPages s' = problemPages exampleSession
  ∧ finalPdfs s' = finalPdfs exampleSession.
Proof.
  intros pageLabels s'.
  assert (findStudent 1 (students exampleSession) = Some exampleStudent1)
    as Hknown by reflexivity.
  assert (exampleFiles !! originalPdfPath exampleStudent1
          = Some (PdfBytes exampleDoc)) as Hfile by reflexivity.
  assert (∀ p, 0 < p → ¬ stampable (labelText p "Łukasz" 1)) as Hname.
  { intros p _ [Hmeasures _]. unfold labelText in Hmeasures.
    simpl measures in Hmeasures. rewrite !printable_app in Hmeasures.
    replace (printable "Łukasz") with false in Hmeasures by reflexivity.
    rewrite !andb_false_r in Hmeasures. simpl in Hmeasures.
    by rewrite ?andb_false_r in Hmeasures. }
  assert (∃ entry, entry ∈ pageLabels
                   ∧ entry.1 ≤ Z.of_nat (length exampleDoc)
                   ∧ ∃ p, p ∈ entry.2 ∧ 0 < p) as Hentry.
  { exists (3, [2; 1]). split; [|split; [simpl; lia|]].
    - unfold pageLabels. do 2 apply list_elem_of_further. apply list_elem_of_here.
    - exists 2. split; [apply list_elem_of_here | lia]. }
  split; [done|].
  exact (task_unencodable_name exampleFiles exampleSession 1 "Łukasz" pageLabels
           exampleStudent1 exampleDoc Hknown Hfile Hname Hentry).
Defined.

(** X23: the label handler leaves the student in status processing, with
    the submitted name and labels, and every other student, the collections
    and the final documents as they were; once the task it has started has
    run, the status is completed or error, and no longer processing. *)
Theorem label_marks_processing {fonts : StandardFonts}
    (fs : FileSystem) (req : LabelRequest) (s : SessionData) (st : StudentData) :
  findStudent (reqStudentId req) (students s) = Some st →
  let s' := (label req s).1.2 in
  findStudent (reqStudentId req) (students s')
  = Some {| id := id st; name := reqStudentName req;
            originalPdfPath := originalPdfPath st;
            pageLabels := reqPageLabels req;
            processingStatus := processing;
            processingError := processingError st |}
  ∧ (∀ other, other ≠ reqStudentId req →
       findStudent other (students s') = findStudent other (students s))
  ∧ problemPages s' = problemPages s
  ∧ finalPdfs s' = finalPdfs s
  ∧ (Status.processingStudents (status s') ≥ 1)%nat
  ∧ (statusOf (reqStudentId req) (submit fs req s) = Some completed
     ∨ statusOf (reqStudentId req) (submit fs req s) = Some error).
Proof.
  intros Hst s'. subst s'.
  unfold submit. rewrite (label_known_student req s st Hst).
  cbn [fst snd]. unfold runTask. cbn [taskStudentId taskStudentName taskPageLabels].
  set (s1 := withStudents _ (withStudents _ s)).
  assert (findStudent (reqStudentId req) (students s1)
          = Some (setStatus processing
                    (setNameAndLabels (reqStudentName req) (reqPageLabels req)
                       st))) as Hfound.
  { unfold s1. simpl. rewrite !findStudent_updateStudent by done.
    by rewrite Hst. }
  split; [by rewrite Hfound|].
  split.
  { intros other Hother. unfold s1. simpl.
    by rewrite !findStudent_updateStudent_ne. }
  split; [done|]. split; [done|]. split.
  - pose proof Hfound as Hin. apply find_some in Hin as [Hin _].
    apply list_elem_of_In in Hin.
    assert (setStatus processing
              (setNameAndLabels (reqStudentName req) (reqPageLabels req) st)
            ∈ filter (λ student, processingStatus student = processing)
                (students s1)) as Hfiltered
      by (by apply list_elem_of_filter).
    change (length (filter (λ student, processingStatus student = processing)
                      (students s1)) ≥ 1)%nat.
    destruct (filter _ (students s1));
      [by apply elem_of_nil in Hfiltered | simpl; lia].
  - destruct (processStudentInBackground_student fs (reqStudentId req)
                (reqStudentName req) (reqPageLabels req) s1 _ Hfound)
      as (st' & Hst' & _ & _ & _ & _ & Hend).
    unfold statusOf. rewrite Hst'. simpl.
    destruct Hend as [[-> _]|[-> _]]; auto.
Qed.

Lemma label_marks_processing_witness :
  let req := {| reqStudentId := 1; reqStudentName := "Ann";
                reqPageLabels := [(1, [1])] |} in
  let s' := (label req exampleSession).1.2 in
  findStudent 1 (students exampleSession) = Some exampleStudent1
  ∧ findStudent 1 (students s')
    = Some {| id := 1; name := "Ann";
              originalPdfPath := "/tmp/exam-grader-uploads/pdfs-1.pdf";
              pageLabels := [(1, [1])];
              processingStatus := processing;
              processingError := None |}
  ∧ (∀ other, other ≠ 1 →
       findStudent other (students s')
       = findStudent other (students exampleSession))
  ∧ problemPages s' = problemPages exampleSession
  ∧ finalPdfs s' = finalPdfs exampleSession
  ∧ (Status.processingStudents (status s') ≥ 1)%nat
  ∧ (statusOf 1 (submit exampleFiles req exampleSession) = Some completed
     ∨ statusOf 1 (submit exampleFiles req exampleSession) = Some error).
Proof.
  intros req s'.
  assert (findStudent (reqStudentId req) (students exampleSession)
          = Some exampleStudent1) as Hknown by reflexivity.
  split; [done|].
  exact (label_marks_processing exampleFiles req exampleSession exampleStudent1
           Hknown).
Defined.
